(** * probe-srv: the HTTP probe (src/probes/http.js, src/utils.ts,
      src/config.ts)

    A shallow embedding of the HTTP probing engine: the timing handlers wired
    on the socket and response events, the redirect recursion over a shared
    probe state, the six expectation validators and the metric assembly.

    Conventions of the embedding.
    - JavaScript values that the probe reads from [ctx.query] are [JsVal];
      the numbers the probe computes with (timestamps in milliseconds,
      durations, counters, status codes) are integers, so a number is
      [NaN] or [Fin z] with [z : Z].  The two expressions whose result is
      not an integer ([value / 1000] and [parseFloat(..)]) and the two
      formatting calls ([moment.utc(..).format()], [url.format(..)]) only
      produce output fields; they are kept as the expression that produced
      them, see [OutVal].
    - The asynchronous part of Node.js is a script: each leg of a chain is
      the list of events delivered to the handlers the probe registered,
      each with the reading of [new Date().getTime()] at that event.
    - The probe state is a JavaScript object mutated in place and handed
      to the recursive call; it is threaded explicitly, and [probeHttp]
      returns it next to the outcome of the promise.
    - Engines and helpers that are not part of http.js are the fields of
      the class [Platform].
    - The parsers, option validators and promise helpers of utils.ts and
      the helpers [getEnv] and [whitelistConfig] of config.ts are
      functions on values; what they take from their environment
      ([process.env], [readFile], [localeCompare]) is an argument. *)

From Stdlib Require Import ZArith String Ascii List Bool Lia OrderedTypeEx.
From stdpp Require Import base option list strings gmap pretty sorting.

Set Warnings "-register-all".
Local Open Scope Z_scope.

(** ** JavaScript values *)

Module Js.

(** A number: [NaN] or an integer.  The numbers of JavaScript are
    doubles; the integers below 2^53 in absolute value are doubles, and on
    them sums, differences and products that stay below 2^53 are the
    integer ones.  The embedding is that of the code on this range, which
    holds the readings of the clock, the durations, the counters and the
    status codes; a statement about numbers that could leave it carries the
    bound ([exact], below). *)
Inductive num : Type :=
| NaN
| Fin (z : Z).

#[export] Instance num_eq_dec : EqDecision num.
Proof. solve_decision. Defined.

Inductive JsVal : Type :=
| JUndefined
| JNull
| JBool (b : bool)
| JNum (n : num)
| JStr (s : string)
| JArr (items : list JsVal).

(** [a + b] and [a - b] on numbers (on the exact range: beyond it the
    code rounds to the nearest double). *)
Definition num_add (a b : num) : num :=
  match a, b with
  | Fin x, Fin y => Fin (x + y)
  | _, _ => NaN
  end.

Definition num_sub (a b : num) : num :=
  match a, b with
  | Fin x, Fin y => Fin (x - y)
  | _, _ => NaN
  end.

Definition num_mul (a b : num) : num :=
  match a, b with
  | Fin x, Fin y => Fin (x * y)
  | _, _ => NaN
  end.

(** [a <= b] on numbers (false when either is [NaN]). *)
Definition num_le (a b : num) : bool :=
  match a, b with
  | Fin x, Fin y => x <=? y
  | _, _ => false
  end.

(** A property holding a timestamp is [undefined] or an integer;
    [ToNumber(undefined)] is [NaN]. *)
Definition time_num (t : option Z) : num :=
  match t with
  | Some z => Fin z
  | None => NaN
  end.

(** [a || b] on two such properties: [undefined] and [0] are falsy. *)
Definition time_or (a b : option Z) : option Z :=
  match a with
  | Some z => if z =? 0 then b else a
  | None => b
  end.

(** [c || 0] for a counter property ([undefined], [NaN] and [0] are falsy). *)
Definition or_zero (c : option num) : num :=
  match c with
  | Some (Fin z) => Fin z
  | Some NaN | None => Fin 0
  end.

(** lodash [isNaN] on a number. *)
Definition isNaN (n : num) : bool :=
  match n with
  | NaN => true
  | Fin _ => false
  end.

(** [a === b] on numbers ([NaN] equals nothing). *)
Definition num_strict_eq (a b : num) : bool :=
  match a, b with
  | Fin x, Fin y => x =? y
  | _, _ => false
  end.

(** [p !== n] for a property [p] that is [undefined] or a number. *)
Definition prop_strict_ne (p : option num) (n : num) : bool :=
  match p with
  | Some a => negb (num_strict_eq a n)
  | None => true
  end.

(** ToBoolean. *)
Definition truthy (v : JsVal) : bool :=
  match v with
  | JUndefined | JNull => false
  | JBool b => b
  | JNum NaN => false
  | JNum (Fin z) => negb (z =? 0)
  | JStr s => negb (String.eqb s EmptyString)
  | JArr _ => true
  end.

(** [p === undefined] for a counter property. *)
Definition prop_undefined (p : option num) : bool :=
  match p with
  | Some _ => false
  | None => true
  end.

(** [!p] for a counter property. *)
Definition prop_falsy (p : option num) : bool :=
  match p with
  | Some (Fin z) => z =? 0
  | Some NaN | None => true
  end.

Definition is_undefined (v : JsVal) : bool :=
  match v with
  | JUndefined => true
  | _ => false
  end.

Definition is_true (v : JsVal) : bool :=
  match v with
  | JBool true => true
  | _ => false
  end.

Definition is_false (v : JsVal) : bool :=
  match v with
  | JBool false => true
  | _ => false
  end.

(** [Array.prototype.join] on strings. *)
Fixpoint join (sep : string) (l : list string) : string :=
  match l with
  | [] => EmptyString
  | [s] => s
  | s :: r => s +:+ sep +:+ join sep r
  end.

Definition num_to_string (n : num) : string :=
  match n with
  | NaN => "NaN"
  | Fin z => pretty z
  end.

(** ToString; an array is joined with commas, its [null] and [undefined]
    items printing as the empty string. *)
Fixpoint to_string (v : JsVal) : string :=
  match v with
  | JUndefined => "undefined"
  | JNull => "null"
  | JBool true => "true"
  | JBool false => "false"
  | JNum n => num_to_string n
  | JStr s => s
  | JArr items =>
      join "," (List.map (fun x => match x with
                                   | JUndefined | JNull => EmptyString
                                   | _ => to_string x
                                   end) items)
  end.

(** [items.join(sep)] on an array of values. *)
Definition join_vals (sep : string) (items : list JsVal) : string :=
  join sep (List.map (fun x => match x with
                               | JUndefined | JNull => EmptyString
                               | _ => to_string x
                               end) items).

(** ToNumber, given the conversion of strings. *)
Definition to_number (string_to_number : string -> num) (v : JsVal) : num :=
  match v with
  | JUndefined => NaN
  | JNull => Fin 0
  | JBool true => Fin 1
  | JBool false => Fin 0
  | JNum n => n
  | JStr s => string_to_number s
  | JArr _ => string_to_number (to_string v)
  end.

(** The code units [parseInt] and ToNumber skip as white space (those
    below 256). *)
Definition is_space (c : ascii) : bool :=
  let n := nat_of_ascii c in
  (n =? 9)%nat || (n =? 10)%nat || (n =? 11)%nat || (n =? 12)%nat
  || (n =? 13)%nat || (n =? 32)%nat || (n =? 160)%nat.

Fixpoint skip_space (l : list ascii) : list ascii :=
  match l with
  | c :: r => if is_space c then skip_space r else l
  | [] => []
  end.

Definition digit_val (c : ascii) : option Z :=
  let n := Z.of_nat (nat_of_ascii c) in
  if (48 <=? n) && (n <=? 57) then Some (n - 48) else None.

(** The value of the longest prefix of decimal digits, if there is one. *)
Fixpoint digits_prefix (acc : option Z) (l : list ascii) : option Z :=
  match l with
  | c :: r =>
      match digit_val c with
      | Some d => digits_prefix (Some (10 * default 0 acc + d)) r
      | None => acc
      end
  | [] => acc
  end.

(** [parseInt(s, 10)] (on the exact range: the code rounds an integer of
    2^53 or more to the nearest double). *)
Definition parseInt10 (s : string) : num :=
  let l := skip_space (list_ascii_of_string s) in
  let '(neg, l') :=
    match l with
    | "-"%char :: r => (true, r)
    | "+"%char :: r => (false, r)
    | _ => (false, l)
    end in
  match digits_prefix None l' with
  | Some z => Fin (if neg then - z else z)
  | None => NaN
  end.

(** An exception, by the name of its constructor and its message. *)
Record JsError : Type := { err_name : string; err_message : string }.

End Js.
Export Js.

(** ** Data of the probe *)

(** The fields of the object [url.parse] returns that the probe reads
    ([null] is [None]); [href] is the parsed text. *)
Record Url : Type := {
  protocol : option string;
  host : option string;
  pathname : option string;
  href : string
}.

#[export] Instance Url_eq_dec : EqDecision Url.
Proof. solve_decision. Defined.

(** [HttpParams] of utils.ts: header names to their values. *)
Abbreviation HttpParams := (gmap string (list JsVal)).

(** [reqOptions]: the request descriptor pushed on [state.requests]; the
    fields spread from [url.parse(target)] are [parsed]. *)
Record RequestOptions : Type := {
  method : JsVal;
  parsed : Url;
  agent : bool;
  reqHeaders : HttpParams;
  rejectUnauthorized : bool
}.

(** The response ([http.IncomingMessage]); [body] is the property that
    [Object.assign(res, { body })] adds at the end of a leg. *)
Record IncomingMessage : Type := {
  statusCode : Z;
  headers : gmap string string;
  httpVersion : string;
  body : JsVal
}.

(** [res.headers[name]]. *)
Definition header (res : IncomingMessage) (name : string) : JsVal :=
  match headers res !! name with
  | Some s => JStr s
  | None => JUndefined
  end.

Record Certificate : Type := { valid_to : JsVal }.

(** [req.connection]: absent, a socket without [getPeerCertificate], or a
    TLS socket with what [getPeerCertificate()] returns. *)
Inductive Connection : Type :=
| NoConnection
| PlainSocket
| TlsSocket (peerCertificate : option Certificate).

Record ClientRequest : Type := { connection : Connection }.

(** [ctx.query]. *)
Abbreviation Query := (gmap string JsVal).

Definition qget (query : Query) (key : string) : JsVal :=
  default JUndefined (query !! key).

(** The probe state: the object [state], with its array [requests] (an
    absent array and an empty one are both [[]], as
    [state.requests = state.requests || []] makes them) and its numeric
    properties. *)
Record ProbeState : Type := {
  requests : list RequestOptions;
  counters : gmap string num
}.

Definition emptyState : ProbeState := {| requests := []; counters := ∅ |}.

(** A value in a failure or a metric: a JavaScript value, or one of the
    four expressions kept as written. *)
Inductive OutVal : Type :=
| OVal (v : JsVal)
| OQuot (n : num) (d : Z)           (* n / d *)
| OParseFloat (v : JsVal)           (* parseFloat(v) *)
| OUtcDate (v : JsVal)              (* moment.utc(new Date(v)).format() *)
| OUrlFormat (u : Url).             (* url.format(u) *)

(** [Failure] of utils.ts; an absent optional property is [None]. *)
Record Failure : Type := {
  actual : option OutVal;
  cause : string;
  description : string;
  expected : option OutVal
}.

(** Modelled from the spec: the type [Metric] of ./metrics, which is not
    under src/.  A metric has a name, a unit, a value, a description and
    an optional tag mapping. *)
Record Metric : Type := {
  metricName : string;
  metricUnit : string;
  metricValue : OutVal;
  metricDescription : string;
  metricTags : list (string * string)
}.

(** Modelled from the spec: [buildMetric(name, unit, value, description,
    tags)] of ../utils, which utils.ts under src/ does not export; it
    builds the metric of its five arguments, the tags defaulting to none. *)
Definition buildMetric (n u : string) (v : OutVal) (d : string)
    (t : list (string * string)) : Metric :=
  {| metricName := n; metricUnit := u; metricValue := v;
     metricDescription := d; metricTags := t |}.

(** [ProbeResult] of utils.ts. *)
Record ProbeResult : Type := {
  failures : list Failure;
  metrics : list Metric;
  success : bool
}.

(** What becomes of the promise [probeHttp] returns: resolved, rejected
    (the executor threw), never settled because a handler threw (the
    exception leaves the event callback), or never settled because the
    script of events has no terminal event. *)
Inductive Outcome : Type :=
| Resolved (r : ProbeResult)
| Rejected (e : JsError)
| Thrown (e : JsError)
| Pending.

(** ** The platform *)

Inductive RegexResult : Type :=
| RegexSyntaxError (e : JsError)
| NoMatch
| Match (matched : string).

(** The two [TypeError]s that Node.js itself throws under http.js:
    [url.parse(v)] on a value that is not a string, and the read of a
    property of [undefined]. *)
Inductive Refusal : Type :=
| UrlNotAString (v : JsVal)
| PropertyOfUndefined (name : string).

(** What http.js calls and is not its own: the two helpers it imports from
    ../utils that utils.ts under src/ does not export under these names,
    and the engines of Node.js.
    - [parseBooleanQueryParam value defaultValue];
    - [parseHttpParamsQueryParam value];
    - [url_parse s]: [url.parse] on a string;
    - [string_to_number s]: ToNumber on a string;
    - [regexp_exec source subject]: [subject.match(new RegExp(source))];
    - [refusal_message r]: the message of the [TypeError] of Node.js for
      [r], which differs from one version of Node.js to the next. *)
Class Platform : Type := {
  parseBooleanQueryParam : JsVal -> JsVal -> JsVal;
  parseHttpParamsQueryParam : JsVal -> JsError + HttpParams;
  url_parse : string -> JsError + Url;
  string_to_number : string -> num;
  regexp_exec : string -> string -> RegexResult;
  refusal_message : Refusal -> string
}.

(** ** utils.ts *)

(** [increase(counters, key, by)]. *)
Definition increase (counters : gmap string num) (key : string) (by_ : num)
    : gmap string num :=
  <[key := num_add (or_zero (counters !! key)) by_]> counters.

(** [increase(state, key, by)] on the probe state. *)
Definition increaseState (state : ProbeState) (key : string) (by_ : num)
    : ProbeState :=
  {| requests := requests state; counters := increase (counters state) key by_ |}.

(** [toArray(value)]. *)
Definition toArray (value : JsVal) : list JsVal :=
  match value with
  | JUndefined => []
  | JArr items => items
  | _ => [value]
  end.

(** ** The validators *)

(** The validators read [ctx.query], push on the array [failures], may
    throw, and one of them writes an array of [ctx.query]: they are
    computations over these two objects. *)
Record VState : Type := {
  vquery : Query;
  vfailures : list Failure
}.

Definition V (A : Type) : Type := VState -> JsError + (A * VState).

Definition vret {A : Type} (a : A) : V A := fun s => inr (a, s).

Definition vbind {A B : Type} (m : V A) (k : A -> V B) : V B :=
  fun s =>
    match m s with
    | inl e => inl e
    | inr (a, s') => k a s'
    end.

Definition vthrow {A : Type} (e : JsError) : V A := fun _ => inl e.

(** [ctx.query[key]]. *)
Definition vget (key : string) : V JsVal := fun s => inr (qget (vquery s) key, s).

(** [ctx.query[key] = v]. *)
Definition vset (key : string) (v : JsVal) : V unit :=
  fun s => inr (tt, {| vquery := <[key := v]> (vquery s); vfailures := vfailures s |}).

(** [failures.push(f)]. *)
Definition vpush (f : Failure) : V unit :=
  fun s => inr (tt, {| vquery := vquery s; vfailures := vfailures s ++ [f] |}).

Notation "'let*' x ':=' m 'in' k" := (vbind m (fun x => k))
  (at level 10, x name, m at level 100, k at level 200).
Notation "m ';;' k" := (vbind m (fun _ => k))
  (at level 100, k at level 200, right associativity).

(** [for (const x of items) { body(x) }]. *)
Fixpoint vfor {A : Type} (items : list A) (body_ : A -> V unit) : V unit :=
  match items with
  | [] => vret tt
  | x :: rest => body_ x ;; vfor rest body_
  end.

Definition typeError (msg : string) : JsError :=
  {| err_name := "TypeError"; err_message := msg |}.

(** The double quote. *)
Definition dquote : string := String "034"%char EmptyString.

(** The value of a counter property as a JavaScript value. *)
Definition prop_val (p : option num) : JsVal :=
  match p with
  | Some n => JNum n
  | None => JUndefined
  end.

(** The capture of [code.match(/^([1-5])xx$/i)], if it matches. *)
Definition rangeMatch (code : string) : option string :=
  match list_ascii_of_string code with
  | [d; x1; x2] =>
      let is_x := fun c : ascii => Ascii.eqb c "x" || Ascii.eqb c "X" in
      let n := Z.of_nat (nat_of_ascii d) in
      if (49 <=? n) && (n <=? 53) && is_x x1 && is_x x2
      then Some (String d EmptyString)
      else None
  | _ => None
  end.

(** The source of [new RegExp(pattern)]. *)
Definition regexp_source (pattern : JsVal) : string :=
  match pattern with
  | JUndefined => "(?:)"
  | _ => to_string pattern
  end.

Section Validators.
Context `{Platform}.

(** [url.parse(v)]: a [TypeError] unless [v] is a string. *)
Definition url_parse_val (v : JsVal) : JsError + Url :=
  match v with
  | JStr s => url_parse s
  | _ => inl (typeError (refusal_message (UrlNotAString v)))
  end.

(** [Number(v)]. *)
Definition Number (v : JsVal) : num := to_number string_to_number v.

Definition validateHttpRedirects (state : ProbeState) : V unit :=
  let* expectHttpRedirects := vget "expectHttpRedirects" in
  let* expectHttpRedirectTo := vget "expectHttpRedirectTo" in
  let expectedRedirects :=
    if negb (is_undefined expectHttpRedirects) then expectHttpRedirects
    else if truthy expectHttpRedirectTo then JStr "yes"
    else JUndefined in
  let expectedRedirectCount := Number expectedRedirects in
  let redirects := counters state !! "redirects" in
  if negb (isNaN expectedRedirectCount) && prop_strict_ne redirects expectedRedirectCount
  then
    vpush {| actual := Some (OVal (prop_val redirects));
             cause := "invalidHttpRedirectCount";
             description :=
               "Expected the HTTP request to be redirected exactly "
               +:+ num_to_string expectedRedirectCount +:+ " time"
               +:+ (if negb (num_strict_eq expectedRedirectCount (Fin 1)) then "s" else EmptyString);
             expected := Some (OVal (JNum expectedRedirectCount)) |}
  else
    let shouldRedirect := parseBooleanQueryParam expectedRedirects JNull in
    if is_true shouldRedirect && prop_falsy redirects
    then
      vpush {| actual := None;
               cause := "missingHttpRedirect";
               description := "Expected the server to send an HTTP redirection";
               expected := None |}
    else if is_false shouldRedirect && negb (prop_falsy redirects)
    then
      vpush {| actual := Some (OVal (prop_val redirects));
               cause := "unexpectedHttpRedirect";
               description := "Did not expect the server to send an HTTP redirection";
               expected := Some (OVal (JNum (Fin 0))) |}
    else vret tt.

Definition validateHttpRedirectTarget (state : ProbeState) : V unit :=
  let* expectHttpRedirectTo := vget "expectHttpRedirectTo" in
  if is_undefined expectHttpRedirectTo then vret tt
  else
    match url_parse_val expectHttpRedirectTo with
    | inl e => vthrow e
    | inr expectedRedirect =>
        match last (requests state) with
        | None => vthrow (typeError (refusal_message (PropertyOfUndefined "protocol")))
        | Some lastRequest =>
            if negb (bool_decide (protocol expectedRedirect = protocol (parsed lastRequest)))
               || negb (bool_decide (host expectedRedirect = host (parsed lastRequest)))
               || negb (bool_decide (pathname expectedRedirect = pathname (parsed lastRequest)))
            then
              vpush {| actual := Some (OUrlFormat (parsed lastRequest));
                       cause := "invalidHttpRedirectLocation";
                       description :=
                         "Expected the request to be redirected to "
                         +:+ to_string expectHttpRedirectTo;
                       expected := Some (OUrlFormat expectedRedirect) |}
            else vret tt
        end
    end.

Definition validateHttpResponseBody (res : IncomingMessage) : V unit :=
  let body_ := to_string (body res) in
  let* expectHttpResponseBodyMatch := vget "expectHttpResponseBodyMatch" in
  vfor (toArray expectHttpResponseBodyMatch) (fun expectedMatch =>
    match regexp_exec (regexp_source expectedMatch) body_ with
    | RegexSyntaxError e => vthrow e
    | NoMatch =>
        vpush {| actual := None;
                 cause := "httpResponseBodyMismatch";
                 description :=
                   "Expected the HTTP response body to match the following regular expression: "
                   +:+ to_string expectedMatch;
                 expected := Some (OVal expectedMatch) |}
    | Match _ => vret tt
    end) ;;
  let* expectHttpResponseBodyMismatch := vget "expectHttpResponseBodyMismatch" in
  vfor (toArray expectHttpResponseBodyMismatch) (fun expectedMismatch =>
    match regexp_exec (regexp_source expectedMismatch) body_ with
    | RegexSyntaxError e => vthrow e
    | NoMatch => vret tt
    | Match matched =>
        vpush {| actual := Some (OVal (JStr matched));
                 cause := "unexpectedHttpResponseBodyMatch";
                 description :=
                   "Did not expect the HTTP response body to match the following regular expression: "
                   +:+ to_string expectedMismatch;
                 expected := Some (OVal expectedMismatch) |}
    end).

Definition validateHttpSecurity (state : ProbeState) : V unit :=
  let* expectHttpSecure := vget "expectHttpSecure" in
  let expectSecure :=
    parseBooleanQueryParam (default JUndefined (last (toArray expectHttpSecure))) JNull in
  let tlsHandshake := counters state !! "tlsHandshake" in
  if is_true expectSecure && prop_undefined tlsHandshake
  then
    vpush {| actual := None;
             cause := "insecureHttp";
             description := "Expected the server to use SSL/TLS for the request (or final redirect)";
             expected := None |}
  else if is_false expectSecure && negb (prop_undefined tlsHandshake)
  then
    vpush {| actual := None;
             cause := "unexpectedlySecureHttp";
             description := "Did not expect the server to use SSL/TLS for the request (or final redirect)";
             expected := None |}
  else vret tt.

(** The loop of [validateHttpStatusCode]: [true] when it returns from the
    function, [false] when it runs to its end. *)
Fixpoint statusCodeLoop (actual_ : Z) (codes : list JsVal) : bool :=
  match codes with
  | [] => false
  | code :: rest =>
      match code with
      | JStr code_ =>
          let inRange :=
            match rangeMatch code_ with
            | Some digit =>
                let rangeStart := num_mul (parseInt10 digit) (Fin 100) in
                num_le rangeStart (Fin actual_)
                && num_le (Fin actual_) (num_add rangeStart (Fin 99))
            | None => false
            end in
          if inRange then true
          else
            let asNumber := string_to_number code_ in
            if negb (isNaN asNumber) && num_strict_eq asNumber (Fin actual_) then true
            else statusCodeLoop actual_ rest
      | _ => statusCodeLoop actual_ rest
      end
  end.

Definition validateHttpStatusCode (res : IncomingMessage) : V unit :=
  let actual_ := statusCode res in
  let* expectHttpStatusCode := vget "expectHttpStatusCode" in
  let expected0 :=
    match expectHttpStatusCode with
    | JArr items => items
    | _ => if truthy expectHttpStatusCode then [expectHttpStatusCode] else []
    end in
  let* expected_ :=
    match expected0 with
    | [] =>
        (* [expected.push('2xx', '3xx')]: when [expected] is the array of
           the query itself, the push is on that array *)
        match expectHttpStatusCode with
        | JArr _ => vset "expectHttpStatusCode" (JArr [JStr "2xx"; JStr "3xx"])
        | _ => vret tt
        end ;;
        vret [JStr "2xx"; JStr "3xx"]
    | _ => vret expected0
    end in
  if statusCodeLoop actual_ expected_ then vret tt
  else
    let* expectHttpStatusCode' := vget "expectHttpStatusCode" in
    vpush {| actual := Some (OVal (JNum (Fin (statusCode res))));
             cause := "invalidHttpStatusCode";
             description :=
               "Expected HTTP status code to match one of the following: "
               +:+ join_vals ", " expected_;
             expected := Some (OVal (JArr (toArray expectHttpStatusCode'))) |}.

Definition validateHttpVersion (res : IncomingMessage) : V unit :=
  let actual_ := httpVersion res in
  let* expected_ := vget "expectHttpVersion" in
  if truthy expected_ && negb (String.eqb actual_ (to_string expected_))
  then
    vpush {| actual := Some (OVal (JStr actual_));
             cause := "invalidHttpVersion";
             description :=
               "Expected HTTP version to be " +:+ dquote +:+ to_string expected_ +:+ dquote;
             expected := Some (OParseFloat expected_) |}
  else vret tt.

(** The six calls under [if (res)] in [getHttpMetrics]. *)
Definition validators (res : IncomingMessage) (state : ProbeState) : V unit :=
  validateHttpRedirects state ;;
  validateHttpRedirectTarget state ;;
  validateHttpResponseBody res ;;
  validateHttpSecurity state ;;
  validateHttpStatusCode res ;;
  validateHttpVersion res.

(** ** Metric assembly *)

Definition getHttpCertificateExpiry (req : ClientRequest) : OutVal :=
  match connection req with
  | NoConnection | PlainSocket => OVal JNull
  | TlsSocket certificate =>
      match certificate with
      | Some c => OUtcDate (valid_to c)
      | None => OVal JNull
      end
  end.

(** The value of the [httpContentLength] metric. *)
Definition contentLength (res : option IncomingMessage) : OutVal :=
  match res with
  | Some r =>
      if truthy (header r "content-length")
      then OVal (JNum (parseInt10 (to_string (header r "content-length"))))
      else OVal JNull
  | None => OVal JNull
  end.

(** [pick(state, 'contentTransfer', 'dnsLookup', 'firstByte',
    'tcpConnection', 'tlsHandshake')]: the properties present, in this
    order. *)
Definition pickPhases (state : ProbeState) : list (string * num) :=
  omap (fun phase => (fun value_ => (phase, value_)) <$> counters state !! phase)
       ["contentTransfer"; "dnsLookup"; "firstByte"; "tcpConnection"; "tlsHandshake"].

Definition durationMetric (entry : string * num) : Metric :=
  buildMetric "httpDuration" "seconds" (OQuot (snd entry) 1000)
    "Duration of the HTTP request(s) by phase, summed over all redirects, in seconds"
    [("phase", fst entry)].

(** The metrics [getHttpMetrics] pushes, in order. *)
Definition httpMetrics (req : ClientRequest) (res : option IncomingMessage)
    (state : ProbeState) : list Metric :=
  [ buildMetric "httpCertificateExpiry" "datetime" (getHttpCertificateExpiry req)
      "Expiration date of the SSL certificate" [];
    buildMetric "httpContentLength" "bytes" (contentLength res)
      "Length of the HTTP response entity in bytes" [] ]
  ++ List.map durationMetric (pickPhases state)
  ++ [ buildMetric "httpRedirects" "quantity"
         (OVal (JNum (or_zero (counters state !! "redirects"))))
         "Number of times HTTP 301 or 302 redirects were followed" [];
       buildMetric "httpSecure" "boolean"
         (OVal (JBool (negb (prop_undefined (counters state !! "tlsHandshake")))))
         "Indicates whether SSL/TLS was used for the final request" [];
       buildMetric "httpStatusCode" "number"
         (match res with
          | Some r => OVal (JNum (Fin (statusCode r)))
          | None => OVal JNull
          end)
         "HTTP status code of the final response" [];
       buildMetric "httpVersion" "number"
         (match res with
          | Some r => OParseFloat (JStr (httpVersion r))
          | None => OVal JNull
          end)
         "HTTP version of the response" [] ].

(** [getHttpMetrics(ctx, req, res, state)]: the exception it throws or the
    object it returns. *)
Definition getHttpMetrics (query : Query) (req : ClientRequest)
    (res : option IncomingMessage) (state : ProbeState) : JsError + ProbeResult :=
  let validated :=
    match res with
    | Some r => validators r state {| vquery := query; vfailures := [] |}
    | None => inr (tt, {| vquery := query; vfailures := [] |})
    end in
  match validated with
  | inl e => inl e
  | inr (_, s) =>
      let failures_ := vfailures s in
      let success_ :=
        match res with Some _ => true | None => false end
        && match failures_ with [] => true | _ :: _ => false end in
      inr {| failures := failures_;
             metrics := httpMetrics req res state;
             success := success_ |}
  end.

End Validators.

(** ** One leg: the handlers of [probeHttp] *)

(** The events the probe listens to. [EvResponse] is the call of the
    callback given to [request]; it registers the three handlers of the
    response. *)
Inductive Event : Type :=
| EvLookup
| EvConnect
| EvSecureConnect
| EvResponse (res : IncomingMessage)
| EvReadable
| EvData (chunk : string)
| EvEnd
| EvError.

(** What the platform does with one request: the reading of the clock when
    [times] is created, the events in the order of their delivery, each
    with the reading of the clock at its delivery, and the request object
    [req] as [getHttpMetrics] finds it. *)
Record Leg : Type := {
  startTime : Z;
  events : list (Z * Event);
  request : ClientRequest
}.

(** The object [times]. *)
Record Times : Type := {
  start : Z;
  dnsLookupAt : option Z;
  tcpConnectionAt : option Z;
  tlsHandshakeAt : option Z;
  firstByteAt : option Z
}.

(** The variables of one call of [probeHttp]: [times], the response whose
    handlers are registered, and [body]. *)
Record LegState : Type := {
  legTimes : Times;
  legRes : option IncomingMessage;
  legBody : string
}.

Definition initialLeg (leg : Leg) : LegState :=
  {| legTimes := {| start := startTime leg; dnsLookupAt := None;
                    tcpConnectionAt := None; tlsHandshakeAt := None;
                    firstByteAt := None |};
     legRes := None;
     legBody := EmptyString |}.

Definition withTimes (l : LegState) (t : Times) : LegState :=
  {| legTimes := t; legRes := legRes l; legBody := legBody l |}.

(** The end of a leg: the ['end'] handler ran on a response, the ['error']
    handler ran, or neither. *)
Inductive LegEnd : Type :=
| Ended (res : IncomingMessage)
| Errored
| Unfinished.

(** [socket.on('lookup', ..)]. *)
Definition onLookup (now : Z) (l : LegState) (state : ProbeState) : LegState * ProbeState :=
  let t := legTimes l in
  let t' := {| start := start t; dnsLookupAt := Some now;
               tcpConnectionAt := tcpConnectionAt t;
               tlsHandshakeAt := tlsHandshakeAt t; firstByteAt := firstByteAt t |} in
  (withTimes l t',
   increaseState state "dnsLookup" (num_sub (time_num (dnsLookupAt t')) (Fin (start t')))).

(** [socket.on('connect', ..)]. *)
Definition onConnect (now : Z) (l : LegState) (state : ProbeState) : LegState * ProbeState :=
  let t := legTimes l in
  let t' := {| start := start t; dnsLookupAt := dnsLookupAt t;
               tcpConnectionAt := Some now;
               tlsHandshakeAt := tlsHandshakeAt t; firstByteAt := firstByteAt t |} in
  (withTimes l t',
   increaseState state "tcpConnection"
     (num_sub (time_num (tcpConnectionAt t'))
              (time_num (time_or (dnsLookupAt t') (Some (start t')))))).

(** [socket.on('secureConnect', ..)]. *)
Definition onSecureConnect (now : Z) (l : LegState) (state : ProbeState) : LegState * ProbeState :=
  let t := legTimes l in
  let t' := {| start := start t; dnsLookupAt := dnsLookupAt t;
               tcpConnectionAt := tcpConnectionAt t;
               tlsHandshakeAt := Some now; firstByteAt := firstByteAt t |} in
  (withTimes l t',
   increaseState state "tlsHandshake"
     (num_sub (time_num (tlsHandshakeAt t')) (time_num (tcpConnectionAt t')))).

(** [res.on('readable', ..)]. *)
Definition onReadable (now : Z) (l : LegState) (state : ProbeState) : LegState * ProbeState :=
  if prop_undefined (counters state !! "firstByte")
  then
    let t := legTimes l in
    let t' := {| start := start t; dnsLookupAt := dnsLookupAt t;
                 tcpConnectionAt := tcpConnectionAt t;
                 tlsHandshakeAt := tlsHandshakeAt t; firstByteAt := Some now |} in
    (withTimes l t',
     increaseState state "firstByte"
       (num_sub (time_num (firstByteAt t'))
                (time_num (time_or (tlsHandshakeAt t') (tcpConnectionAt t')))))
  else (l, state).

(** [res.on('data', ..)]. *)
Definition onData (chunk : string) (l : LegState) : LegState :=
  {| legTimes := legTimes l; legRes := legRes l; legBody := legBody l +:+ chunk |}.

(** The first statement of [res.on('end', ..)]. *)
Definition onEnd (now : Z) (l : LegState) (state : ProbeState) : ProbeState :=
  match firstByteAt (legTimes l) with
  | Some firstByteAt_ =>
      increaseState state "contentTransfer" (num_sub (Fin now) (Fin firstByteAt_))
  | None => state
  end.

(** The events of a leg, one after the other, up to the first that settles
    the promise.  The handlers of the response exist only once the
    callback of [request] has run. *)
Fixpoint runEvents (evs : list (Z * Event)) (l : LegState) (state : ProbeState)
    : LegEnd * LegState * ProbeState :=
  match evs with
  | [] => (Unfinished, l, state)
  | (now, ev) :: rest =>
      match ev with
      | EvLookup => let '(l', state') := onLookup now l state in runEvents rest l' state'
      | EvConnect => let '(l', state') := onConnect now l state in runEvents rest l' state'
      | EvSecureConnect =>
          let '(l', state') := onSecureConnect now l state in runEvents rest l' state'
      | EvResponse res =>
          runEvents rest {| legTimes := legTimes l; legRes := Some res; legBody := EmptyString |} state
      | EvReadable =>
          match legRes l with
          | Some _ => let '(l', state') := onReadable now l state in runEvents rest l' state'
          | None => runEvents rest l state
          end
      | EvData chunk =>
          match legRes l with
          | Some _ => runEvents rest (onData chunk l) state
          | None => runEvents rest l state
          end
      | EvEnd =>
          match legRes l with
          | Some res => (Ended res, l, onEnd now l state)
          | None => runEvents rest l state
          end
      | EvError => (Errored, l, state)
      end
  end.

(** ** The probe *)

Section Probe.
Context `{Platform}.

(** The constant [followRedirects] of [probeHttp]. *)
Definition followRedirects (query : Query) : JsVal :=
  parseBooleanQueryParam (qget query "followRedirects") (JBool true).

(** [reqOptions], or the exception its initializer throws. *)
Definition requestOptions (target : JsVal) (query : Query) : JsError + RequestOptions :=
  let method_ :=
    if truthy (qget query "method") then qget query "method" else JStr "GET" in
  match url_parse_val target with
  | inl e => inl e
  | inr parsed_ =>
      match parseHttpParamsQueryParam (qget query "header") with
      | inl e => inl e
      | inr headers_ =>
          inr {| method := method_;
                 parsed := parsed_;
                 agent := false;
                 reqHeaders := headers_;
                 rejectUnauthorized :=
                   negb (truthy (parseBooleanQueryParam (qget query "allowUnauthorized")
                                                        JUndefined)) |}
      end
  end.

(** [state.requests = state.requests || []; state.requests.push(reqOptions)]. *)
Definition pushRequest (state : ProbeState) (reqOptions : RequestOptions) : ProbeState :=
  {| requests := requests state ++ [reqOptions]; counters := counters state |}.

(** An exception of [getHttpMetrics] is thrown inside an event handler. *)
Definition settle (r : JsError + ProbeResult) : Outcome :=
  match r with
  | inl e => Thrown e
  | inr result => Resolved result
  end.

(** [Object.assign(res, { body })]. *)
Definition withBody (res : IncomingMessage) (body_ : string) : IncomingMessage :=
  {| statusCode := statusCode res; headers := headers res;
     httpVersion := httpVersion res; body := JStr body_ |}.

(** [probeHttp(target, ctx, state)] on a script of legs: what becomes of
    the promise, and the state object afterwards.  A script shorter than
    the chain leaves the promise pending. *)
Fixpoint probeHttp (legs : list Leg) (target : JsVal) (query : Query)
    (state : ProbeState) : Outcome * ProbeState :=
  match requestOptions target query with
  | inl e => (Rejected e, state)
  | inr reqOptions =>
      let state := pushRequest state reqOptions in
      match legs with
      | [] => (Pending, state)
      | leg :: rest =>
          match runEvents (events leg) (initialLeg leg) state with
          | (Ended res, l, state) =>
              if truthy (followRedirects query)
                 && (301 <=? statusCode res) && (statusCode res <=? 302)
              then
                probeHttp rest (header res "location") query
                          (increaseState state "redirects" (Fin 1))
              else
                (settle (getHttpMetrics query (request leg)
                           (Some (withBody res (legBody l))) state),
                 state)
          | (Errored, _, state) =>
              (settle (getHttpMetrics query (request leg) None state), state)
          | (Unfinished, _, state) => (Pending, state)
          end
      end
  end.

End Probe.

(** ** A platform to run the probe on *)

(** The general statements below hold on every platform.  To evaluate the
    probe on concrete scripts, this module gives one platform:
    - the boolean and header parsers are [parseBooleanParam] and
      [parseHttpParams] of utils.ts, the parsers that module has for the
      two names http.js imports;
    - [url.parse] for texts of the form [scheme://host/path?query#hash]
      (no credentials) and for paths;
    - ToNumber for decimal integer literals (a fraction, an exponent, a
      radix prefix or [Infinity] is not a number here);
    - regular expressions that are a literal text, with an optional
      leading [^] and trailing [$] (any other source is refused as a
      syntax error);
    - the messages of the [TypeError]s of Node.js 16 and later.
    The examples below call the header parser on [undefined] only,
    [url.parse] on texts of the form above, ToNumber on decimal integers
    and on texts with a letter, and regular expressions on words. *)
Module TestPlatform.

Definition lower (c : ascii) : ascii :=
  let n := nat_of_ascii c in
  if (65 <=? n)%nat && (n <=? 90)%nat then ascii_of_nat (n + 32) else c.

Definition chars (s : string) : list ascii := list_ascii_of_string s.
Definition text (l : list ascii) : string := string_of_list_ascii l.

Fixpoint starts (p l : list ascii) : bool :=
  match p, l with
  | [], _ => true
  | a :: p', b :: l' => Ascii.eqb a b && starts p' l'
  | _ :: _, [] => false
  end.

Fixpoint contains (p l : list ascii) : bool :=
  starts p l ||
  match l with
  | [] => false
  | _ :: l' => contains p l'
  end.

Definition ends (p l : list ascii) : bool := starts (rev p) (rev l).

(** [!!s.match(/^1|y|yes|t|true$/i)]: the alternatives are [^1], [y],
    [yes], [t] and [true$]. *)
Definition matchesTrue (s : string) : bool :=
  let l := List.map lower (chars s) in
  starts (chars "1") l || contains (chars "y") l || contains (chars "yes") l
  || contains (chars "t") l || ends (chars "true") l.

(** [parseBooleanParam(value, defaultValue)] of utils.ts. *)
Definition parseBooleanParam (value defaultValue : JsVal) : JsVal :=
  match value with
  | JUndefined => defaultValue
  | JBool b => JBool b
  | _ => JBool (matchesTrue (to_string value))
  end.

(** [l] up to the first character satisfying [stop], and the rest. *)
Fixpoint break (stop : ascii -> bool) (l : list ascii) : list ascii * list ascii :=
  match l with
  | [] => ([], [])
  | c :: r =>
      if stop c then ([], l)
      else let '(a, b) := break stop r in (c :: a, b)
  end.

Definition is_char (x : ascii) (c : ascii) : bool := Ascii.eqb x c.

(** [value.split('=', 2)] as the pair [paramName], [paramValue]. *)
Definition splitParam (s : string) : string * JsVal :=
  let '(n, r) := break (is_char "=") (chars s) in
  match r with
  | [] => (text n, JUndefined)
  | _ :: r' => (text n, JStr (text (fst (break (is_char "=") r'))))
  end.

(** lodash [merge] on two arrays of strings: index by index, a defined
    source item replaces the item of the destination. *)
Fixpoint mergeItems (object source : list JsVal) : list JsVal :=
  match object, source with
  | o :: object', s :: source' =>
      (if is_undefined s then o else s) :: mergeItems object' source'
  | [], _ => source
  | _, [] => object
  end.

Definition mergeParams (object source : HttpParams) : HttpParams :=
  union_with (fun o s => Some (mergeItems o s)) object source.

(** [parseHttpParams(value)] of utils.ts. *)
Fixpoint parseHttpParams (value : JsVal) : JsError + HttpParams :=
  match value with
  | JUndefined => inr ∅
  | JStr s => let '(paramName, paramValue) := splitParam s in inr {[ paramName := [paramValue] ]}
  | JArr items =>
      List.fold_left
        (fun memo singleValue =>
           match memo with
           | inl e => inl e
           | inr m =>
               match parseHttpParams singleValue with
               | inl e => inl e
               | inr p => inr (mergeParams m p)
               end
           end)
        items (inr ∅)
  | _ => inl {| err_name := "Error";
                err_message := "HTTP parameter must be a string or an array of strings" |}
  end.

Definition is_scheme_char (c : ascii) : bool :=
  let n := nat_of_ascii (lower c) in
  ((97 <=? n)%nat && (n <=? 122)%nat) || ((48 <=? n)%nat && (n <=? 57)%nat)
  || (n =? 46)%nat || (n =? 43)%nat || (n =? 45)%nat.

Definition is_host_end (c : ascii) : bool :=
  is_char "/" c || is_char "?" c || is_char "#" c.

Definition is_path_end (c : ascii) : bool := is_char "?" c || is_char "#" c.

Definition parseUrl (s : string) : JsError + Url :=
  let l := chars s in
  let '(scheme, afterScheme) := break (fun c => negb (is_scheme_char c)) l in
  let '(protocol_, rest) :=
    match scheme, afterScheme with
    | _ :: _, ":"%char :: r => (Some (text (List.map lower scheme) +:+ ":"), r)
    | _, _ => (None, l)
    end in
  let '(host_, rest') :=
    match protocol_, rest with
    | Some _, "/"%char :: "/"%char :: r =>
        let '(h, r') := break is_host_end r in (Some (text (List.map lower h)), r')
    | _, _ => (None, rest)
    end in
  let path := fst (break is_path_end rest') in
  let pathname_ :=
    match path, host_ with
    | [], Some _ => Some "/"
    | [], None => None
    | _ :: _, _ => Some (text path)
    end in
  inr {| protocol := protocol_; host := host_; pathname := pathname_; href := s |}.

Fixpoint all_digits (l : list ascii) : bool :=
  match l with
  | [] => true
  | c :: r => match digit_val c with Some _ => all_digits r | None => false end
  end.

Definition trim (l : list ascii) : list ascii :=
  rev (skip_space (rev (skip_space l))).

Definition stringToNumber (s : string) : num :=
  match trim (chars s) with
  | [] => Fin 0
  | c :: r =>
      let '(neg, ds) :=
        if is_char "-" c then (true, r)
        else if is_char "+" c then (false, r)
        else (false, c :: r) in
      match ds with
      | [] => NaN
      | _ :: _ =>
          if all_digits ds
          then match digits_prefix None ds with
               | Some z => Fin (if neg then - z else z)
               | None => NaN
               end
          else NaN
      end
  end.

Definition is_literal_char (c : ascii) : bool :=
  let n := nat_of_ascii (lower c) in
  ((97 <=? n)%nat && (n <=? 122)%nat) || ((48 <=? n)%nat && (n <=? 57)%nat)
  || (n =? 32)%nat.

Definition regexpExec (source subject : string) : RegexResult :=
  if String.eqb source "(?:)" then Match EmptyString
  else
    let src := chars source in
    let '(anchoredStart, src1) :=
      match src with
      | "^"%char :: r => (true, r)
      | _ => (false, src)
      end in
    let '(anchoredEnd, lit) :=
      match rev src1 with
      | "$"%char :: r => (true, rev r)
      | _ => (false, src1)
      end in
    if forallb is_literal_char lit
    then
      let subj := chars subject in
      let found :=
        match anchoredStart, anchoredEnd with
        | true, true => bool_decide (lit = subj)
        | true, false => starts lit subj
        | false, true => ends lit subj
        | false, false => contains lit subj
        end in
      if found then Match (text lit) else NoMatch
    else RegexSyntaxError {| err_name := "SyntaxError";
                             err_message := "Invalid regular expression" |}.

(** The messages of Node.js 16 and later. *)
Definition received (v : JsVal) : string :=
  match v with
  | JUndefined => "undefined"
  | JNull => "null"
  | JBool _ => "type boolean (" +:+ to_string v +:+ ")"
  | JNum _ => "type number (" +:+ to_string v +:+ ")"
  | JStr s => "type string ('" +:+ s +:+ "')"
  | JArr _ => "an instance of Array"
  end.

Definition refusalMessage (r : Refusal) : string :=
  match r with
  | UrlNotAString v =>
      "The " +:+ dquote +:+ "url" +:+ dquote
      +:+ " argument must be of type string. Received " +:+ received v
  | PropertyOfUndefined name =>
      "Cannot read properties of undefined (reading '" +:+ name +:+ "')"
  end.

#[export] Instance platform : Platform := {|
  parseBooleanQueryParam := parseBooleanParam;
  parseHttpParamsQueryParam := parseHttpParams;
  url_parse := parseUrl;
  string_to_number := stringToNumber;
  regexp_exec := regexpExec;
  refusal_message := refusalMessage
|}.

End TestPlatform.

(** ** Reading scripts and results *)

(** The values of the metrics of a list that have the given name. *)
Definition metricValues (n : string) (ms : list Metric) : list OutVal :=
  List.map metricValue (List.filter (fun m => String.eqb (metricName m) n) ms).

(** The values of the [httpDuration] metrics tagged with the given phase. *)
Definition phaseValues (phase : string) (ms : list Metric) : list OutVal :=
  List.map metricValue
    (List.filter (fun m => String.eqb (metricName m) "httpDuration"
                           && bool_decide (metricTags m = [("phase", phase)])) ms).

(** The failures a run of a validator leaves, if it does not throw. *)
Definition failuresOf (r : JsError + (unit * VState)) : option (list Failure) :=
  match r with
  | inl _ => None
  | inr (_, s) => Some (vfailures s)
  end.

(** The redirect counter of a state, an absent one counting for none. *)
Definition redirectCount (state : ProbeState) : Z :=
  match counters state !! "redirects" with
  | Some (Fin z) => z
  | Some NaN | None => 0
  end.

(** The status code of the response on which a leg ends, if it ends on
    one: the response whose callback ran last before the first ['end']
    event delivered on a response, no ['error'] event coming first. *)
Fixpoint legStatus (current : option Z) (evs : list (Z * Event)) : option Z :=
  match evs with
  | [] => None
  | (_, EvResponse res) :: rest => legStatus (Some (statusCode res)) rest
  | (_, EvEnd) :: rest =>
      match current with
      | Some s => Some s
      | None => legStatus current rest
      end
  | (_, EvError) :: _ => None
  | _ :: rest => legStatus current rest
  end.

(** The number of 301 and 302 responses followed along a script: the legs
    that end on such a response, up to the first leg that does not, when
    redirects are followed at all. *)
Fixpoint followedRedirects (follow : bool) (legs : list Leg) : Z :=
  match legs with
  | [] => 0
  | leg :: rest =>
      match legStatus None (events leg) with
      | Some s =>
          if follow && bool_decide (s = 301 \/ s = 302)
          then 1 + followedRedirects follow rest
          else 0
      | None => 0
      end
  end.

(** The time of the first ['readable'] event of a leg delivered on a
    response, and of the ['end'] event that ends the leg. *)
Fixpoint firstReadableTime (registered : bool) (evs : list (Z * Event)) : option Z :=
  match evs with
  | [] => None
  | (_, EvResponse _) :: rest => firstReadableTime true rest
  | (now, EvReadable) :: rest =>
      if registered then Some now else firstReadableTime registered rest
  | (_, EvEnd) :: rest => if registered then None else firstReadableTime registered rest
  | (_, EvError) :: _ => None
  | _ :: rest => firstReadableTime registered rest
  end.

Fixpoint endTime (registered : bool) (evs : list (Z * Event)) : option Z :=
  match evs with
  | [] => None
  | (_, EvResponse _) :: rest => endTime true rest
  | (now, EvEnd) :: rest => if registered then Some now else endTime registered rest
  | (_, EvError) :: _ => None
  | _ :: rest => endTime registered rest
  end.

(** The content transfer of one leg, from its first byte to its end, in
    milliseconds, and the sum over the legs of a script. *)
Definition legContentTransfer (leg : Leg) : Z :=
  match firstReadableTime false (events leg), endTime false (events leg) with
  | Some first, Some last_ => last_ - first
  | _, _ => 0
  end.

Definition chainContentTransfer (legs : list Leg) : Z :=
  List.fold_right Z.add 0 (List.map legContentTransfer legs).

(** The socket events of a leg in their order: the lookup if there is one,
    the connection, the TLS handshake if there is one. *)
Definition socketEvents (lookupAt : option Z) (connectAt : Z) (secureAt : option Z)
    : list (Z * Event) :=
  match lookupAt with Some t => [(t, EvLookup)] | None => [] end
  ++ [(connectAt, EvConnect)]
  ++ match secureAt with Some t => [(t, EvSecureConnect)] | None => [] end.

(** The latest of a set of instants that contains [t0]. *)
Definition latest (t0 : Z) (others : list Z) : Z := List.fold_right Z.max t0 others.

(** The status classes: the text of the class of the hundreds digit [n],
    in either case of its two letters. *)
Definition isClass (n : Z) (code : string) : Prop :=
  exists x1 x2 : ascii,
    (x1 = "x"%char \/ x1 = "X"%char) /\ (x2 = "x"%char \/ x2 = "X"%char)
    /\ code = String (ascii_of_nat (Z.to_nat (48 + n))) (String x1 (String x2 EmptyString)).

(** The expected set of the status-code validator: the array given, a
    single value given, or the two default classes when nothing (or an
    empty array, or a falsy value) is given. *)
Definition expectedStatusCodes (v : JsVal) : list JsVal :=
  match v with
  | JArr ((_ :: _) as items) => items
  | JArr [] => [JStr "2xx"; JStr "3xx"]
  | _ => if truthy v then [v] else [JStr "2xx"; JStr "3xx"]
  end.

(** ** Vocabulary of the statements *)

(** The keys of the five phase counters. *)
Definition isPhase (key : string) : Prop :=
  key = "dnsLookup" \/ key = "tcpConnection" \/ key = "tlsHandshake"
  \/ key = "firstByte" \/ key = "contentTransfer".

(** Two states with the same requests and the same counter under [key]. *)
Definition sameAt (key : string) (a b : ProbeState) : Prop :=
  counters a !! key = counters b !! key /\ requests a = requests b.

(** Two queries that differ at most under [key]. *)
Definition agreeOff (key : string) (q q' : Query) : Prop :=
  forall k, k <> key -> qget q k = qget q' k.

(** A validator that reads the query outside [key] only and never writes
    it: on two queries that differ at most under [key], from the same
    failures, it throws the same exception or pushes the same failures,
    leaving each query as it was. *)
Definition readOnlyOff (key : string) (m : V unit) : Prop :=
  forall (q q' : Query) (fs : list Failure),
    agreeOff key q q' ->
    (exists e, m {| vquery := q; vfailures := fs |} = inl e
               /\ m {| vquery := q'; vfailures := fs |} = inl e)
    \/ (exists fs', m {| vquery := q; vfailures := fs |}
                    = inr (tt, {| vquery := q; vfailures := fs' |})
                    /\ m {| vquery := q'; vfailures := fs |}
                       = inr (tt, {| vquery := q'; vfailures := fs' |})).

(** A text of the expected set matches a status code: as the class of one
    of the hundreds 1 to 5, or as a literal code. *)
Definition codeMatches `{Platform} (actual_ : Z) (code : string) : Prop :=
  (exists n, 1 <= n <= 5 /\ isClass n code /\ 100 * n <= actual_ <= 100 * n + 99)
  \/ string_to_number code = Fin actual_.

(** The integers on which the numbers of JavaScript are exact, and the
    counters that hold such integers only. *)
Definition exact (z : Z) : Prop := Z.abs z < 2 ^ 53.

Definition exactNum (n : num) : Prop :=
  match n with
  | NaN => True
  | Fin z => exact z
  end.

Definition exactCounters (c : gmap string num) : Prop :=
  forall key n, c !! key = Some n -> exactNum n.

(** A decimal digit, and the integer that a text of digits writes. *)
Definition isDigit (c : ascii) : Prop := exists d, digit_val c = Some d.

Definition decimal (s : string) : Z :=
  List.fold_left (fun acc c => 10 * acc + default 0 (digit_val c))
                 (list_ascii_of_string s) 0.

(** What the HTTP parser of Node.js delivers: a response whose
    [Content-Length] header, if there is one, is a text of decimal digits.
    An answer with another such header is refused, and the request emits
    ['error'] instead of a response. *)
Definition receivable (res : IncomingMessage) : Prop :=
  forall s, headers res !! "content-length" = Some s ->
            Forall isDigit (list_ascii_of_string s).

Definition receivableLeg (leg : Leg) : Prop :=
  forall now res, (now, EvResponse res) ∈ events leg -> receivable res.

(** A text of decimal digits. *)
Definition digitsOnly (s : string) : bool :=
  forallb (fun c => match digit_val c with Some _ => true | None => false end)
          (list_ascii_of_string s).

(** What becomes of an answer of the server in the HTTP parser of Node.js:
    the callback of [request] is called with it, unless its
    [Content-Length] header is not a text of digits; then the parser
    refuses it and the request emits ['error']. *)
Definition delivered (answer : IncomingMessage) : Event :=
  match headers answer !! "content-length" with
  | Some s => if digitsOnly s then EvResponse answer else EvError
  | None => EvResponse answer
  end.

(** ** Scripts for the examples *)

Definition plainRequest : ClientRequest := {| connection := PlainSocket |}.

Definition movedTo (location : string) : IncomingMessage :=
  {| statusCode := 301; headers := {[ "location" := location ]};
     httpVersion := "1.1"; body := JUndefined |}.

Definition okWith (hs : gmap string string) : IncomingMessage :=
  {| statusCode := 200; headers := hs; httpVersion := "1.1"; body := JUndefined |}.

(** A leg answered by a 301: first byte at 1011, end at 1016. *)
Definition redirectLeg : Leg :=
  {| startTime := 1000;
     events := [(1002, EvLookup); (1005, EvConnect);
                (1010, EvResponse (movedTo "http://b.test/next"));
                (1011, EvReadable); (1016, EvEnd)];
     request := plainRequest |}.

(** A leg answered by a 200 with the given headers: first byte at 1031,
    end at 1038. *)
Definition okLegWith (hs : gmap string string) : Leg :=
  {| startTime := 1020;
     events := [(1021, EvLookup); (1023, EvConnect);
                (1030, EvResponse (okWith hs));
                (1031, EvReadable); (1031, EvData "hello");
                (1038, EvReadable); (1038, EvEnd)];
     request := plainRequest |}.

Definition okLeg : Leg := okLegWith ∅.

(** A leg whose connection is refused. *)
Definition refusedLeg : Leg :=
  {| startTime := 1000;
     events := [(1002, EvLookup); (1004, EvError)];
     request := {| connection := NoConnection |} |}.

(** A leg over TLS answered by a 200. *)
Definition secureLeg : Leg :=
  {| startTime := 2000;
     events := socketEvents (Some 2003) 2007 (Some 2019)
               ++ [(2030, EvResponse (okWith ∅)); (2034, EvReadable);
                   (2034, EvData "hello"); (2040, EvReadable); (2040, EvEnd)];
     request := {| connection := TlsSocket (Some {| valid_to := JStr "Jan  1 00:00:00 2030 GMT" |}) |} |}.

(** A leg answered at once with the given status code. *)
Definition statusLeg (status : Z) : Leg :=
  {| startTime := 1020;
     events := [(1021, EvLookup); (1023, EvConnect);
                (1030, EvResponse {| statusCode := status; headers := ∅;
                                     httpVersion := "1.1"; body := JUndefined |});
                (1031, EvReadable); (1038, EvEnd)];
     request := plainRequest |}.

(** A leg whose answer has the header [Content-Length: abc]. *)
Definition garbledLeg : Leg :=
  {| startTime := 1020;
     events := [(1021, EvLookup); (1023, EvConnect);
                (1030, delivered (okWith {[ "content-length" := "abc" ]}));
                (1031, EvReadable); (1038, EvEnd)];
     request := plainRequest |}.

(** A 404 response, as the validators get it. *)
Definition notFound : IncomingMessage :=
  withBody {| statusCode := 404; headers := ∅; httpVersion := "1.1"; body := JUndefined |}
           "gone".

(** The validators on a 404 response, at the end of a chain without
    redirect, from no failures. *)
Definition validate404 (query : Query) : JsError + (unit * VState) :=
  @validators TestPlatform.platform notFound emptyState
              {| vquery := query; vfailures := [] |}.

(** ** More of utils.ts *)

(** [typeof value]. *)
Definition typeof (value : JsVal) : string :=
  match value with
  | JUndefined => "undefined"
  | JNull => "object"
  | JBool _ => "boolean"
  | JNum _ => "number"
  | JStr _ => "string"
  | JArr _ => "object"
  end.

(** An [Error] with the given message. *)
Definition jsError (msg : string) : JsError :=
  {| err_name := "Error"; err_message := msg |}.

(** The text with its letters A to Z in lower case. *)
Definition lowercase (s : string) : string :=
  TestPlatform.text (List.map TestPlatform.lower (TestPlatform.chars s)).

(** [!!s.match(/^(w1|..|wn)$/i)] for words written in lower case. *)
Definition matchesWord (words : list string) (s : string) : bool :=
  existsb (String.eqb (lowercase s)) words.

(** [isFalseString(value)]. *)
Definition isFalseString (value : JsVal) : bool :=
  match value with
  | JStr s => matchesWord ["0"; "n"; "no"; "f"; "false"] s
  | _ => false
  end.

(** [isTrueString(value)]. *)
Definition isTrueString (value : JsVal) : bool :=
  match value with
  | JStr s => matchesWord ["1"; "y"; "yes"; "t"; "true"] s
  | _ => false
  end.

(** lodash [isInteger] on a number. *)
Definition isInteger (n : num) : bool :=
  match n with
  | Fin _ => true
  | NaN => false
  end.

(** [parseIntegerParam(value, defaultValue)]. *)
Definition parseIntegerParam (value defaultValue : JsVal) : JsError + JsVal :=
  match value with
  | JUndefined => inr defaultValue
  | _ =>
      let parsed :=
        match value with
        | JNum n => n
        | _ => parseInt10 (to_string value)
        end in
      if negb (isInteger parsed)
      then inl (jsError (to_string value +:+ " is not a valid integer"))
      else inr (JNum parsed)
  end.

(** [validateArrayOption(options, name, description, validator)]. *)
Definition validateArrayOption (options : gmap string JsVal) (name_ description_ : string)
    (validator : JsVal -> bool) : JsError + JsVal :=
  let value := qget options name_ in
  match value with
  | JUndefined => inr value
  | JArr items =>
      if existsb (fun v => negb (validator v)) items
      then inl (jsError (dquote +:+ name_ +:+ dquote +:+ " option must be an array of "
                         +:+ description_ +:+ " but it contains other types: "
                         +:+ join "," (List.map typeof items)))
      else inr value
  | _ =>
      inl (jsError (dquote +:+ name_ +:+ dquote +:+ " option must be an array of "
                    +:+ description_ +:+ "; got " +:+ typeof value))
  end.

(** [validateBooleanOption(options, name)]. *)
Definition validateBooleanOption (options : gmap string JsVal) (name_ : string)
    : JsError + JsVal :=
  let value := qget options name_ in
  match value with
  | JUndefined => inr JUndefined
  | JBool _ => inr value
  | _ =>
      if isFalseString value then inr (JBool false)
      else if isTrueString value then inr (JBool true)
      else inl (jsError (dquote +:+ name_ +:+ dquote
                         +:+ " option must be a boolean or a boolean-like string (1/0, y/n, yes/no, t/f or true/false); got "
                         +:+ typeof value))
  end.

(** [validateStringArrayOption(options, name)]. *)
Definition validateStringArrayOption (options : gmap string JsVal) (name_ : string)
    : JsError + JsVal :=
  validateArrayOption options name_ "strings"
    (fun v => String.eqb (typeof v) "string").

(** [validateStringOption(options, name)]. *)
Definition validateStringOption (options : gmap string JsVal) (name_ : string)
    : JsError + JsVal :=
  let value := qget options name_ in
  if negb (is_undefined value) && negb (String.eqb (typeof value) "string")
  then inl (jsError (dquote +:+ name_ +:+ dquote +:+ " option must be a string; got "
                     +:+ typeof value))
  else inr value.

(** A value given to [Promise.all]: a plain value or a promise that
    fulfils with it, or a promise that rejects. *)
Inductive Settled : Type :=
| Fulfilled (v : JsVal)
| Failed (e : JsError).

(** [await Promise.all(values)]: the values in the order given when all
    fulfil; [None] when one rejects (the await throws). *)
Fixpoint promiseAll (values : list Settled) : option (list JsVal) :=
  match values with
  | [] => Some []
  | Fulfilled v :: rest =>
      match promiseAll rest with
      | Some vs => Some (v :: vs)
      | None => None
      end
  | Failed _ :: _ => None
  end.

(** [compactResolved(...values)]. *)
Definition compactResolved (values : list Settled) : option (list JsVal) :=
  match promiseAll values with
  | Some vs => Some (List.filter (fun value => negb (is_undefined value)) vs)
  | None => None
  end.

(** [firstResolved(...values)]. *)
Definition firstResolved (values : list Settled) : option JsVal :=
  match promiseAll values with
  | Some vs =>
      Some (default JUndefined (List.find (fun value => negb (is_undefined value)) vs))
  | None => None
  end.




(** The order of [Array.prototype.sort] without comparator on strings: by
    code units. *)
Definition codeUnitLe (a b : string) : Prop := String.leb a b = true.

#[export] Instance codeUnitLe_dec (a b : string) : Decision (codeUnitLe a b).
Proof. unfold codeUnitLe. apply _. Defined.




(** ** config.ts *)

(** [String.prototype.trim]. *)
Definition jsTrim (s : string) : string :=
  TestPlatform.text (TestPlatform.trim (TestPlatform.chars s)).

(** [ConfigValue<string>] as [getEnv] returns it: nothing, a text, or the
    promise of a text (with what becomes of it). *)
Inductive ConfigValue : Type :=
| CvUndefined
| CvString (s : string)
| CvPromise (p : JsError + string).

(** [getEnv(varName)], given [process.env] and what [readFile(file, 'utf8')]
    does on each path. *)
Definition getEnv (env : gmap string string) (readFile : string -> JsError + string)
    (varName : string) : ConfigValue :=
  match env !! varName with
  | Some v => CvString v
  | None =>
      let fileVarName := varName +:+ "_FILE" in
      match env !! fileVarName with
      | None => CvUndefined
      | Some file =>
          CvPromise (match readFile file with
                     | inl e => inl e
                     | inr contents => inr (jsTrim contents)
                     end)
      end
  end.

(** The names [whitelistConfig] picks. *)
Definition whitelistedOptions : list string :=
  [ "awsAccessKeyId"; "awsSecretAccessKey"; "config"; "logLevel"; "port"; "presets";
    "pretty";
    "commands";
    "allowUnauthorized"; "followRedirects"; "headers"; "method";
    "expectHttpRedirects"; "expectHttpRedirectTo"; "expectHttpResponseBodyMatch";
    "expectHttpResponseBodyMismatch"; "expectHttpSecure"; "expectHttpStatusCode";
    "expectHttpVersion";
    "s3AccessKeyId"; "s3SecretAccessKey"; "s3ByPrefix"; "s3ByPrefixOnly"; "s3Versions" ].

(** [whitelistConfig(config)]: lodash [pick] of these names. *)
Definition whitelistConfig {A : Type} (config : gmap string A) : gmap string A :=
  filter (fun entry => entry.1 ∈ whitelistedOptions) config.

(** ** More vocabulary *)

(** The events of a leg that reach a handler before the promise settles:
    those up to the first ['error'] event or ['end'] event delivered on a
    response, this one included. *)
Fixpoint handledEvents (registered : bool) (evs : list (Z * Event)) : list (Z * Event) :=
  match evs with
  | [] => []
  | (now, ev) :: rest =>
      match ev with
      | EvResponse _ => (now, ev) :: handledEvents true rest
      | EvEnd => if registered then [(now, ev)] else (now, ev) :: handledEvents registered rest
      | EvError => [(now, ev)]
      | _ => (now, ev) :: handledEvents registered rest
      end
  end.

(** The legs of a script that the chain turns into requests: each leg, as
    long as the one before ended on a 301 or 302 that is followed. *)
Fixpoint executedLegs (follow : bool) (legs : list Leg) : list Leg :=
  match legs with
  | [] => []
  | leg :: rest =>
      leg :: match legStatus None (events leg) with
             | Some s =>
                 if follow && bool_decide (s = 301 \/ s = 302)
                 then executedLegs follow rest
                 else []
             | None => []
             end
  end.

(** The DNS lookups of a leg: the time from the start of the leg to each
    ['lookup'] event handled. *)
Definition lookupInterval (start_ : Z) (entry : Z * Event) : option Z :=
  match entry.2 with EvLookup => Some (entry.1 - start_) | _ => None end.

Definition lookupIntervals (leg : Leg) : list Z :=
  omap (lookupInterval (startTime leg)) (handledEvents false (events leg)).

Definition sumZ (xs : list Z) : Z := List.fold_right Z.add 0 xs.

(** The counter of a phase after the intervals [ivs] were added to it from
    nothing. *)
Definition summed (c : option num) (ivs : list Z) : Prop :=
  c = match ivs with [] => None | _ :: _ => Some (Fin (sumZ ivs)) end.

(** Whether a ['secureConnect'] event of the leg is handled. *)
Definition isSecureConnect (entry : Z * Event) : bool :=
  match entry.2 with EvSecureConnect => true | _ => false end.

Definition handshakeHandled (leg : Leg) : bool :=
  existsb isSecureConnect (handledEvents false (events leg)).

(** The chunks of the ['data'] events of a list, one after the other. *)
Fixpoint chunksOf (evs : list (Z * Event)) : string :=
  match evs with
  | [] => EmptyString
  | (_, EvData chunk) :: rest => chunk +:+ chunksOf rest
  | _ :: rest => chunksOf rest
  end.

Definition isSocketEvent (ev : Event) : Prop :=
  ev = EvLookup \/ ev = EvConnect \/ ev = EvSecureConnect.

Definition isBodyEvent (ev : Event) : Prop :=
  ev = EvReadable \/ exists chunk, ev = EvData chunk.

(** A validator that only appends to the failures: from any failures [fs]
    it throws what it throws from none, or leaves [fs] followed by what it
    pushes from none. *)
Definition appendOnly (m : V unit) : Prop :=
  forall (q : Query) (fs : list Failure),
    match m {| vquery := q; vfailures := [] |} with
    | inl e => m {| vquery := q; vfailures := fs |} = inl e
    | inr (_, s) =>
        m {| vquery := q; vfailures := fs |}
        = inr (tt, {| vquery := vquery s; vfailures := fs ++ vfailures s |})
    end.

(** The failure of the body validator for a pattern that must match, and
    for a pattern that must not. *)
Definition bodyMismatch (expectedMatch : JsVal) : Failure :=
  {| actual := None;
     cause := "httpResponseBodyMismatch";
     description :=
       "Expected the HTTP response body to match the following regular expression: "
       +:+ to_string expectedMatch;
     expected := Some (OVal expectedMatch) |}.

Definition unexpectedBodyMatch (expectedMismatch : JsVal) (matched : string) : Failure :=
  {| actual := Some (OVal (JStr matched));
     cause := "unexpectedHttpResponseBodyMatch";
     description :=
       "Did not expect the HTTP response body to match the following regular expression: "
       +:+ to_string expectedMismatch;
     expected := Some (OVal expectedMismatch) |}.

(** A text without the character [=]. *)
Definition noEquals (s : string) : Prop :=
  Forall (fun c => c <> "="%char) (TestPlatform.chars s).

(** A list of characters with no white space at its first and at its last
    position. *)
Definition noSpaceAtEnds (l : list ascii) : Prop :=
  (forall c, head l = Some c -> is_space c = false)
  /\ (forall c, last l = Some c -> is_space c = false).

(** The failures of the body validator: one for each pattern of [must]
    that the body does not match, then one for each pattern of [mustNot]
    that it matches. *)
Definition bodyFailures `{Platform} (body_ : string) (must mustNot : list JsVal)
    : list Failure :=
  omap (fun p => match regexp_exec (regexp_source p) body_ with
                 | NoMatch => Some (bodyMismatch p)
                 | _ => None
                 end) must
  ++ omap (fun p => match regexp_exec (regexp_source p) body_ with
                    | Match matched => Some (unexpectedBodyMatch p matched)
                    | _ => None
                    end) mustNot.

(** The patterns of a list are regular expressions: none is refused as a
    syntax error. *)
Definition compilable `{Platform} (body_ : string) (patterns : list JsVal) : Prop :=
  Forall (fun p => forall e, regexp_exec (regexp_source p) body_ <> RegexSyntaxError e)
         patterns.

(** A leg over TLS answered by a 302 to a plain address. *)
Definition secureRedirectLeg : Leg :=
  {| startTime := 500;
     events := socketEvents (Some 503) 507 (Some 519)
               ++ [(530, EvResponse {| statusCode := 302;
                                       headers := {[ "location" := "http://a.test/" ]};
                                       httpVersion := "1.1"; body := JUndefined |});
                   (534, EvReadable); (540, EvEnd)];
     request := {| connection := TlsSocket None |} |}.

(** A leg answered by a 301 without [location] header. *)
Definition lostLeg : Leg :=
  {| startTime := 1000;
     events := [(1005, EvConnect);
                (1010, EvResponse {| statusCode := 301; headers := ∅;
                                     httpVersion := "1.1"; body := JUndefined |});
                (1011, EvReadable); (1016, EvEnd)];
     request := plainRequest |}.

(** * Properties *)

(** ** Counters and metrics *)

Lemma increase_lookup (c : gmap string num) (key : string) (by_ : num) :
  increase c key by_ !! key = Some (num_add (or_zero (c !! key)) by_).
Proof. unfold increase. apply lookup_insert_eq. Qed.

Lemma increase_lookup_ne (c : gmap string num) (key other : string) (by_ : num) :
  key <> other -> increase c key by_ !! other = c !! other.
Proof. intros Hne. unfold increase. by apply lookup_insert_ne. Qed.

(** An interval is added to what the counter holds, not written over it. *)
Lemma increase_accumulates (c : gmap string num) (key : string) (a b : Z) :
  c !! key = Some (Fin a) -> increase c key (Fin b) !! key = Some (Fin (a + b)).
Proof. intros Hc. rewrite increase_lookup, Hc. reflexivity. Qed.

Lemma qget_insert (query : Query) (key : string) (v : JsVal) :
  qget (<[key := v]> query) key = v.
Proof. unfold qget. by rewrite lookup_insert_eq. Qed.

Lemma qget_insert_ne (query : Query) (key other : string) (v : JsVal) :
  key <> other -> qget (<[key := v]> query) other = qget query other.
Proof. intros Hne. unfold qget. by rewrite lookup_insert_ne. Qed.

Lemma metricValues_app (n : string) (a b : list Metric) :
  metricValues n (a ++ b) = metricValues n a ++ metricValues n b.
Proof. unfold metricValues. by rewrite List.filter_app, List.map_app. Qed.

Lemma metricValues_durations (n : string) (l : list (string * num)) :
  n <> "httpDuration" -> metricValues n (List.map durationMetric l) = [].
Proof.
  intros Hn. unfold metricValues.
  induction l as [|e l IH]; [done|].
  cbn [List.map List.filter durationMetric buildMetric metricName].
  destruct (String.eqb_spec "httpDuration" n) as [E|E]; [congruence|].
  exact IH.
Qed.

Lemma redirects_metric (req : ClientRequest) (res : option IncomingMessage)
    (state : ProbeState) :
  metricValues "httpRedirects" (httpMetrics req res state)
  = [OVal (JNum (or_zero (counters state !! "redirects")))].
Proof.
  unfold httpMetrics. rewrite !metricValues_app.
  rewrite metricValues_durations by done. reflexivity.
Qed.

Lemma statusCode_metric (req : ClientRequest) (res : option IncomingMessage)
    (state : ProbeState) :
  metricValues "httpStatusCode" (httpMetrics req res state)
  = [match res with
     | Some r => OVal (JNum (Fin (statusCode r)))
     | None => OVal JNull
     end].
Proof.
  unfold httpMetrics. rewrite !metricValues_app.
  rewrite metricValues_durations by done. reflexivity.
Qed.

Lemma version_metric (req : ClientRequest) (res : option IncomingMessage)
    (state : ProbeState) :
  metricValues "httpVersion" (httpMetrics req res state)
  = [match res with
     | Some r => OParseFloat (JStr (httpVersion r))
     | None => OVal JNull
     end].
Proof.
  unfold httpMetrics. rewrite !metricValues_app.
  rewrite metricValues_durations by done. reflexivity.
Qed.

Lemma contentLength_metric (req : ClientRequest) (res : option IncomingMessage)
    (state : ProbeState) :
  metricValues "httpContentLength" (httpMetrics req res state) = [contentLength res].
Proof.
  unfold httpMetrics. rewrite !metricValues_app.
  rewrite metricValues_durations by done. reflexivity.
Qed.

(** ** Texts of digits *)

Lemma digit_plain (c : ascii) :
  isDigit c -> is_space c = false /\ c <> "-"%char /\ c <> "+"%char
               /\ exists d, digit_val c = Some d /\ 0 <= d <= 9.
Proof.
  intros [d Hd]. unfold digit_val in Hd.
  destruct (_ && _) eqn:Hr; [|discriminate]. injection Hd as <-.
  apply andb_prop in Hr as [H1 H2]. apply Z.leb_le in H1, H2.
  assert (48 <= nat_of_ascii c <= 57)%nat as Hn by lia.
  split; [|split; [|split]].
  - unfold is_space. cbv zeta.
    repeat rewrite orb_false_iff. repeat split; apply Nat.eqb_neq; lia.
  - intros ->. change (nat_of_ascii "-") with 45%nat in Hn. lia.
  - intros ->. change (nat_of_ascii "+") with 43%nat in Hn. lia.
  - eexists. split; [unfold digit_val; cbv zeta|].
    + assert ((48 <=? Z.of_nat (nat_of_ascii c)) && (Z.of_nat (nat_of_ascii c) <=? 57) = true)
        as -> by (apply andb_true_intro; split; apply Z.leb_le; lia).
      reflexivity.
    + lia.
Qed.

Lemma digits_prefix_digits (l : list ascii) :
  Forall isDigit l ->
  forall acc : Z,
    0 <= acc ->
    digits_prefix (Some acc) l
    = Some (List.fold_left (fun a c => 10 * a + default 0 (digit_val c)) l acc)
    /\ 0 <= List.fold_left (fun a c => 10 * a + default 0 (digit_val c)) l acc.
Proof.
  induction 1 as [|c l Hc _ IH]; intros acc Hacc; [by split|].
  destruct (digit_plain c Hc) as (_ & _ & _ & d & Hd & Hrange).
  cbn [digits_prefix List.fold_left]. rewrite Hd.
  change (default 0 (Some acc)) with acc. change (default 0 (Some d)) with d.
  apply IH. lia.
Qed.

(** [parseInt] of a text of digits is the integer it writes. *)
Lemma parseInt10_digits (s : string) :
  s <> EmptyString ->
  Forall isDigit (list_ascii_of_string s) ->
  parseInt10 s = Fin (decimal s) /\ 0 <= decimal s.
Proof.
  intros Hs Hall. unfold parseInt10, decimal.
  destruct s as [|c s]; [done|]. cbn [list_ascii_of_string] in *.
  inversion Hall as [|? ? Hc Hrest]; subst.
  destruct (digit_plain c Hc) as (Hsp & Hm & Hp & d & Hd & Hrange).
  cbn [skip_space]. rewrite Hsp.
  assert (match c :: list_ascii_of_string s with
          | "-"%char :: r => (true, r)
          | "+"%char :: r => (false, r)
          | _ => (false, c :: list_ascii_of_string s)
          end = (false, c :: list_ascii_of_string s)) as ->.
  { destruct c as [[] [] [] [] [] [] [] []]; try reflexivity; congruence. }
  cbn [digits_prefix List.fold_left]. rewrite Hd.
  change (default 0 (@None Z)) with 0. change (default 0 (Some d)) with d.
  destruct (digits_prefix_digits _ Hrest (10 * 0 + d)) as [-> Hpos]; [lia|].
  by split.
Qed.

Lemma digitsOnly_spec (s : string) :
  digitsOnly s = true <-> Forall isDigit (list_ascii_of_string s).
Proof.
  unfold digitsOnly. induction (list_ascii_of_string s) as [|c l IH]; cbn [forallb].
  - split; [constructor|done].
  - rewrite andb_true_iff, IH. unfold isDigit. split.
    + intros [Hc Hl]. constructor; [|done]. destruct (digit_val c); [eauto|discriminate].
    + inversion 1 as [|? ? [d Hd] Hl]; subst. by rewrite Hd.
Qed.

(** What the parser delivers as a response is receivable. *)
Lemma delivered_receivable (answer res : IncomingMessage) :
  delivered answer = EvResponse res -> receivable res.
Proof.
  unfold delivered, receivable. intros Hd s Hs.
  destruct (headers answer !! "content-length") as [s0|] eqn:Hh.
  - destruct (digitsOnly s0) eqn:Hdig; [|discriminate]. injection Hd as <-.
    rewrite Hh in Hs. injection Hs as <-. by apply digitsOnly_spec.
  - injection Hd as <-. congruence.
Qed.

(** ** Exact counters *)

Lemma exactCounters_empty : exactCounters ∅.
Proof. intros key n Hk. by rewrite lookup_empty in Hk. Qed.

Lemma exactCounters_insert (c : gmap string num) (key : string) (n : num) :
  exactNum n -> exactCounters c -> exactCounters (<[key := n]> c).
Proof.
  intros Hn Hc k m Hk. destruct (decide (key = k)) as [<-|Hne].
  - rewrite lookup_insert_eq in Hk. by injection Hk as <-.
  - rewrite lookup_insert_ne in Hk by done. by eapply Hc.
Qed.

(** ** The handlers of a leg *)

Lemma sameAt_trans (key : string) (a b c : ProbeState) :
  sameAt key a b -> sameAt key b c -> sameAt key a c.
Proof. intros [H1 H2] [H3 H4]. split; congruence. Qed.

Lemma increaseState_sameAt (state : ProbeState) (key other : string) (by_ : num) :
  key <> other -> sameAt other (increaseState state key by_) state.
Proof. intros Hne. split; [by apply increase_lookup_ne|reflexivity]. Qed.

(** Closes [sameAt key (increaseState _ phase _) _] for a key that is not a
    phase. *)
Ltac not_this_phase Hk :=
  apply increaseState_sameAt; intros <-; apply Hk; unfold isPhase; tauto.

Lemma onLookup_frame (key : string) (now : Z) (l : LegState) (state : ProbeState) :
  ~ isPhase key -> sameAt key (onLookup now l state).2 state.
Proof. intros Hk. not_this_phase Hk. Qed.

Lemma onConnect_frame (key : string) (now : Z) (l : LegState) (state : ProbeState) :
  ~ isPhase key -> sameAt key (onConnect now l state).2 state.
Proof. intros Hk. not_this_phase Hk. Qed.

Lemma onSecureConnect_frame (key : string) (now : Z) (l : LegState) (state : ProbeState) :
  ~ isPhase key -> sameAt key (onSecureConnect now l state).2 state.
Proof. intros Hk. not_this_phase Hk. Qed.

Lemma onReadable_frame (key : string) (now : Z) (l : LegState) (state : ProbeState) :
  ~ isPhase key -> sameAt key (onReadable now l state).2 state.
Proof.
  intros Hk. unfold onReadable. destruct (prop_undefined _); [|done].
  not_this_phase Hk.
Qed.

Lemma onEnd_frame (key : string) (now : Z) (l : LegState) (state : ProbeState) :
  ~ isPhase key -> sameAt key (onEnd now l state) state.
Proof.
  intros Hk. unfold onEnd. destruct (firstByteAt _); [|done].
  not_this_phase Hk.
Qed.

(** The events of a leg leave the requests and every counter that is not a
    phase as they were. *)
Lemma runEvents_frame (key : string) :
  ~ isPhase key ->
  forall (evs : list (Z * Event)) (l : LegState) (state : ProbeState),
    sameAt key (runEvents evs l state).2 state.
Proof.
  intros Hkey.
  induction evs as [|[now ev] rest IH]; intros l state; [done|].
  destruct ev; cbn [runEvents].
  - pose proof (onLookup_frame key now l state Hkey) as Hs.
    destruct (onLookup now l state) as [l' st']. eapply sameAt_trans; [apply IH|exact Hs].
  - pose proof (onConnect_frame key now l state Hkey) as Hs.
    destruct (onConnect now l state) as [l' st']. eapply sameAt_trans; [apply IH|exact Hs].
  - pose proof (onSecureConnect_frame key now l state Hkey) as Hs.
    destruct (onSecureConnect now l state) as [l' st'].
    eapply sameAt_trans; [apply IH|exact Hs].
  - apply IH.
  - destruct (legRes l); [|apply IH].
    pose proof (onReadable_frame key now l state Hkey) as Hs.
    destruct (onReadable now l state) as [l' st']. eapply sameAt_trans; [apply IH|exact Hs].
  - destruct (legRes l); apply IH.
  - destruct (legRes l); [|apply IH]. cbn [snd]. by apply onEnd_frame.
  - done.
Qed.

(** The end of a leg is the one [legStatus] reads off its events. *)
Lemma runEvents_status (evs : list (Z * Event)) :
  forall (l : LegState) (state : ProbeState),
    legStatus (statusCode <$> legRes l) evs
    = match (runEvents evs l state).1.1 with
      | Ended res => Some (statusCode res)
      | Errored | Unfinished => None
      end.
Proof.
  induction evs as [|[now ev] rest IH]; intros l state; [done|].
  destruct ev; cbn [runEvents legStatus].
  - destruct (onLookup now l state) as [l' st'] eqn:E.
    replace (legRes l) with (legRes l') by (unfold onLookup in E; by injection E as <- <-).
    apply IH.
  - destruct (onConnect now l state) as [l' st'] eqn:E.
    replace (legRes l) with (legRes l') by (unfold onConnect in E; by injection E as <- <-).
    apply IH.
  - destruct (onSecureConnect now l state) as [l' st'] eqn:E.
    replace (legRes l) with (legRes l')
      by (unfold onSecureConnect in E; by injection E as <- <-).
    apply IH.
  - apply (IH {| legTimes := legTimes l; legRes := Some res; legBody := EmptyString |}).
  - destruct (legRes l) as [r|] eqn:Hr; [|rewrite <- (IH l state), Hr; reflexivity].
    destruct (onReadable now l state) as [l' st'] eqn:E.
    rewrite <- (IH l' st').
    replace (legRes l') with (legRes l); [by rewrite Hr|].
    unfold onReadable in E. destruct (prop_undefined _); by injection E as <- <-.
  - destruct (legRes l) as [r|] eqn:Hr.
    + rewrite <- (IH (onData chunk l) state). cbn [onData legRes]. by rewrite Hr.
    + rewrite <- (IH l state), Hr. reflexivity.
  - destruct (legRes l) as [r|] eqn:Hr; cbn; [reflexivity|].
    rewrite <- (IH l state), Hr. reflexivity.
  - reflexivity.
Qed.

(** Once the first byte is recorded, no event changes it. *)
Lemma runEvents_firstByte_kept (v : num) (evs : list (Z * Event)) :
  forall (l : LegState) (state : ProbeState),
    counters state !! "firstByte" = Some v ->
    counters (runEvents evs l state).2 !! "firstByte" = Some v.
Proof.
  induction evs as [|[now ev] rest IH]; intros l state Hv; [done|].
  destruct ev; cbn [runEvents].
  - apply IH. cbn. by rewrite increase_lookup_ne.
  - apply IH. cbn. by rewrite increase_lookup_ne.
  - apply IH. cbn. by rewrite increase_lookup_ne.
  - by apply IH.
  - destruct (legRes l); [|by apply IH].
    unfold onReadable. rewrite Hv. cbn [prop_undefined]. by apply IH.
  - destruct (legRes l); by apply IH.
  - destruct (legRes l); [|by apply IH]. cbn [snd]. unfold onEnd.
    destruct (firstByteAt _); [|done]. cbn. by rewrite increase_lookup_ne.
  - done.
Qed.

(** On a leg that starts after the first byte of the chain was recorded,
    [times.firstByteAt] is never set, so the ['end'] handler adds no
    content transfer. *)
Lemma runEvents_contentTransfer_frozen (v : num) (evs : list (Z * Event)) :
  forall (l : LegState) (state : ProbeState),
    counters state !! "firstByte" = Some v ->
    firstByteAt (legTimes l) = None ->
    counters (runEvents evs l state).2 !! "contentTransfer"
    = counters state !! "contentTransfer".
Proof.
  induction evs as [|[now ev] rest IH]; intros l state Hv Hat; [done|].
  destruct ev; cbn [runEvents]; unfold onLookup, onConnect, onSecureConnect.
  - rewrite IH; [|cbn; by rewrite increase_lookup_ne|exact Hat].
    cbn. by rewrite increase_lookup_ne.
  - rewrite IH; [|cbn; by rewrite increase_lookup_ne|exact Hat].
    cbn. by rewrite increase_lookup_ne.
  - rewrite IH; [|cbn; by rewrite increase_lookup_ne|exact Hat].
    cbn. by rewrite increase_lookup_ne.
  - by apply IH.
  - destruct (legRes l); [|by apply IH].
    unfold onReadable. rewrite Hv. cbn [prop_undefined]. by apply IH.
  - destruct (legRes l); by apply IH.
  - destruct (legRes l); [|by apply IH]. cbn [snd]. unfold onEnd. by rewrite Hat.
  - done.
Qed.

(** Socket events leave the response and the body of a leg. *)
Lemma socket_handlers_leg (now : Z) (l : LegState) (state : ProbeState) :
  (legRes (onLookup now l state).1 = legRes l
   /\ legBody (onLookup now l state).1 = legBody l)
  /\ (legRes (onConnect now l state).1 = legRes l
      /\ legBody (onConnect now l state).1 = legBody l)
  /\ (legRes (onSecureConnect now l state).1 = legRes l
      /\ legBody (onSecureConnect now l state).1 = legBody l)
  /\ (legRes (onReadable now l state).1 = legRes l
      /\ legBody (onReadable now l state).1 = legBody l).
Proof.
  unfold onReadable. by destruct (prop_undefined (counters state !! "firstByte")).
Qed.

Lemma runEvents_socket (pre rest : list (Z * Event)) :
  Forall (fun entry => isSocketEvent entry.2) pre ->
  forall (l : LegState) (state : ProbeState),
    exists l1 state1,
      runEvents (pre ++ rest) l state = runEvents rest l1 state1
      /\ legRes l1 = legRes l /\ legBody l1 = legBody l.
Proof.
  induction 1 as [|[now ev] pre Hev _ IH]; intros l state; [by exists l, state|].
  destruct (socket_handlers_leg now l state) as ([R1 B1] & [R2 B2] & [R3 B3] & _).
  cbn [app]. destruct Hev as [Hev|[Hev|Hev]]; cbn [snd] in Hev; subst ev; cbn [runEvents].
  - destruct (onLookup now l state) as [l' st']. cbn [fst] in *.
    destruct (IH l' st') as (l1 & state1 & Hrun & Hres & Hbody).
    exists l1, state1. by rewrite Hrun, Hres, Hbody, R1, B1.
  - destruct (onConnect now l state) as [l' st']. cbn [fst] in *.
    destruct (IH l' st') as (l1 & state1 & Hrun & Hres & Hbody).
    exists l1, state1. by rewrite Hrun, Hres, Hbody, R2, B2.
  - destruct (onSecureConnect now l state) as [l' st']. cbn [fst] in *.
    destruct (IH l' st') as (l1 & state1 & Hrun & Hres & Hbody).
    exists l1, state1. by rewrite Hrun, Hres, Hbody, R3, B3.
Qed.

(** The response on which a leg ends is one the leg delivered. *)
Lemma runEvents_ended (evs : list (Z * Event)) :
  forall (l l' : LegState) (state state' : ProbeState) (res : IncomingMessage),
    runEvents evs l state = (Ended res, l', state') ->
    legRes l = Some res \/ exists now, (now, EvResponse res) ∈ evs.
Proof.
  induction evs as [|[now ev] rest IH]; intros l l' state state' res Hrun;
    [discriminate|].
  assert (forall l0 st0, runEvents rest l0 st0 = (Ended res, l', state') ->
            legRes l0 = legRes l ->
            legRes l = Some res \/ exists now0, (now0, EvResponse res) ∈ (now, ev) :: rest)
    as Hstep.
  { intros l0 st0 Hr Hl. destruct (IH _ _ _ _ _ Hr) as [Hres|[now0 Hin]].
    - left. congruence.
    - right. exists now0. apply elem_of_cons. by right. }
  destruct ev; cbn [runEvents] in Hrun.
  - unfold onLookup in Hrun. eapply Hstep; [exact Hrun|reflexivity].
  - unfold onConnect in Hrun. eapply Hstep; [exact Hrun|reflexivity].
  - unfold onSecureConnect in Hrun. eapply Hstep; [exact Hrun|reflexivity].
  - destruct (IH _ _ _ _ _ Hrun) as [Hres|[now0 Hin]].
    + right. exists now. cbn in Hres. injection Hres as <-. apply elem_of_cons. by left.
    + right. exists now0. apply elem_of_cons. by right.
  - destruct (legRes l) eqn:Hl; [|eapply Hstep; [exact Hrun|done]].
    unfold onReadable in Hrun. destruct (prop_undefined _).
    + eapply Hstep; [exact Hrun|]. cbn. done.
    + eapply Hstep; [exact Hrun|done].
  - destruct (legRes l) eqn:Hl; eapply Hstep; try exact Hrun; done.
  - destruct (legRes l) eqn:Hl; [|eapply Hstep; [exact Hrun|done]].
    injection Hrun as <- <- <-. by left.
  - discriminate.
Qed.

(** ** The status classes *)

Lemma class_digit (d : ascii) :
  (49 <=? Z.of_nat (nat_of_ascii d)) && (Z.of_nat (nat_of_ascii d) <=? 53) = true ->
  exists n, 1 <= n <= 5 /\ d = ascii_of_nat (Z.to_nat (48 + n))
            /\ parseInt10 (String d EmptyString) = Fin n.
Proof.
  intros Hb. apply andb_prop in Hb as [Hlo Hhi].
  apply Z.leb_le in Hlo, Hhi.
  assert (d = ascii_of_nat (nat_of_ascii d)) as Hd by (symmetry; apply ascii_nat_embedding).
  remember (nat_of_ascii d) as k eqn:Hk. clear Hk.
  assert (k = 49 \/ k = 50 \/ k = 51 \/ k = 52 \/ k = 53)%nat
    as [->|[->|[->|[->| ->]]]] by lia; subst d.
  - exists 1. repeat split; try lia; reflexivity.
  - exists 2. repeat split; try lia; reflexivity.
  - exists 3. repeat split; try lia; reflexivity.
  - exists 4. repeat split; try lia; reflexivity.
  - exists 5. repeat split; try lia; reflexivity.
Qed.

Lemma is_x_spec (c : ascii) :
  Ascii.eqb c "x" || Ascii.eqb c "X" = true <-> c = "x"%char \/ c = "X"%char.
Proof. rewrite orb_true_iff, !Ascii.eqb_eq. reflexivity. Qed.

(** What [/^([1-5])xx$/i] matches is a class, and its capture is the
    hundreds digit. *)
Lemma rangeMatch_Some (code digit : string) :
  rangeMatch code = Some digit ->
  exists n, 1 <= n <= 5 /\ isClass n code /\ parseInt10 digit = Fin n.
Proof.
  unfold rangeMatch.
  destruct code as [|d [|x1 [|x2 [|? ?]]]]; cbn [list_ascii_of_string]; try discriminate.
  destruct ((49 <=? _) && (_ <=? 53)) eqn:Hd; cbn [andb]; [|discriminate].
  destruct (Ascii.eqb x1 "x" || Ascii.eqb x1 "X") eqn:H1; cbn [andb]; [|discriminate].
  destruct (Ascii.eqb x2 "x" || Ascii.eqb x2 "X") eqn:H2; [|discriminate].
  intros [= <-].
  apply class_digit in Hd as (n & Hn & -> & Hp).
  apply is_x_spec in H1, H2.
  exists n. split; [exact Hn|]. split; [|exact Hp].
  exists x1, x2. auto.
Qed.

(** Every class of a hundred from 1 to 5 is matched. *)
Lemma rangeMatch_class (n : Z) (code : string) :
  1 <= n <= 5 -> isClass n code ->
  exists digit, rangeMatch code = Some digit /\ parseInt10 digit = Fin n.
Proof.
  intros Hn (x1 & x2 & H1 & H2 & ->).
  assert (n = 1 \/ n = 2 \/ n = 3 \/ n = 4 \/ n = 5) as Hc by lia.
  destruct Hc as [->|[->|[->|[->| ->]]]];
    destruct H1 as [-> | ->]; destruct H2 as [-> | ->];
    eexists; split; reflexivity.
Qed.

(** ** The validators *)

Section ValidatorFacts.
Context `{Platform}.


(** An expected count of redirects: the validator fails a chain whose
    counter holds another number, and also every chain without redirect,
    whose counter is [undefined], whatever the count. *)
Lemma expected_redirect_count (query : Query) (state : ProbeState) (fs : list Failure)
    (n : Z) :
  is_undefined (qget query "expectHttpRedirects") = false ->
  Number (qget query "expectHttpRedirects") = Fin n ->
  (counters state !! "redirects" = None
   \/ exists m, counters state !! "redirects" = Some (Fin m) /\ m <> n) ->
  exists f,
    validateHttpRedirects state {| vquery := query; vfailures := fs |}
    = inr (tt, {| vquery := query; vfailures := fs ++ [f] |})
    /\ cause f = "invalidHttpRedirectCount"
    /\ expected f = Some (OVal (JNum (Fin n))).
Proof.
  intros Hdef Hnum Hcount.
  unfold validateHttpRedirects, vbind, vget. cbn [vquery].
  rewrite Hdef. cbn [negb]. rewrite Hnum. cbn [isNaN negb andb].
  assert (prop_strict_ne (counters state !! "redirects") (Fin n) = true) as ->.
  { destruct Hcount as [-> | (m & -> & Hm)]; [reflexivity|].
    cbn. apply negb_true_iff, Z.eqb_neq. exact Hm. }
  eexists. split; [reflexivity|]. split; reflexivity.
Qed.



Lemma literal_matches (code : string) (actual_ : Z) :
  negb (isNaN (string_to_number code))
  && num_strict_eq (string_to_number code) (Fin actual_) = true
  <-> string_to_number code = Fin actual_.
Proof.
  destruct (string_to_number code) as [|z]; cbn.
  - split; [discriminate|discriminate].
  - rewrite Z.eqb_eq. split; [intros ->; reflexivity|intros [= ->]; reflexivity].
Qed.

(** The loop returns from the validator exactly when a text of the list
    matches the status code. *)
Lemma statusCodeLoop_spec (actual_ : Z) (codes : list JsVal) :
  statusCodeLoop actual_ codes = true
  <-> exists code, JStr code ∈ codes /\ codeMatches actual_ code.
Proof.
  induction codes as [|c rest IH].
  - cbn. split; [discriminate|]. intros (code & Hin & _). by apply elem_of_nil in Hin.
  - assert (statusCodeLoop actual_ rest = true ->
            exists code, JStr code ∈ c :: rest /\ codeMatches actual_ code) as Hrest.
    { intros Hl. apply IH in Hl as (code & Hin & Hm). exists code.
      split; [apply elem_of_cons; by right|exact Hm]. }
    destruct c as [| | | |code_|];
      try (cbn [statusCodeLoop]; split; [exact Hrest|];
           intros (code & Hin & Hm); apply elem_of_cons in Hin as [Hin|Hin];
           [discriminate|apply IH; eauto]).
    cbn [statusCodeLoop].
    destruct (rangeMatch code_) as [digit|] eqn:Hrange.
    + destruct (rangeMatch_Some _ _ Hrange) as (n & Hn & Hclass & Hp).
      rewrite Hp. cbn [num_mul num_add num_le].
      destruct ((n * 100 <=? actual_) && (actual_ <=? n * 100 + 99)) eqn:Hin.
      * split; [|reflexivity]. intros _. exists code_.
        split; [apply elem_of_cons; by left|].
        left. exists n. apply andb_prop in Hin as [H1 H2].
        apply Z.leb_le in H1, H2. repeat split; try lia. exact Hclass.
      * destruct (negb (isNaN _) && _) eqn:Hlit.
        -- split; [|reflexivity]. intros _. exists code_.
           split; [apply elem_of_cons; by left|].
           right. by apply literal_matches.
        -- split; [exact Hrest|].
           intros (code & Hel & Hm). apply elem_of_cons in Hel as [Hel|Hel].
           ++ injection Hel as ->. exfalso.
              destruct Hm as [(n' & Hn' & Hclass' & Hr)|Hl].
              ** destruct (rangeMatch_class _ _ Hn' Hclass') as (digit' & Hr' & Hp').
                 rewrite Hrange in Hr'. injection Hr' as <-.
                 rewrite Hp in Hp'. injection Hp' as <-.
                 apply andb_false_iff in Hin as [Hin|Hin]; apply Z.leb_gt in Hin; lia.
              ** apply literal_matches in Hl. congruence.
           ++ apply IH. eauto.
    + destruct (negb (isNaN _) && _) eqn:Hlit.
      * split; [|reflexivity]. intros _. exists code_.
        split; [apply elem_of_cons; by left|].
        right. by apply literal_matches.
      * split; [exact Hrest|].
        intros (code & Hel & Hm). apply elem_of_cons in Hel as [Hel|Hel].
        -- injection Hel as ->. exfalso.
           destruct Hm as [(n' & Hn' & Hclass' & Hr)|Hl].
           ++ destruct (rangeMatch_class _ _ Hn' Hclass') as (digit' & Hr' & Hp').
              congruence.
           ++ apply literal_matches in Hl. congruence.
        -- apply IH. eauto.
Qed.

End ValidatorFacts.

(** ** Validators that only read the query *)

Lemma readOnly_ret (key : string) : readOnlyOff key (vret tt).
Proof. intros q q' fs _. right. by exists fs. Qed.

Lemma readOnly_push (key : string) (f : Failure) : readOnlyOff key (vpush f).
Proof. intros q q' fs _. right. by exists (fs ++ [f]). Qed.

Lemma readOnly_throw (key : string) (e : JsError) : readOnlyOff key (vthrow e).
Proof. intros q q' fs _. left. by exists e. Qed.

Lemma readOnly_get (key k : string) (cont : JsVal -> V unit) :
  k <> key -> (forall v, readOnlyOff key (cont v)) ->
  readOnlyOff key (let* v := vget k in cont v).
Proof.
  intros Hk Hc q q' fs Hq. unfold vbind, vget. cbn [vquery].
  rewrite <- (Hq k Hk). by apply Hc.
Qed.

Lemma readOnly_seq (key : string) (m k : V unit) :
  readOnlyOff key m -> readOnlyOff key k -> readOnlyOff key (m ;; k).
Proof.
  intros Hm Hk q q' fs Hq. unfold vbind.
  destruct (Hm q q' fs Hq) as [(e & -> & ->)|(fs' & -> & ->)].
  - left. by exists e.
  - by apply Hk.
Qed.

Lemma readOnly_for (key : string) {A : Type} (items : list A) (body_ : A -> V unit) :
  (forall x, readOnlyOff key (body_ x)) -> readOnlyOff key (vfor items body_).
Proof.
  intros Hb. induction items as [|x rest IH]; cbn [vfor].
  - apply readOnly_ret.
  - by apply readOnly_seq.
Qed.

Lemma readOnly_if (key : string) (b : bool) (m k : V unit) :
  readOnlyOff key m -> readOnlyOff key k -> readOnlyOff key (if b then m else k).
Proof. by destruct b. Qed.

Create HintDb readonly.
#[global] Hint Resolve readOnly_ret readOnly_push readOnly_throw readOnly_seq
  readOnly_for readOnly_if : readonly.

Section Purity.
Context `{Platform}.

Lemma validateHttpRedirects_readOnly (state : ProbeState) :
  readOnlyOff "expectHttpStatusCode" (validateHttpRedirects state).
Proof.
  unfold validateHttpRedirects.
  apply readOnly_get; [done|intros v1]. apply readOnly_get; [done|intros v2].
  auto 10 with readonly.
Qed.

Lemma validateHttpRedirectTarget_readOnly (state : ProbeState) :
  readOnlyOff "expectHttpStatusCode" (validateHttpRedirectTarget state).
Proof.
  unfold validateHttpRedirectTarget.
  apply readOnly_get; [done|intros v1].
  apply readOnly_if; [auto with readonly|].
  destruct (url_parse_val v1); [auto with readonly|].
  destruct (last (requests state)); auto with readonly.
Qed.

Lemma validateHttpResponseBody_readOnly (res : IncomingMessage) :
  readOnlyOff "expectHttpStatusCode" (validateHttpResponseBody res).
Proof.
  unfold validateHttpResponseBody.
  apply readOnly_get; [done|intros v1].
  apply readOnly_seq.
  - apply readOnly_for. intros x. destruct (regexp_exec _ _); auto with readonly.
  - apply readOnly_get; [done|intros v2].
    apply readOnly_for. intros x. destruct (regexp_exec _ _); auto with readonly.
Qed.

Lemma validateHttpSecurity_readOnly (state : ProbeState) :
  readOnlyOff "expectHttpStatusCode" (validateHttpSecurity state).
Proof.
  unfold validateHttpSecurity.
  apply readOnly_get; [done|intros v1]. auto 10 with readonly.
Qed.

Lemma validateHttpVersion_readOnly (res : IncomingMessage) :
  readOnlyOff "expectHttpStatusCode" (validateHttpVersion res).
Proof.
  unfold validateHttpVersion.
  apply readOnly_get; [done|intros v1]. auto 10 with readonly.
Qed.

(** The status-code validator never throws; it writes the query exactly
    when the expected codes are an empty array, and a second run on the
    query it leaves pushes the same failures. *)
Lemma validateHttpStatusCode_runs (res : IncomingMessage) (q : Query) (fs : list Failure) :
  exists (q1 : Query) (fs1 : list Failure),
    validateHttpStatusCode res {| vquery := q; vfailures := fs |}
    = inr (tt, {| vquery := q1; vfailures := fs1 |})
    /\ validateHttpStatusCode res {| vquery := q1; vfailures := fs |}
       = inr (tt, {| vquery := q1; vfailures := fs1 |})
    /\ agreeOff "expectHttpStatusCode" q q1
    /\ (qget q "expectHttpStatusCode" <> JArr [] -> q1 = q).
Proof.
  destruct (qget q "expectHttpStatusCode") as [| |b|n|s|items] eqn:Hq.
  6: destruct items as [|c r].
  6: { exists (<["expectHttpStatusCode" := JArr [JStr "2xx"; JStr "3xx"]]> q).
       unfold validateHttpStatusCode, vbind, vget, vset, vret, vpush.
       cbn [vquery vfailures]. rewrite Hq, !qget_insert.
       cbn [vquery vfailures].
       destruct (statusCodeLoop _ _); eexists;
         (split; [reflexivity|split; [reflexivity|split; [|done]]]);
         intros k Hk; by rewrite qget_insert_ne. }
  all: exists q; unfold validateHttpStatusCode, vbind, vget, vset, vret, vpush;
    cbn [vquery vfailures]; rewrite Hq;
    repeat match goal with
           | |- context [if ?b then _ else _] => destruct b
           end;
    eexists; (split; [reflexivity|split; [reflexivity|split; done]]).
Qed.

End Purity.

(** ** The chain *)

Lemma redirectCount_increase (state : ProbeState) :
  redirectCount (increaseState state "redirects" (Fin 1)) = redirectCount state + 1.
Proof.
  unfold redirectCount. cbn [increaseState counters]. rewrite increase_lookup.
  destruct (counters state !! "redirects") as [[|z]|]; reflexivity.
Qed.

Lemma redirects_not_phase : ~ isPhase "redirects".
Proof. unfold isPhase. intros [?|[?|[?|[?|?]]]]; discriminate. Qed.

(** The test [statusCode >= 301 && statusCode <= 302] is membership in
    the set of 301 and 302. *)
Lemma range_301_302 (s : Z) :
  (301 <=? s) && (s <=? 302) = bool_decide (s = 301 \/ s = 302).
Proof.
  destruct (bool_decide_reflect (s = 301 \/ s = 302)) as [Hs|Hs].
  - apply andb_true_intro. split; apply Z.leb_le; lia.
  - apply andb_false_iff. rewrite !Z.leb_gt. lia.
Qed.

Section Chain.
Context `{Platform}.

Lemma probeHttp_step (leg : Leg) (rest : list Leg) (target : JsVal) (query : Query)
    (state : ProbeState) (reqOptions : RequestOptions) (res : IncomingMessage)
    (l : LegState) (state1 : ProbeState) :
  requestOptions target query = inr reqOptions ->
  runEvents (events leg) (initialLeg leg) (pushRequest state reqOptions)
  = (Ended res, l, state1) ->
  probeHttp (leg :: rest) target query state
  = if truthy (followRedirects query)
       && bool_decide (statusCode res = 301 \/ statusCode res = 302)
    then probeHttp rest (header res "location") query
                   (increaseState state1 "redirects" (Fin 1))
    else (settle (getHttpMetrics query (request leg)
                    (Some (withBody res (legBody l))) state1), state1).
Proof.
  intros Hreq Hrun. cbn [probeHttp]. rewrite Hreq, Hrun.
  rewrite <- andb_assoc, range_301_302. reflexivity.
Qed.

Lemma getHttpMetrics_metrics (query : Query) (req : ClientRequest)
    (res : option IncomingMessage) (state : ProbeState) (result : ProbeResult) :
  getHttpMetrics query req res state = inr result ->
  metrics result = httpMetrics req res state.
Proof.
  unfold getHttpMetrics. intros Hg. destruct res as [r|].
  - destruct (validators r state _) as [e|[[] s]]; [discriminate|].
    by injection Hg as <-.
  - by injection Hg as <-.
Qed.

Lemma getHttpMetrics_redirects (query : Query) (req : ClientRequest)
    (res : option IncomingMessage) (state : ProbeState) (result : ProbeResult) :
  getHttpMetrics query req res state = inr result ->
  metricValues "httpRedirects" (metrics result)
  = [OVal (JNum (Fin (redirectCount state)))].
Proof.
  intros Hg. rewrite (getHttpMetrics_metrics _ _ _ _ _ Hg).
  rewrite redirects_metric. unfold redirectCount.
  destruct (counters state !! "redirects") as [[|z]|]; reflexivity.
Qed.

(** Along a chain that resolves, the redirect counter grows by the number
    of responses followed, one request is issued for the first leg and one
    for each response followed, and the metric is the counter. *)
Lemma probeHttp_redirects (query : Query) (legs : list Leg) :
  forall (target : JsVal) (state state' : ProbeState) (result : ProbeResult),
    probeHttp legs target query state = (Resolved result, state') ->
    redirectCount state'
    = redirectCount state + followedRedirects (truthy (followRedirects query)) legs
    /\ Z.of_nat (length (requests state'))
       = Z.of_nat (length (requests state))
         + followedRedirects (truthy (followRedirects query)) legs + 1
    /\ metricValues "httpRedirects" (metrics result)
       = [OVal (JNum (Fin (redirectCount state')))].
Proof.
  induction legs as [|leg rest IH]; intros target state state' result Hrun.
  - cbn [probeHttp] in Hrun. destruct (requestOptions target query); discriminate.
  - destruct (requestOptions target query) as [e|reqOptions] eqn:Hreq;
      [cbn [probeHttp] in Hrun; rewrite Hreq in Hrun; discriminate|].
    pose proof (runEvents_frame "redirects" redirects_not_phase (events leg)
                  (initialLeg leg) (pushRequest state reqOptions)) as [Hc Hr].
    pose proof (runEvents_status (events leg) (initialLeg leg)
                  (pushRequest state reqOptions)) as Hst.
    cbn [initialLeg legRes fmap option_fmap option_map] in Hst.
    destruct (runEvents (events leg) (initialLeg leg) (pushRequest state reqOptions))
      as [[[res| |] l] state1] eqn:Hev; cbn [fst snd] in *.
    + rewrite (probeHttp_step _ _ _ _ _ _ _ _ _ Hreq Hev) in Hrun.
      assert (redirectCount state1 = redirectCount state) as Hrc.
      { unfold redirectCount. rewrite Hc. reflexivity. }
      assert (length (requests state1) = S (length (requests state))) as Hlen.
      { rewrite Hr. cbn. rewrite length_app. cbn. lia. }
      cbn [followedRedirects]. rewrite Hst.
      destruct (truthy (followRedirects query) && bool_decide _).
      * apply IH in Hrun as (H1 & H2 & H3).
        rewrite redirectCount_increase in H1. cbn [increaseState requests] in H2.
        repeat split; [lia|lia|exact H3].
      * destruct (getHttpMetrics _ _ _ _) as [e|r] eqn:Hg; [discriminate|].
        injection Hrun as <- <-.
        repeat split; [lia|lia|]. by eapply getHttpMetrics_redirects.
    + cbn [probeHttp] in Hrun. rewrite Hreq, Hev in Hrun.
      cbn [followedRedirects]. rewrite Hst.
      destruct (getHttpMetrics _ _ _ _) as [e|r] eqn:Hg; [discriminate|].
      injection Hrun as <- <-.
      assert (redirectCount state1 = redirectCount state) as Hrc.
      { unfold redirectCount. rewrite Hc. reflexivity. }
      repeat split; [lia| |by eapply getHttpMetrics_redirects].
      rewrite Hr. cbn. rewrite length_app. cbn. lia.
    + cbn [probeHttp] in Hrun. rewrite Hreq, Hev in Hrun. discriminate.
Qed.

(** Once the first byte is recorded, no later leg changes it. *)
Lemma probeHttp_firstByte_kept (query : Query) (v : num) (legs : list Leg) :
  forall (target : JsVal) (state : ProbeState),
    counters state !! "firstByte" = Some v ->
    counters (probeHttp legs target query state).2 !! "firstByte" = Some v.
Proof.
  induction legs as [|leg rest IH]; intros target state Hv; cbn [probeHttp];
    destruct (requestOptions target query) as [e|reqOptions]; try done.
  pose proof (runEvents_firstByte_kept v (events leg) (initialLeg leg)
                (pushRequest state reqOptions) Hv) as Hk.
  destruct (runEvents _ _ _) as [[[res| |] l] state1]; cbn [snd] in *; try done.
  destruct (truthy _ && _ && _); [|done].
  apply IH. cbn. by rewrite increase_lookup_ne.
Qed.

Lemma probeHttp_firstByte_of_leg (query : Query) (v : num) (leg : Leg) (rest : list Leg)
    (target : JsVal) (state : ProbeState) (reqOptions : RequestOptions) :
  requestOptions target query = inr reqOptions ->
  counters (runEvents (events leg) (initialLeg leg) (pushRequest state reqOptions)).2
    !! "firstByte" = Some v ->
  counters (probeHttp (leg :: rest) target query state).2 !! "firstByte" = Some v.
Proof.
  intros Hreq Hk. cbn [probeHttp]. rewrite Hreq.
  destruct (runEvents _ _ _) as [[[res| |] l] state1]; cbn [snd] in *; try done.
  destruct (truthy _ && _ && _); [|done].
  apply probeHttp_firstByte_kept. cbn. by rewrite increase_lookup_ne.
Qed.

(** Once the first byte of a chain is recorded, no later leg adds to the
    content transfer. *)
Lemma probeHttp_contentTransfer_frozen (query : Query) (v : num) (legs : list Leg) :
  forall (target : JsVal) (state : ProbeState),
    counters state !! "firstByte" = Some v ->
    counters (probeHttp legs target query state).2 !! "contentTransfer"
    = counters state !! "contentTransfer".
Proof.
  induction legs as [|leg rest IH]; intros target state Hv; cbn [probeHttp];
    destruct (requestOptions target query) as [e|reqOptions]; try done.
  pose proof (runEvents_contentTransfer_frozen v (events leg) (initialLeg leg)
                (pushRequest state reqOptions) Hv eq_refl) as Hc.
  pose proof (runEvents_firstByte_kept v (events leg) (initialLeg leg)
                (pushRequest state reqOptions) Hv) as Hk.
  destruct (runEvents _ _ _) as [[[res| |] l] state1]; cbn [snd] in *; try done.
  destruct (truthy _ && _ && _); [|done].
  rewrite IH; [|cbn; by rewrite increase_lookup_ne].
  cbn. rewrite increase_lookup_ne by done. exact Hc.
Qed.

(** An answer that the parser refuses ends the leg without response, and
    the probe resolves with the content length [null]. *)
Lemma refused_answer_resolves (query : Query) (leg : Leg) (rest : list Leg)
    (target : JsVal) (state : ProbeState) (reqOptions : RequestOptions)
    (pre later : list (Z * Event)) (now : Z) (answer : IncomingMessage) (s : string) :
  requestOptions target query = inr reqOptions ->
  events leg = pre ++ (now, delivered answer) :: later ->
  Forall (fun entry => isSocketEvent entry.2) pre ->
  headers answer !! "content-length" = Some s ->
  digitsOnly s = false ->
  exists (result : ProbeResult) (state' : ProbeState),
    probeHttp (leg :: rest) target query state = (Resolved result, state')
    /\ metricValues "httpContentLength" (metrics result) = [OVal JNull]
    /\ success result = false
    /\ failures result = [].
Proof.
  intros Hreq Hev Hpre Hh Hs.
  assert (delivered answer = EvError) as Hd by (unfold delivered; by rewrite Hh, Hs).
  destruct (runEvents_socket pre ((now, EvError) :: later) Hpre (initialLeg leg)
              (pushRequest state reqOptions)) as (l1 & st1 & Hrun & _ & _).
  cbn [runEvents] in Hrun.
  eexists _, st1. split; [|split; [|split]].
  - cbn [probeHttp]. rewrite Hreq, Hev, Hd, Hrun. unfold getHttpMetrics. reflexivity.
  - cbn [metrics]. apply contentLength_metric.
  - reflexivity.
  - reflexivity.
Qed.

(** The content length of a response that the parser delivers. *)
Lemma contentLength_receivable (r : IncomingMessage) :
  receivable r ->
  contentLength (Some r) = OVal JNull
  \/ exists n, 0 <= n /\ contentLength (Some r) = OVal (JNum (Fin n)).
Proof.
  intros Hr. unfold contentLength, header.
  destruct (headers r !! "content-length") as [s|] eqn:Hh; [|by left].
  cbn [truthy to_string]. destruct (String.eqb_spec s EmptyString) as [->|Hs]; [by left|].
  right. destruct (parseInt10_digits s Hs (Hr s Hh)) as [-> Hpos]. eauto.
Qed.

(** The response of a result is one that a leg delivered. *)
Lemma probeHttp_resolved_response (query : Query) (legs : list Leg) :
  forall (target : JsVal) (state state' : ProbeState) (result : ProbeResult),
    probeHttp legs target query state = (Resolved result, state') ->
    exists req res,
      getHttpMetrics query req res state' = inr result
      /\ forall r, res = Some r ->
           exists leg now r0 body_,
             leg ∈ legs /\ (now, EvResponse r0) ∈ events leg /\ r = withBody r0 body_.
Proof.
  induction legs as [|leg rest IH]; intros target state state' result Hrun.
  - cbn [probeHttp] in Hrun. destruct (requestOptions target query); discriminate.
  - cbn [probeHttp] in Hrun.
    destruct (requestOptions target query) as [e|reqOptions]; [discriminate|].
    destruct (runEvents _ _ _) as [[[res| |] l] state1] eqn:Hev; [| |discriminate].
    + destruct (truthy _ && _ && _).
      * destruct (IH _ _ _ _ Hrun) as (req & res' & Hg & Hfrom).
        exists req, res'. split; [exact Hg|]. intros r Hr.
        destruct (Hfrom r Hr) as (leg' & now & r0 & b & Hin & Hev' & ->).
        exists leg', now, r0, b. split; [apply elem_of_cons; by right|done].
      * destruct (getHttpMetrics _ _ _ _) as [e|r] eqn:Hg; [discriminate|].
        injection Hrun as <- <-. eexists _, _. split; [exact Hg|].
        intros r0 [= <-].
        destruct (runEvents_ended _ _ _ _ _ _ Hev) as [Hres|[now Hin]]; [discriminate|].
        exists leg, now, res, (legBody l). split; [apply elem_of_cons; by left|done].
    + destruct (getHttpMetrics _ _ _ _) as [e|r] eqn:Hg; [discriminate|].
      injection Hrun as <- <-. eexists _, _. split; [exact Hg|]. discriminate.
Qed.

End Chain.

(** * The claims *)

Section Claims.
Context `{Platform}.

(** C2. A redirect is followed exactly when the flag that
    [parseBooleanQueryParam] reads from [ctx.query.followRedirects] (with
    the default [true]) holds and the status code of the leg is 301 or 302.
    When it is followed, the redirect counter of the state grows by
    exactly 1, nothing else of the state changes, and the probe is called
    again on the [location] header with that state.  So, for a chain
    started on the empty state that resolves, the [httpRedirects] metric is
    the number of 301 and 302 responses followed (one less than the
    requests issued); when the flag is off it is 0, one request is issued,
    and the status code reported is that of the first response, a 301 or
    302 included. *)
Theorem redirects_followed_and_counted (query : Query) :
  let flag := parseBooleanQueryParam (qget query "followRedirects") (JBool true) in
  let follow := truthy flag in
  (parseBooleanQueryParam JUndefined (JBool true) = JBool true ->
   qget query "followRedirects" = JUndefined -> follow = true)
  /\ (forall (leg : Leg) (rest : list Leg) (target : JsVal) (state : ProbeState)
             (reqOptions : RequestOptions) (res : IncomingMessage) (l : LegState)
             (state1 : ProbeState),
        requestOptions target query = inr reqOptions ->
        runEvents (events leg) (initialLeg leg) (pushRequest state reqOptions)
        = (Ended res, l, state1) ->
        probeHttp (leg :: rest) target query state
        = if follow && bool_decide (statusCode res = 301 \/ statusCode res = 302)
          then probeHttp rest (header res "location") query
                         (increaseState state1 "redirects" (Fin 1))
          else (settle (getHttpMetrics query (request leg)
                          (Some (withBody res (legBody l))) state1), state1))
  /\ (forall state : ProbeState,
        redirectCount (increaseState state "redirects" (Fin 1)) = redirectCount state + 1
        /\ requests (increaseState state "redirects" (Fin 1)) = requests state
        /\ forall key, key <> "redirects" ->
             counters (increaseState state "redirects" (Fin 1)) !! key
             = counters state !! key)
  /\ (forall (legs : list Leg) (target : JsVal) (result : ProbeResult)
             (state' : ProbeState),
        probeHttp legs target query emptyState = (Resolved result, state') ->
        metricValues "httpRedirects" (metrics result)
        = [OVal (JNum (Fin (followedRedirects follow legs)))]
        /\ Z.of_nat (length (requests state')) = followedRedirects follow legs + 1
        /\ (follow = false ->
            metricValues "httpRedirects" (metrics result) = [OVal (JNum (Fin 0))]
            /\ length (requests state') = 1%nat
            /\ forall leg rest s,
                 legs = leg :: rest -> legStatus None (events leg) = Some s ->
                 metricValues "httpStatusCode" (metrics result) = [OVal (JNum (Fin s))])).
Proof.
  intros flag follow.
  assert (truthy (followRedirects query) = follow) as Hflag by reflexivity.
  split; [|split; [|split]].
  - intros Hdefault Hq. unfold follow, flag. rewrite Hq, Hdefault. reflexivity.
  - intros leg rest target state reqOptions res l state1 Hreq Hrun.
    rewrite <- Hflag. by apply (probeHttp_step _ _ _ _ _ reqOptions).
  - intros state. split; [apply redirectCount_increase|]. split; [reflexivity|].
    intros key Hkey. by apply increaseState_sameAt.
  - intros legs target result state' Hrun.
    pose proof Hrun as Hrun0.
    apply probeHttp_redirects in Hrun as (H1 & H2 & H3).
    change (redirectCount emptyState) with 0 in H1.
    change (Z.of_nat (length (requests emptyState))) with 0 in H2.
    rewrite Hflag in H1, H2. rewrite H3, H1, Z.add_0_l.
    split; [reflexivity|]. split; [lia|].
    intros Hf.
    assert (followedRedirects follow legs = 0) as Hzero.
    { rewrite Hf. destruct legs as [|leg rest]; [reflexivity|].
      cbn [followedRedirects]. destruct (legStatus None (events leg)); reflexivity. }
    rewrite Hzero in *. split; [reflexivity|]. split; [lia|].
    intros leg rest s -> Hs.
    cbn [probeHttp] in Hrun0.
    destruct (requestOptions target query) as [e|reqOptions]; [discriminate|].
    pose proof (runEvents_status (events leg) (initialLeg leg)
                  (pushRequest emptyState reqOptions)) as Hst.
    cbn [initialLeg legRes fmap option_fmap option_map] in Hst. rewrite Hs in Hst.
    destruct (runEvents _ _ _) as [[[res| |] l] state1]; cbn [fst] in Hst;
      try discriminate.
    injection Hst as ->. rewrite Hflag, Hf in Hrun0. cbn [andb] in Hrun0.
    destruct (getHttpMetrics _ _ _ _) as [e|r] eqn:Hg; [discriminate|].
    injection Hrun0 as <- _.
    rewrite (getHttpMetrics_metrics _ _ _ _ _ Hg), statusCode_metric. reflexivity.
Qed.

(** C3. When the ['error'] handler of a leg runs, the probe does not throw:
    its promise resolves with [success = false], an empty list of failures
    (no validator runs without a response), and the metrics that need no
    response, assembled from the state, together with [httpContentLength],
    [httpStatusCode] and [httpVersion] at [null]. *)
Theorem transport_failure_outcome (legs : list Leg) (leg : Leg) (target : JsVal)
    (query : Query) (state : ProbeState) (reqOptions : RequestOptions)
    (l : LegState) (state' : ProbeState) :
  requestOptions target query = inr reqOptions ->
  runEvents (events leg) (initialLeg leg) (pushRequest state reqOptions)
  = (Errored, l, state') ->
  exists result : ProbeResult,
    probeHttp (leg :: legs) target query state = (Resolved result, state')
    /\ success result = false
    /\ failures result = []
    /\ metrics result
       = [ buildMetric "httpCertificateExpiry" "datetime"
             (getHttpCertificateExpiry (request leg))
             "Expiration date of the SSL certificate" [];
           buildMetric "httpContentLength" "bytes" (OVal JNull)
             "Length of the HTTP response entity in bytes" [] ]
         ++ List.map durationMetric (pickPhases state')
         ++ [ buildMetric "httpRedirects" "quantity"
                (OVal (JNum (or_zero (counters state' !! "redirects"))))
                "Number of times HTTP 301 or 302 redirects were followed" [];
              buildMetric "httpSecure" "boolean"
                (OVal (JBool (negb (prop_undefined (counters state' !! "tlsHandshake")))))
                "Indicates whether SSL/TLS was used for the final request" [];
              buildMetric "httpStatusCode" "number" (OVal JNull)
                "HTTP status code of the final response" [];
              buildMetric "httpVersion" "number" (OVal JNull)
                "HTTP version of the response" [] ]
    /\ metricValues "httpStatusCode" (metrics result) = [OVal JNull]
    /\ metricValues "httpVersion" (metrics result) = [OVal JNull].
Proof.
  intros Hreq Hrun.
  eexists. split.
  - cbn [probeHttp]. rewrite Hreq. rewrite Hrun. cbn [getHttpMetrics settle]. reflexivity.
  - cbn [success failures metrics].
    repeat split; try reflexivity.
    + apply statusCode_metric.
    + apply version_metric.
Qed.

(** C4, as amended. The status-code validator reads its expected set as texts, each a
    class (the hundreds digit 1 to 5 followed by [xx], in either case) or a
    literal code; the set is the two classes [2xx] and [3xx] when no
    expectation is given.  A class of digit [n] matches when the status
    code is between [100 n] and [100 n + 99], a literal when it converts
    to the status code.  The validator never throws, pushes nothing when a
    text of the set matches, and pushes exactly one failure, of cause
    [invalidHttpStatusCode], when none does. *)
Theorem status_code_validator (res : IncomingMessage) (query : Query)
    (fs : list Failure) :
  let actual_ := statusCode res in
  let expected_ := expectedStatusCodes (qget query "expectHttpStatusCode") in
  let matched :=
    exists code : string,
      JStr code ∈ expected_
      /\ ((exists n, 1 <= n <= 5 /\ isClass n code
                     /\ 100 * n <= actual_ <= 100 * n + 99)
          \/ string_to_number code = Fin actual_) in
  (qget query "expectHttpStatusCode" = JUndefined -> expected_ = [JStr "2xx"; JStr "3xx"])
  /\ exists s' : VState,
       validateHttpStatusCode res {| vquery := query; vfailures := fs |} = inr (tt, s')
       /\ ((matched /\ vfailures s' = fs)
           \/ (~ matched
               /\ exists f, vfailures s' = fs ++ [f] /\ cause f = "invalidHttpStatusCode")).
Proof.
  intros actual_ expected_ matched.
  split; [intros E; unfold expected_; rewrite E; reflexivity|].
  pose proof (statusCodeLoop_spec actual_ expected_) as Hspec.
  change matched with (exists code, JStr code ∈ expected_ /\ codeMatches actual_ code).
  unfold validateHttpStatusCode. fold actual_.
  unfold vbind at 1, vget at 1. cbn [vquery].
  subst expected_.
  assert (forall (codes : list JsVal) (s0 : VState),
            (statusCodeLoop actual_ codes = true
             <-> exists code, JStr code ∈ codes /\ codeMatches actual_ code) ->
            exists s' : VState,
              (if statusCodeLoop actual_ codes then vret tt
               else
                 let* v' := vget "expectHttpStatusCode" in
                 vpush {| actual := Some (OVal (JNum (Fin (statusCode res))));
                          cause := "invalidHttpStatusCode";
                          description :=
                            "Expected HTTP status code to match one of the following: "
                            +:+ join_vals ", " codes;
                          expected := Some (OVal (JArr (toArray v'))) |}) s0
              = inr (tt, s')
              /\ (((exists code, JStr code ∈ codes /\ codeMatches actual_ code)
                   /\ vfailures s' = vfailures s0)
                  \/ (~ (exists code, JStr code ∈ codes /\ codeMatches actual_ code)
                      /\ exists f, vfailures s' = vfailures s0 ++ [f]
                                   /\ cause f = "invalidHttpStatusCode"))) as Hend.
  { intros codes s0 Hs. destruct (statusCodeLoop actual_ codes) eqn:Hloop.
    - eexists. split; [reflexivity|]. left. split; [by apply Hs|reflexivity].
    - eexists. split; [reflexivity|]. right.
      split; [intros Hm; apply Hs in Hm; congruence|]. cbn [vfailures]. eauto. }
  destruct (qget query "expectHttpStatusCode") as [| |b|n|s|items] eqn:Hq;
    cbn [truthy expectedStatusCodes] in *.
  - unfold vbind, vret at 1 2, vget. cbn [vquery].
    apply (Hend _ {| vquery := query; vfailures := fs |}), Hspec.
  - unfold vbind, vret at 1 2, vget. cbn [vquery].
    apply (Hend _ {| vquery := query; vfailures := fs |}), Hspec.
  - destruct b; unfold vbind, vret at 1 2, vget; cbn [vquery];
      apply (Hend _ {| vquery := query; vfailures := fs |}), Hspec.
  - destruct n as [|z]; [|destruct (z =? 0)]; cbn [negb] in *;
      unfold vbind, vret at 1 2, vget; cbn [vquery];
      apply (Hend _ {| vquery := query; vfailures := fs |}), Hspec.
  - destruct (String.eqb s EmptyString); cbn [negb] in *;
      unfold vbind, vret at 1 2, vget; cbn [vquery];
      apply (Hend _ {| vquery := query; vfailures := fs |}), Hspec.
  - destruct items as [|c r].
    + unfold vbind, vset, vret at 1, vget. cbn [vquery vfailures].
      apply (Hend _ {| vquery := _; vfailures := fs |}), Hspec.
    + unfold vbind, vret at 1, vget. cbn [vquery].
      apply (Hend _ {| vquery := query; vfailures := fs |}), Hspec.
Qed.

(** C6. On a leg whose socket events come in their order (the lookup if
    any, the connection, the TLS handshake if any), reached with no first
    byte recorded yet, the first ['readable'] event of the response records
    the first-byte interval from the latest of the TLS handshake, the
    connection and the start of the chain; and whatever events and legs
    follow, the state holds this value at the end: it is recorded once. *)
Theorem first_byte_recorded_once (query : Query) (target : JsVal) (state : ProbeState)
    (reqOptions : RequestOptions) (leg : Leg) (rest : list Leg)
    (chainStart : Z) (lookupAt : option Z) (connectAt : Z) (secureAt : option Z)
    (responseAt readableAt : Z) (res : IncomingMessage) (later : list (Z * Event)) :
  requestOptions target query = inr reqOptions ->
  counters state !! "firstByte" = None ->
  events leg = socketEvents lookupAt connectAt secureAt
               ++ (responseAt, EvResponse res) :: (readableAt, EvReadable) :: later ->
  0 < chainStart <= startTime leg ->
  startTime leg <= connectAt ->
  (forall t, secureAt = Some t -> connectAt <= t) ->
  counters (probeHttp (leg :: rest) target query state).2 !! "firstByte"
  = Some (Fin (readableAt - latest chainStart (option_list secureAt ++ [connectAt]))).
Proof.
  intros Hreq Hnone Hev Hstart Hconn Hsec.
  apply (probeHttp_firstByte_of_leg _ _ _ _ _ _ _ Hreq).
  rewrite Hev. unfold socketEvents.
  assert (forall st0, counters st0 !! "firstByte" = None ->
            forall l0, tcpConnectionAt (legTimes l0) = None ->
            tlsHandshakeAt (legTimes l0) = None ->
            counters (runEvents ([(connectAt, EvConnect)]
                        ++ match secureAt with
                           | Some t => [(t, EvSecureConnect)]
                           | None => []
                           end
                        ++ (responseAt, EvResponse res) :: (readableAt, EvReadable) :: later)
                        l0 st0).2 !! "firstByte"
            = Some (Fin (readableAt - latest chainStart (option_list secureAt ++ [connectAt]))))
    as Hcore.
  { intros st0 Hst0 l0 Htcp Htls.
    destruct secureAt as [t|]; cbn [app runEvents onConnect onSecureConnect withTimes
                                    legTimes legRes legBody tcpConnectionAt tlsHandshakeAt
                                    start dnsLookupAt firstByteAt].
    - unfold onReadable. cbn [increaseState counters].
      rewrite !increase_lookup_ne by done. rewrite Hst0. cbn [prop_undefined].
      apply runEvents_firstByte_kept.
      cbn [fst snd withTimes legTimes increaseState counters tlsHandshakeAt
           tcpConnectionAt firstByteAt].
      rewrite increase_lookup, !increase_lookup_ne by done. rewrite Hst0.
      pose proof (Hsec t eq_refl) as Ht.
      assert ((t =? 0) = false) as Hnz by (apply Z.eqb_neq; lia).
      cbn [time_or time_num or_zero num_sub num_add]. rewrite Hnz.
      cbn [time_num num_sub num_add].
      change (latest chainStart (option_list (Some t) ++ [connectAt]))
        with (Z.max t (Z.max connectAt chainStart)).
      do 2 f_equal. lia.
    - unfold onReadable. cbn [increaseState counters].
      rewrite !increase_lookup_ne by done. rewrite Hst0. cbn [prop_undefined].
      apply runEvents_firstByte_kept.
      cbn [fst snd withTimes legTimes increaseState counters tlsHandshakeAt
           tcpConnectionAt firstByteAt].
      rewrite increase_lookup, !increase_lookup_ne by done. rewrite Hst0.
      rewrite Htls.
      cbn [time_or time_num or_zero num_sub num_add].
      change (latest chainStart (option_list None ++ [connectAt]))
        with (Z.max connectAt chainStart).
      do 2 f_equal. lia. }
  rewrite <- !app_assoc.
  destruct lookupAt as [t|].
  - cbn [app runEvents onLookup]. apply Hcore; [|done|done].
    cbn [increaseState counters]. by rewrite increase_lookup_ne.
  - apply Hcore; done.
Qed.

(** C7. The HTTP parser of Node.js delivers a response only when its
    [content-length] header is missing or a text of digits; an answer with
    any other such header never becomes a response: the request emits
    ['error'], and the probe goes on without response.  The
    [httpContentLength] metric is [null] without a response and when the
    header is missing or empty; otherwise it is the integer that the
    digits write, never [NaN].  The header never aborts the assembly:
    [getHttpMetrics] throws only when a validator throws.  So every result
    of a chain whose legs deliver such responses has a content length that
    is [null] or a number; and on an answer whose header is not a text of
    digits the probe resolves, without success and without failure, with
    the content length [null]. *)
Theorem content_length_metric (query : Query) (req : ClientRequest)
    (res : option IncomingMessage) (state : ProbeState) :
  (forall r, res = Some r -> receivable r) ->
  (forall result, getHttpMetrics query req res state = inr result ->
     metricValues "httpContentLength" (metrics result) = [contentLength res])
  /\ (res = None -> contentLength res = OVal JNull)
  /\ (forall r, res = Some r ->
        headers r !! "content-length" = None \/ headers r !! "content-length" = Some EmptyString ->
        contentLength res = OVal JNull)
  /\ (forall r s, res = Some r -> headers r !! "content-length" = Some s -> s <> EmptyString ->
        0 <= decimal s
        /\ contentLength res <> OVal (JNum NaN)
        /\ (exact (decimal s) -> contentLength res = OVal (JNum (Fin (decimal s)))))
  /\ ((exists e, getHttpMetrics query req res state = inl e)
      <-> exists r e, res = Some r
                      /\ validators r state {| vquery := query; vfailures := [] |} = inl e)
  /\ (forall (legs : list Leg) (target : JsVal) (state0 state' : ProbeState)
             (result : ProbeResult),
        Forall receivableLeg legs ->
        probeHttp legs target query state0 = (Resolved result, state') ->
        metricValues "httpContentLength" (metrics result) = [OVal JNull]
        \/ exists n, 0 <= n
                     /\ metricValues "httpContentLength" (metrics result)
                        = [OVal (JNum (Fin n))])
  /\ (forall (leg : Leg) (rest : list Leg) (target : JsVal) (state0 : ProbeState)
             (reqOptions : RequestOptions) (pre later : list (Z * Event)) (now : Z)
             (answer : IncomingMessage) (s : string),
        requestOptions target query = inr reqOptions ->
        events leg = pre ++ (now, delivered answer) :: later ->
        Forall (fun entry => isSocketEvent entry.2) pre ->
        headers answer !! "content-length" = Some s ->
        digitsOnly s = false ->
        exists (result : ProbeResult) (state' : ProbeState),
          probeHttp (leg :: rest) target query state0 = (Resolved result, state')
          /\ metricValues "httpContentLength" (metrics result) = [OVal JNull]
          /\ success result = false
          /\ failures result = []).
Proof.
  intros Hrec. split; [|split; [|split; [|split; [|split; [|split]]]]].
  - intros result Hg. rewrite (getHttpMetrics_metrics _ _ _ _ _ Hg).
    apply contentLength_metric.
  - intros ->. reflexivity.
  - intros r -> [Hh|Hh]; unfold contentLength, header; rewrite Hh; reflexivity.
  - intros r s -> Hh Hs. unfold contentLength, header. rewrite Hh. cbn [truthy to_string].
    destruct (String.eqb_spec s EmptyString); [contradiction|]. cbn [negb].
    destruct (parseInt10_digits s Hs (Hrec r eq_refl s Hh)) as [-> Hpos].
    split; [exact Hpos|]. split; [discriminate|done].
  - unfold getHttpMetrics. destruct res as [r|].
    + destruct (validators r state _) as [e|[[] s]] eqn:Hv.
      * split; intros _; eauto.
      * split; [intros [e He]; discriminate|].
        intros (r' & e & [= <-] & Hv'). congruence.
    + split; [intros [e He]; discriminate|]. intros (r & e & Hr & _). discriminate.
  - intros legs target state0 state' result Hlegs Hrun.
    destruct (probeHttp_resolved_response _ _ _ _ _ _ Hrun) as (req' & res' & Hg & Hfrom).
    rewrite (getHttpMetrics_metrics _ _ _ _ _ Hg), contentLength_metric.
    destruct res' as [r|]; [|by left].
    destruct (Hfrom r eq_refl) as (leg & now & r0 & b & Hin & Hev & ->).
    assert (receivable (withBody r0 b)) as Hr.
    { apply (proj1 (Forall_forall _ _) Hlegs leg Hin now r0 Hev). }
    destruct (contentLength_receivable _ Hr) as [->|(n & Hn & ->)]; [by left|].
    right. eauto.
  - intros leg rest target state0 reqOptions pre later now answer s.
    apply refused_answer_resolves.
Qed.


(** The validators never write the response or the state.  When they run
    without throwing, a second run on the query the first run leaves
    pushes the same failures and leaves the same query; and the first run
    leaves the query as it found it unless [expectHttpStatusCode] is an
    empty array. *)
Theorem validators_rerun (query : Query) (res : IncomingMessage) (state : ProbeState)
    (s1 : VState) :
  validators res state {| vquery := query; vfailures := [] |} = inr (tt, s1) ->
  validators res state {| vquery := vquery s1; vfailures := [] |} = inr (tt, s1)
  /\ (qget query "expectHttpStatusCode" <> JArr [] -> vquery s1 = query).
Proof.
  unfold validators. intros Hrun.
  assert (forall (m k : V unit) (q : Query) (fs : list Failure) (s' : VState),
            readOnlyOff "expectHttpStatusCode" m ->
            (m ;; k) {| vquery := q; vfailures := fs |} = inr (tt, s') ->
            exists fs', m {| vquery := q; vfailures := fs |}
                        = inr (tt, {| vquery := q; vfailures := fs' |})
                        /\ k {| vquery := q; vfailures := fs' |} = inr (tt, s')
                        /\ forall q', agreeOff "expectHttpStatusCode" q q' ->
                             m {| vquery := q'; vfailures := fs |}
                             = inr (tt, {| vquery := q'; vfailures := fs' |})) as Hstep.
  { intros m k q fs s' Hm Hmk. unfold vbind in Hmk.
    assert (forall q', agreeOff "expectHttpStatusCode" q q' ->
              exists fs', m {| vquery := q; vfailures := fs |}
                          = inr (tt, {| vquery := q; vfailures := fs' |})
                          /\ m {| vquery := q'; vfailures := fs |}
                             = inr (tt, {| vquery := q'; vfailures := fs' |})) as Hany.
    { intros q' Hq'. destruct (Hm q q' fs Hq') as [(e & He & _)|Hok]; [|exact Hok].
      rewrite He in Hmk. discriminate. }
    destruct (Hany q) as (fs' & E & _); [done|].
    exists fs'. rewrite E in Hmk. split; [exact E|]. split; [exact Hmk|].
    intros q' Hq'. destruct (Hany q' Hq') as (fs'' & E' & E''). congruence. }
  apply Hstep in Hrun as (fs1 & _ & Hrun & R1); [|apply validateHttpRedirects_readOnly].
  apply Hstep in Hrun as (fs2 & _ & Hrun & R2); [|apply validateHttpRedirectTarget_readOnly].
  apply Hstep in Hrun as (fs3 & _ & Hrun & R3); [|apply validateHttpResponseBody_readOnly].
  apply Hstep in Hrun as (fs4 & _ & Hrun & R4); [|apply validateHttpSecurity_readOnly].
  unfold vbind in Hrun.
  destruct (validateHttpStatusCode_runs res query fs4)
    as (q1 & fs5 & E5 & E5' & Hagree & Hsame).
  rewrite E5 in Hrun.
  destruct (validateHttpVersion_readOnly res q1 q1 fs5) as [(e & He & _)|(fs6 & E6 & _)];
    [done|rewrite He in Hrun; discriminate|].
  rewrite E6 in Hrun. injection Hrun as <-. cbn [vquery].
  split; [|exact Hsame].
  unfold vbind.
  rewrite (R1 q1 Hagree), (R2 q1 Hagree), (R3 q1 Hagree), (R4 q1 Hagree), E5', E6.
  reflexivity.
Qed.

(** C10. When [expectHttpSecure] is an array, the security validator
    reads its last item only: it pushes what it pushes on the array of
    that item alone.  The item, through [parseBooleanQueryParam] with the
    default [null], is the expectation: [true] fails a chain without TLS
    handshake, [false] fails a chain with one, anything else fails
    nothing. *)
Theorem security_expectation_is_last_item (query : Query) (state : ProbeState)
    (fs : list Failure) (earlier : list JsVal) (lastItem : JsVal) :
  let run := fun v : JsVal =>
    failuresOf (validateHttpSecurity state
                  {| vquery := <["expectHttpSecure" := v]> query; vfailures := fs |}) in
  let expectSecure := parseBooleanQueryParam lastItem JNull in
  let secure := negb (prop_undefined (counters state !! "tlsHandshake")) in
  run (JArr (earlier ++ [lastItem])) = run (JArr [lastItem])
  /\ (expectSecure = JBool true -> secure = false ->
      exists f, run (JArr (earlier ++ [lastItem])) = Some (fs ++ [f])
                /\ cause f = "insecureHttp")
  /\ (expectSecure = JBool false -> secure = true ->
      exists f, run (JArr (earlier ++ [lastItem])) = Some (fs ++ [f])
                /\ cause f = "unexpectedlySecureHttp")
  /\ ((expectSecure = JBool true -> secure = true) ->
      (expectSecure = JBool false -> secure = false) ->
      run (JArr (earlier ++ [lastItem])) = Some fs).
Proof.
  intros run expectSecure secure.
  assert (forall items, run (JArr (items ++ [lastItem]))
            = if is_true expectSecure && negb secure then
                Some (fs ++ [{| actual := None; cause := "insecureHttp";
                                description := "Expected the server to use SSL/TLS for the request (or final redirect)";
                                expected := None |}])
              else if is_false expectSecure && secure then
                Some (fs ++ [{| actual := None; cause := "unexpectedlySecureHttp";
                                description := "Did not expect the server to use SSL/TLS for the request (or final redirect)";
                                expected := None |}])
              else Some fs) as Hrun.
  { intros items. unfold run, validateHttpSecurity, vbind, vget.
    cbn [vquery]. rewrite qget_insert. cbn [toArray].
    rewrite last_snoc. change (default JUndefined (Some lastItem)) with lastItem.
    fold expectSecure.
    unfold secure. rewrite negb_involutive.
    destruct (is_true expectSecure && prop_undefined _); [reflexivity|].
    destruct (is_false expectSecure && negb (prop_undefined _)); reflexivity. }
  split; [|split; [|split]].
  - rewrite (Hrun earlier). exact (eq_sym (Hrun [])).
  - intros He Hs. rewrite Hrun, He, Hs. cbn. eauto.
  - intros He Hs. rewrite Hrun, He, Hs. cbn. eauto.
  - intros Ht Hf. rewrite Hrun.
    destruct expectSecure as [| |[|]| | |]; cbn [is_true is_false andb]; try reflexivity.
    + rewrite Ht by reflexivity. reflexivity.
    + rewrite Hf by reflexivity. reflexivity.
Qed.

End Claims.

(** * More of utils.ts, config.ts and http.js *)

(** ** Texts and lists of characters *)

Lemma chars_text (l : list ascii) : TestPlatform.chars (TestPlatform.text l) = l.
Proof. apply list_ascii_of_string_of_list_ascii. Qed.

Lemma text_chars (s : string) : TestPlatform.text (TestPlatform.chars s) = s.
Proof. apply string_of_list_ascii_of_string. Qed.

Lemma chars_app (a b : string) :
  TestPlatform.chars (a +:+ b) = TestPlatform.chars a ++ TestPlatform.chars b.
Proof.
  unfold TestPlatform.chars. induction a as [|c a IH]; [done|].
  change (String c a +:+ b) with (String c (a +:+ b)).
  cbn [list_ascii_of_string]. by rewrite IH.
Qed.

Lemma text_app (a b : list ascii) :
  TestPlatform.text (a ++ b) = TestPlatform.text a +:+ TestPlatform.text b.
Proof.
  unfold TestPlatform.text. induction a as [|c a IH]; [done|].
  cbn [app string_of_list_ascii]. by rewrite IH.
Qed.

(** ** increase *)

(** X1. [increase], on counters and increases that stay in the range
    where numbers are exact: two increases of one counter by integers add
    up; increases of two different counters commute; and after an increase
    by [NaN] the next increase starts again from zero, [NaN || 0] being
    [0]. *)
Theorem increase_composes (c : gmap string num) (key other : string) (a b : Z) (x y : num) :
  exactCounters c ->
  (exact a -> exact b -> exact (a + b) ->
   exactCounters (increase c key (Fin a)) ->
   exactCounters (increase c key (Fin (a + b))) ->
   increase (increase c key (Fin a)) key (Fin b) = increase c key (Fin (a + b)))
  /\ (key <> other -> exactNum x -> exactNum y ->
      exactCounters (increase (increase c key x) other y) ->
      increase (increase c key x) other y = increase (increase c other y) key x)
  /\ (exact b ->
      increase (increase c key NaN) key (Fin b) = <[key := Fin b]> c).
Proof.
  intros _. split; [|split].
  - intros _ _ _ _ _. unfold increase. rewrite lookup_insert_eq, insert_insert_eq.
    f_equal. destruct (c !! key) as [[|z]|]; cbn; f_equal; lia.
  - intros Hne _ _ _. unfold increase.
    rewrite !lookup_insert_ne by done. by apply insert_insert_ne.
  - intros _. unfold increase. rewrite lookup_insert_eq, insert_insert_eq.
    f_equal. destruct (c !! key) as [[|z]|]; reflexivity.
Qed.

Section UtilsFacts.
Import TestPlatform.

Lemma starts_spec (p l : list ascii) :
  starts p l = true <-> exists post, l = p ++ post.
Proof.
  revert l. induction p as [|a p IH]; intros l; cbn [starts].
  - split; [intros _; by exists l|done].
  - destruct l as [|b l]; [split; [done|intros [post Hp]; discriminate]|].
    rewrite andb_true_iff, Ascii.eqb_eq, IH. split.
    + intros [-> [post ->]]. by exists post.
    + intros [post [= -> ->]]. split; [done|by exists post].
Qed.

Lemma contains_spec (p l : list ascii) :
  contains p l = true <-> exists pre post, l = pre ++ p ++ post.
Proof.
  induction l as [|b l IH]; cbn [contains]; rewrite orb_true_iff, starts_spec.
  - split.
    + intros [[post Hp]|Hf]; [|done]. by exists [], post.
    + intros (pre & post & Hl). left.
      destruct pre; [by exists post|discriminate].
  - rewrite IH. split.
    + intros [[post Hp]|(pre & post & ->)]; [by exists [], post|].
      by exists (b :: pre), post.
    + intros (pre & post & Hl). destruct pre as [|c pre].
      * left. by exists post.
      * right. injection Hl as -> ->. by exists pre, post.
Qed.

(** The alternatives [yes] and [true$] of [/^1|y|yes|t|true$/i] add
    nothing to [y] and [t]. *)
Lemma matchesTrue_spec (s : string) :
  matchesTrue s
  = starts (chars "1") (List.map lower (chars s))
    || contains (chars "y") (List.map lower (chars s))
    || contains (chars "t") (List.map lower (chars s)).
Proof.
  unfold matchesTrue. set (l := List.map lower (chars s)).
  destruct (starts (chars "1") l); [done|].
  destruct (contains (chars "y") l) eqn:Hy.
  { cbn. by destruct (contains (chars "yes") l). }
  assert (contains (chars "yes") l = false) as ->.
  { apply not_true_is_false. intros (pre & post & Hl)%contains_spec.
    assert (contains (chars "y") l = true); [|congruence].
    apply contains_spec. exists pre, (chars "es" ++ post). by rewrite Hl. }
  cbn [orb]. destruct (contains (chars "t") l) eqn:Ht; [done|].
  apply not_true_is_false. unfold ends. intros [post Hl]%starts_spec.
  assert (contains (chars "t") l = true); [|congruence].
  apply contains_spec. exists (rev post), (chars "rue").
  apply (f_equal (@rev ascii)) in Hl. rewrite rev_involutive in Hl.
  rewrite Hl, rev_app_distr. reflexivity.
Qed.

Lemma lowercase_chars (s : string) :
  List.map lower (chars s) = chars (lowercase s).
Proof. unfold lowercase. by rewrite chars_text. Qed.

Lemma matchesWord_spec (words : list string) (s : string) :
  matchesWord words s = true <-> lowercase s ∈ words.
Proof.
  unfold matchesWord. rewrite existsb_exists. split.
  - intros (w & Hin & ->%String.eqb_eq). by apply list_elem_of_In.
  - intros Hin. exists (lowercase s). split; [by apply list_elem_of_In|apply String.eqb_refl].
Qed.

(** A true string parses to [true], a false string to [false]. *)
Lemma parseBooleanParam_true_string (value defaultValue : JsVal) :
  isTrueString value = true -> parseBooleanParam value defaultValue = JBool true.
Proof.
  destruct value as [| | | |s|]; try discriminate.
  cbn [isTrueString parseBooleanParam to_string].
  intros Hw%matchesWord_spec. f_equal.
  rewrite matchesTrue_spec, lowercase_chars.
  repeat (apply elem_of_cons in Hw as [Hw|Hw]); try (by apply elem_of_nil in Hw);
    rewrite Hw; reflexivity.
Qed.

Lemma parseBooleanParam_false_string (value defaultValue : JsVal) :
  isFalseString value = true -> parseBooleanParam value defaultValue = JBool false.
Proof.
  destruct value as [| | | |s|]; try discriminate.
  cbn [isFalseString parseBooleanParam to_string].
  intros Hw%matchesWord_spec. f_equal.
  rewrite matchesTrue_spec, lowercase_chars.
  repeat (apply elem_of_cons in Hw as [Hw|Hw]); try (by apply elem_of_nil in Hw);
    rewrite Hw; reflexivity.
Qed.

(** X2. [parseBooleanParam]: the default is returned for [undefined]
    only; any other value gives a boolean; a text parses to [true] exactly
    when, its letters in lower case, it starts with [1] or contains [y] or
    [t] (the regular expression is not anchored as a whole); the true
    strings parse to [true] and the false strings to [false]. *)
Theorem parseBooleanParam_reads (value defaultValue : JsVal) :
  (value = JUndefined -> parseBooleanParam value defaultValue = defaultValue)
  /\ (value <> JUndefined -> exists b, parseBooleanParam value defaultValue = JBool b)
  /\ (forall s, value = JStr s ->
        (parseBooleanParam value defaultValue = JBool true
         <-> (exists rest, lowercase s = "1" +:+ rest)
             \/ (exists pre post, lowercase s = pre +:+ "y" +:+ post)
             \/ (exists pre post, lowercase s = pre +:+ "t" +:+ post)))
  /\ (isTrueString value = true -> parseBooleanParam value defaultValue = JBool true)
  /\ (isFalseString value = true -> parseBooleanParam value defaultValue = JBool false).
Proof.
  split; [by intros ->|]. split; [destruct value; intros Hv; try done; cbn; eauto|].
  assert (forall s, matchesTrue s = true
            <-> (exists rest, lowercase s = "1" +:+ rest)
                \/ (exists pre post, lowercase s = pre +:+ "y" +:+ post)
                \/ (exists pre post, lowercase s = pre +:+ "t" +:+ post)) as Hspec.
  { intros s. rewrite matchesTrue_spec, !orb_true_iff, starts_spec, !contains_spec.
    rewrite lowercase_chars.
    assert (forall (p : string) (pre post : list ascii),
              chars (lowercase s) = pre ++ chars p ++ post
              <-> lowercase s = text pre +:+ p +:+ text post) as Hconv.
    { intros p pre post. split.
      - intros Hc. rewrite <- (text_chars (lowercase s)), Hc, !text_app, text_chars. done.
      - intros ->. by rewrite !chars_app, !chars_text. }
    split.
    - intros [[[post Hp]|(pre & post & Hp)]|(pre & post & Hp)].
      + left. exists (text post). apply (Hconv "1" [] post) in Hp. exact Hp.
      + right. left. exists (text pre), (text post). by apply Hconv.
      + right. right. exists (text pre), (text post). by apply Hconv.
    - intros [[rest Hp]|[(pre & post & Hp)|(pre & post & Hp)]].
      + left. left. exists (chars rest). rewrite Hp. by rewrite chars_app.
      + left. right. exists (chars pre), (chars post). by rewrite Hp, !chars_app.
      + right. exists (chars pre), (chars post). by rewrite Hp, !chars_app. }
  split; [|split].
  - intros s ->. cbn [parseBooleanParam to_string]. rewrite <- Hspec.
    split; [by intros [= ->]|by intros ->].
  - apply parseBooleanParam_true_string.
  - apply parseBooleanParam_false_string.
Qed.

(** No text is both a true string and a false string. *)
Lemma true_false_disjoint (value : JsVal) :
  isTrueString value = true -> isFalseString value = true -> False.
Proof.
  destruct value as [| | | |s|]; try discriminate. cbn [isTrueString isFalseString].
  intros Ht%matchesWord_spec Hf%matchesWord_spec.
  repeat (apply elem_of_cons in Ht as [Ht|Ht]); try (by apply elem_of_nil in Ht);
    rewrite Ht in Hf;
    repeat (apply elem_of_cons in Hf as [Hf|Hf]); try (by apply elem_of_nil in Hf);
    discriminate.
Qed.

(** X3. [validateBooleanOption]: the result is [undefined] for an absent
    option, the option itself for a boolean, and the boolean that a true or
    false string stands for; it throws exactly when the option is neither
    absent, nor a boolean, nor such a string; a boolean and its text
    validate to that boolean; on the texts it accepts it agrees with
    [parseBooleanParam]. *)
Theorem validateBooleanOption_reads (options : gmap string JsVal) (name_ : string) :
  let value := qget options name_ in
  (forall v, validateBooleanOption options name_ = inr v ->
     (v = JUndefined /\ value = JUndefined)
     \/ exists b, v = JBool b
                  /\ (value = JBool b
                      \/ (b = true /\ isTrueString value = true)
                      \/ (b = false /\ isFalseString value = true)))
  /\ ((exists e, validateBooleanOption options name_ = inl e)
      <-> value <> JUndefined /\ typeof value <> "boolean"
          /\ isTrueString value = false /\ isFalseString value = false)
  /\ (forall b, value = JBool b \/ value = JStr (to_string (JBool b)) ->
        validateBooleanOption options name_ = inr (JBool b))
  /\ (forall b s, value = JStr s -> validateBooleanOption options name_ = inr (JBool b) ->
        parseBooleanParam value JNull = JBool b).
Proof.
  intros value. unfold validateBooleanOption. fold value. clearbody value.
  split; [|split; [|split]].
  - intros v. destruct value as [| |b|n|s|items].
    + intros [= <-]. by left.
    + cbn. discriminate.
    + intros [= <-]. right. eauto.
    + cbn. discriminate.
    + destruct (isFalseString (JStr s)) eqn:Hf; [intros [= <-]; right; eauto 6|].
      destruct (isTrueString (JStr s)) eqn:Ht; [intros [= <-]; right; eauto 6|].
      discriminate.
    + cbn. discriminate.
  - destruct value as [| |b|n|s|items]; cbn [isFalseString isTrueString typeof].
    + split; [intros [e He]; discriminate|intros [? _]; done].
    + split; [|eauto]. intros _. repeat split; done.
    + split; [intros [e He]; discriminate|intros (_ & ? & _); done].
    + split; [|eauto]. intros _. repeat split; done.
    + destruct (matchesWord ["0"; "n"; "no"; "f"; "false"] s) eqn:Hf.
      { split; [intros [e He]; discriminate|intros (_ & _ & _ & ?); done]. }
      destruct (matchesWord ["1"; "y"; "yes"; "t"; "true"] s) eqn:Ht.
      { split; [intros [e He]; discriminate|intros (_ & _ & ? & _); done]. }
      split; [|eauto]. intros _. repeat split; done.
    + split; [|eauto]. intros _. repeat split; done.
  - intros b [Hb|Hb]; rewrite Hb; [done|]. destruct b; reflexivity.
  - intros b s Hs. rewrite Hs.
    destruct (isFalseString (JStr s)) eqn:Hf.
    { intros [= <-]. by apply parseBooleanParam_false_string. }
    destruct (isTrueString (JStr s)) eqn:Ht; [|discriminate].
    intros [= <-]. by apply parseBooleanParam_true_string.
Qed.

(** ** Printing and parsing integers *)

Lemma digit_val_char (x : N) :
  (x < 10)%N ->
  digit_val (pretty_N_char x) = Some (Z.of_N x)
  /\ is_space (pretty_N_char x) = false
  /\ pretty_N_char x <> "-"%char /\ pretty_N_char x <> "+"%char.
Proof.
  intros Hx.
  assert (x = 0 \/ x = 1 \/ x = 2 \/ x = 3 \/ x = 4 \/ x = 5 \/ x = 6 \/ x = 7
          \/ x = 8 \/ x = 9)%N as Hc by lia.
  destruct Hc as [->|[->|[->|[->|[->|[->|[->|[->|[->| ->]]]]]]]]];
    repeat split; (reflexivity || discriminate).
Qed.

Lemma pretty_N_go_app (x : N) :
  forall s t : string, pretty_N_go x s +:+ t = pretty_N_go x (s +:+ t).
Proof.
  induction (N.lt_wf_0 x) as [x _ IH]; intros s t.
  assert (x = 0 \/ 0 < x)%N as [->|Hx] by lia; [by rewrite !pretty_N_go_0|].
  rewrite (pretty_N_go_step x s), (pretty_N_go_step x (s +:+ t)) by done.
  rewrite IH by (apply N.div_lt; lia). reflexivity.
Qed.

(** The digits of a positive number, read back. *)
Lemma pretty_N_go_digits (x : N) :
  forall s : string,
    (0 < x)%N ->
    digits_prefix None (chars (pretty_N_go x s))
    = digits_prefix (Some (Z.of_N x)) (chars s)
    /\ exists (d : N) (rest : list ascii),
         (d < 10)%N /\ chars (pretty_N_go x s) = pretty_N_char d :: rest.
Proof.
  induction (N.lt_wf_0 x) as [x _ IH]; intros s Hx.
  rewrite pretty_N_go_step by done.
  assert (x `mod` 10 < 10)%N as Hm by (by apply N.mod_lt).
  destruct (digit_val_char _ Hm) as (Hd & _).
  assert (Z.of_N x = 10 * Z.of_N (x `div` 10) + Z.of_N (x `mod` 10)) as Hx10
    by (pose proof (N.div_mod x 10); lia).
  destruct (N.eq_0_gt_0_cases (x `div` 10)) as [Hz|Hp].
  - rewrite Hz, pretty_N_go_0. split.
    + cbn [chars list_ascii_of_string digits_prefix]. rewrite Hd. cbn [default].
      rewrite Hx10, Hz. reflexivity.
    + by exists (x `mod` 10)%N, (chars s).
  - destruct (IH (x `div` 10)%N (N.div_lt x 10 Hx eq_refl)
                (String (pretty_N_char (x `mod` 10)) s) Hp) as [Hv Hh].
    split; [|exact Hh].
    rewrite Hv. cbn [chars list_ascii_of_string digits_prefix]. rewrite Hd, Hx10.
    reflexivity.
Qed.

Lemma digits_prefix_stops (acc : option Z) (suffix : string) :
  (forall c rest, suffix = String c rest -> digit_val c = None) ->
  digits_prefix acc (chars suffix) = acc.
Proof.
  intros Hs. destruct suffix as [|c rest]; [done|].
  cbn. by rewrite (Hs c rest eq_refl).
Qed.

(** [parseInt] reads back an integer from its decimal text, whatever
    follows it that does not start with a digit. *)
Lemma parseInt10_pretty (z : Z) (suffix : string) :
  (forall c rest, suffix = String c rest -> digit_val c = None) ->
  parseInt10 (pretty z +:+ suffix) = Fin z.
Proof.
  intros Hs.
  assert (forall p : positive,
            exists (d : N) (rest : list ascii),
              (d < 10)%N
              /\ chars (pretty (N.pos p) +:+ suffix) = pretty_N_char d :: rest
              /\ digits_prefix None (pretty_N_char d :: rest) = Some (Z.pos p)) as Hpos.
  { intros p. unfold pretty, pretty_N. case_decide; [done|].
    rewrite pretty_N_go_app.
    destruct (pretty_N_go_digits (N.pos p) suffix) as (Hv & d & rest & Hd & Hc); [lia|].
    exists d, rest. split; [done|]. split; [exact Hc|].
    fold (chars (pretty_N_go (N.pos p) suffix)) in *.
    rewrite <- Hc, Hv. by apply digits_prefix_stops. }
  destruct z as [|p|p].
  - unfold parseInt10. change (pretty 0 +:+ suffix) with (String "0" suffix).
    cbn [list_ascii_of_string skip_space]. change (is_space "0") with false. cbn iota.
    change (digits_prefix None ("0"%char :: list_ascii_of_string suffix))
      with (digits_prefix (Some 0) (chars suffix)).
    by rewrite digits_prefix_stops.
  - destruct (Hpos p) as (d & rest & Hd & Hc & Hv).
    destruct (digit_val_char d Hd) as (_ & Hsp & Hm & Hpl).
    unfold parseInt10. change (pretty (Z.pos p)) with (pretty (N.pos p)).
    fold (chars (pretty (N.pos p) +:+ suffix)). rewrite Hc.
    cbn [skip_space]. rewrite Hsp.
    destruct (pretty_N_char d) as [[] [] [] [] [] [] [] []] eqn:Hch; try done;
      by rewrite Hv.
  - destruct (Hpos p) as (d & rest & Hd & Hc & Hv).
    unfold parseInt10.
    change (pretty (Z.neg p) +:+ suffix) with (String "-" (pretty (N.pos p) +:+ suffix)).
    cbn [list_ascii_of_string skip_space]. change (is_space "-") with false. cbn iota.
    fold (chars (pretty (N.pos p) +:+ suffix)). rewrite Hc, Hv. reflexivity.
Qed.

(** X4. [parseIntegerParam]: an integer (below 2^53 in absolute value,
    where numbers are exact) printed in decimal and followed by any text
    that does not start with a digit is read back as that integer, the
    trailing text being ignored; a number is returned as it is and
    [undefined] gives the default. *)
Theorem parseIntegerParam_reads_decimal (z : Z) (suffix : string) (defaultValue : JsVal) :
  Z.abs z < 2 ^ 53 ->
  (forall c rest, suffix = String c rest -> digit_val c = None) ->
  parseIntegerParam (JStr (to_string (JNum (Fin z)) +:+ suffix)) defaultValue
  = inr (JNum (Fin z))
  /\ parseIntegerParam (JNum (Fin z)) defaultValue = inr (JNum (Fin z))
  /\ parseIntegerParam JUndefined defaultValue = inr defaultValue.
Proof.
  intros _ Hs. split; [|done].
  unfold parseIntegerParam. cbn [to_string num_to_string].
  rewrite parseInt10_pretty by done. reflexivity.
Qed.

(** ** Splitting a parameter *)

Lemma break_at (stop : ascii -> bool) (n : list ascii) (c : ascii) (r : list ascii) :
  Forall (fun x => stop x = false) n ->
  stop c = true ->
  break stop (n ++ c :: r) = (n, c :: r).
Proof.
  intros Hn Hc. induction Hn as [|x n Hx _ IH]; cbn [app break].
  - by rewrite Hc.
  - by rewrite Hx, IH.
Qed.

Lemma break_none (stop : ascii -> bool) (n : list ascii) :
  Forall (fun x => stop x = false) n ->
  break stop n = (n, []).
Proof.
  intros Hn. induction Hn as [|x n Hx _ IH]; cbn [break]; [done|].
  by rewrite Hx, IH.
Qed.

Lemma noEquals_stop (s : string) :
  noEquals s -> Forall (fun x => is_char "=" x = false) (chars s).
Proof.
  unfold noEquals. intros Hs. eapply Forall_impl; [exact Hs|]. intros c Hc. unfold is_char.
  apply Ascii.eqb_neq. congruence.
Qed.

Lemma splitParam_name (n : string) :
  noEquals n -> splitParam n = (n, JUndefined).
Proof.
  intros Hn. unfold splitParam.
  rewrite (break_none _ _ (noEquals_stop _ Hn)). by rewrite text_chars.
Qed.

Lemma splitParam_pair (n v : string) :
  noEquals n -> noEquals v ->
  splitParam (n +:+ "=" +:+ v) = (n, JStr v).
Proof.
  intros Hn Hv. unfold splitParam.
  rewrite chars_app. change (chars ("=" +:+ v)) with ("="%char :: chars v).
  rewrite (break_at _ _ "="%char _ (noEquals_stop _ Hn) eq_refl).
  rewrite (break_none _ _ (noEquals_stop _ Hv)). cbn [fst].
  by rewrite !text_chars.
Qed.

Lemma splitParam_more (n v rest : string) :
  noEquals n -> noEquals v ->
  splitParam (n +:+ "=" +:+ v +:+ "=" +:+ rest) = (n, JStr v).
Proof.
  intros Hn Hv. unfold splitParam.
  rewrite chars_app.
  change (chars ("=" +:+ v +:+ "=" +:+ rest)) with ("="%char :: chars (v +:+ "=" +:+ rest)).
  rewrite (break_at _ _ "="%char _ (noEquals_stop _ Hn) eq_refl).
  rewrite chars_app. change (chars ("=" +:+ rest)) with ("="%char :: chars rest).
  rewrite (break_at _ _ "="%char _ (noEquals_stop _ Hv) eq_refl). cbn [fst].
  by rewrite !text_chars.
Qed.

(** X5. [parseHttpParams] on one text: a text without [=] is a name with
    the value [undefined]; [name=value] gives the name with the value;
    whatever follows a second [=] is dropped. *)
Theorem parseHttpParams_of_text (n v rest : string) :
  noEquals n -> noEquals v ->
  parseHttpParams (JStr n) = inr {[ n := [JUndefined] ]}
  /\ parseHttpParams (JStr (n +:+ "=" +:+ v)) = inr {[ n := [JStr v] ]}
  /\ parseHttpParams (JStr (n +:+ "=" +:+ v +:+ "=" +:+ rest)) = inr {[ n := [JStr v] ]}.
Proof.
  intros Hn Hv. cbn [parseHttpParams].
  rewrite splitParam_name, splitParam_pair, splitParam_more by done. done.
Qed.

(** ** Promises *)

Lemma find_head_filter {A : Type} (f : A -> bool) (l : list A) :
  List.find f l = head (List.filter f l).
Proof.
  induction l as [|x l IH]; [done|]. cbn [List.find List.filter].
  by destruct (f x).
Qed.

Lemma promiseAll_None (values : list Settled) :
  promiseAll values = None <-> exists e, Failed e ∈ values.
Proof.
  induction values as [|[v|e] values IH]; cbn [promiseAll].
  - split; [done|]. intros [e He]. by apply elem_of_nil in He.
  - destruct (promiseAll values) as [vs|].
    + split; [done|]. intros [e He]. apply elem_of_cons in He as [He|He]; [done|].
      assert (@None (list JsVal) = None) as Hn by done.
      destruct IH as [_ IH]. by specialize (IH (ex_intro _ e He)).
    + split; [|done]. intros _. destruct IH as [IH _].
      destruct (IH eq_refl) as [e He]. exists e. apply elem_of_cons. by right.
  - split; [|done]. intros _. exists e. apply elem_of_cons. by left.
Qed.

Lemma promiseAll_Some (values : list Settled) (vs : list JsVal) :
  promiseAll values = Some vs <-> values = List.map Fulfilled vs.
Proof.
  revert vs. induction values as [|[v|e] values IH]; intros vs; cbn [promiseAll].
  - split; [intros [= <-]; done|]. destruct vs; [done|discriminate].
  - destruct (promiseAll values) as [ws|] eqn:Hp.
    + split.
      * intros [= <-]. cbn [List.map]. f_equal. by apply IH.
      * destruct vs as [|w vs]; [discriminate|]. cbn [List.map]. intros [= -> Hv].
        apply IH in Hv. congruence.
    + split; [done|]. destruct vs as [|w vs]; [discriminate|]. cbn [List.map].
      intros [= -> Hv]. apply IH in Hv. congruence.
  - split; [done|]. destruct vs; discriminate.
Qed.

(** X6. [compactResolved] and [firstResolved]: the first resolved value
    is the head of the compacted list ([undefined] when that list is
    empty); either promise rejects exactly when one of the inputs rejects;
    when all inputs fulfil, the compacted list is the values that are not
    [undefined], in order, and the first resolved value is [undefined]
    exactly when every value is. *)
Theorem firstResolved_heads_compactResolved (values : list Settled) :
  firstResolved values
  = (fun vs => default JUndefined (head vs)) <$> compactResolved values
  /\ (compactResolved values = None <-> exists e, Failed e ∈ values)
  /\ (firstResolved values = None <-> exists e, Failed e ∈ values)
  /\ forall vs,
       values = List.map Fulfilled vs ->
       compactResolved values = Some (List.filter (fun v => negb (is_undefined v)) vs)
       /\ (firstResolved values = Some JUndefined
           <-> Forall (fun v => v = JUndefined) vs).
Proof.
  unfold firstResolved, compactResolved.
  split; [|split; [|split]].
  - destruct (promiseAll values); [|done]. cbn. by rewrite find_head_filter.
  - rewrite <- promiseAll_None. by destruct (promiseAll values).
  - rewrite <- promiseAll_None. by destruct (promiseAll values).
  - intros vs Hvs. apply promiseAll_Some in Hvs. rewrite Hvs. split; [done|].
    clear. induction vs as [|v vs IH]; cbn [List.find].
    + split; [constructor|done].
    + destruct v; cbn [is_undefined negb default];
        try (split; [intros [= ?]; discriminate|inversion 1; discriminate]).
      rewrite IH. split; [by constructor|by inversion 1].
Qed.

(** ** Option validators *)

Lemma existsb_negb_false {A : Type} (f : A -> bool) (l : list A) :
  existsb (fun v => negb (f v)) l = false <-> Forall (fun v => f v = true) l.
Proof.
  induction l as [|x l IH]; cbn [existsb]; [split; [constructor|done]|].
  rewrite orb_false_iff, IH, negb_false_iff. split.
  - intros [? ?]. by constructor.
  - by inversion 1.
Qed.

(** X7. The option validators return the option as it is or throw:
    [validateArrayOption] accepts an absent option and an array whose
    items all pass the validator; [validateStringArrayOption] an absent
    option and an array of strings; [validateStringOption] an absent option
    and a string. *)
Theorem option_validators_accept (options : gmap string JsVal) (name_ description_ : string)
    (validator : JsVal -> bool) (v : JsVal) :
  (validateArrayOption options name_ description_ validator = inr v
   <-> v = qget options name_
       /\ (v = JUndefined
           \/ exists items, v = JArr items /\ Forall (fun x => validator x = true) items))
  /\ (validateStringArrayOption options name_ = inr v
      <-> v = qget options name_
          /\ (v = JUndefined \/ exists texts, v = JArr (List.map JStr texts)))
  /\ (validateStringOption options name_ = inr v
      <-> v = qget options name_ /\ (v = JUndefined \/ exists s, v = JStr s)).
Proof.
  assert (forall validator,
    validateArrayOption options name_ description_ validator = inr v
    <-> v = qget options name_
        /\ (v = JUndefined
            \/ exists items, v = JArr items /\ Forall (fun x => validator x = true) items))
    as Harr.
  { clear validator. intros validator. unfold validateArrayOption.
    destruct (qget options name_) as [| |b|n|s|items] eqn:Hq;
      try (split; [discriminate|intros [-> [?|(? & ? & _)]]; discriminate]).
    - split; [intros [= <-]; eauto|]. by intros [-> _].
    - destruct (existsb _ items) eqn:He.
      + split; [discriminate|]. intros [-> [?|(items' & [= <-] & Hall)]]; [discriminate|].
        apply existsb_negb_false in Hall. congruence.
      + apply existsb_negb_false in He. split; [intros [= <-]|by intros [-> _]].
        split; [done|]. right. eauto. }
  split; [apply Harr|]. split.
  - unfold validateStringArrayOption.
    assert (forall d, validateArrayOption options name_ d
                        (fun v0 => String.eqb (typeof v0) "string") = inr v
              <-> validateArrayOption options name_ description_
                        (fun v0 => String.eqb (typeof v0) "string") = inr v) as Hd.
    { intros d. unfold validateArrayOption.
      destruct (qget options name_); try done. by destruct (existsb _ _). }
    rewrite Hd, Harr. apply and_iff_compat_l. apply or_iff_compat_l. split.
    + intros (items & -> & Hall). clear Hd Harr.
      induction Hall as [|x items Hx _ IH]; [by exists []|].
      destruct IH as [texts Ht]. injection Ht as ->.
      destruct x as [| |b|n|s|its]; try discriminate.
      by exists (s :: texts).
    + intros [texts ->]. eexists; split; [done|]. clear Hd Harr.
      induction texts; cbn [List.map]; by constructor.
  - unfold validateStringOption.
    destruct (qget options name_) as [| |b|n|s|items] eqn:Hq; cbn;
      try (split; [discriminate|intros [-> [?|[? ?]]]; discriminate]).
    + split; [intros [= <-]; eauto|by intros [-> _]].
    + split; [intros [= <-]; eauto|by intros [-> _]].
Qed.

(** ** Trimming *)

Lemma skip_space_head (l : list ascii) (c : ascii) :
  head (skip_space l) = Some c -> is_space c = false.
Proof.
  induction l as [|x l IH]; cbn [skip_space]; [done|].
  destruct (is_space x) eqn:Hx; [done|]. by intros [= <-].
Qed.

Lemma skip_space_fixed (l : list ascii) :
  (forall c, head l = Some c -> is_space c = false) -> skip_space l = l.
Proof.
  destruct l as [|x l]; [done|]. intros Hh. cbn [skip_space].
  by rewrite (Hh x eq_refl).
Qed.

Lemma skip_space_suffix (l : list ascii) :
  exists pre, l = pre ++ skip_space l.
Proof.
  induction l as [|x l [pre IH]]; [by exists []|]. cbn [skip_space].
  destruct (is_space x); [|by exists []].
  exists (x :: pre). cbn [app]. by f_equal.
Qed.

Lemma head_rev {A : Type} (l : list A) : head (rev l) = last l.
Proof.
  induction l as [|x l IH] using rev_ind; [done|].
  by rewrite rev_app_distr, last_snoc.
Qed.

Lemma head_app_some {A : Type} (l k : list A) (x : A) :
  head l = Some x -> head (l ++ k) = Some x.
Proof. by destruct l. Qed.

Lemma trim_noSpaceAtEnds (l : list ascii) : noSpaceAtEnds (trim l).
Proof.
  unfold trim, noSpaceAtEnds.
  set (A := skip_space l). set (B := skip_space (rev A)). split.
  - intros c Hc. destruct (skip_space_suffix (rev A)) as [pre Hpre]. fold B in Hpre.
    assert (A = rev B ++ rev pre) as HA.
    { rewrite <- (rev_involutive A), Hpre, rev_app_distr. done. }
    apply (skip_space_head l). fold A. rewrite HA. by apply head_app_some.
  - intros c Hc. rewrite <- head_rev, rev_involutive in Hc.
    by apply (skip_space_head (rev A)).
Qed.

Lemma trim_fixed (l : list ascii) : noSpaceAtEnds l -> trim l = l.
Proof.
  intros [Hh Hl]. unfold trim. rewrite (skip_space_fixed l Hh).
  rewrite skip_space_fixed; [by rewrite rev_involutive|].
  intros c Hc. rewrite head_rev in Hc. by apply Hl.
Qed.

(** X8. [getEnv]: a variable that is set wins over its [_FILE] variant;
    with neither set the result is [undefined]; otherwise the result is the
    promise of the contents of the file, trimmed (no white space at either
    end, trimming again changes nothing, contents without white space at
    the ends are returned whole), or the promise rejected with the error
    of [readFile]. *)
Theorem getEnv_prefers_variable (env : gmap string string)
    (readFile : string -> JsError + string) (varName : string) :
  (forall v, env !! varName = Some v -> getEnv env readFile varName = CvString v)
  /\ (env !! varName = None -> env !! (varName +:+ "_FILE") = None ->
      getEnv env readFile varName = CvUndefined)
  /\ (forall file,
        env !! varName = None -> env !! (varName +:+ "_FILE") = Some file ->
        match readFile file with
        | inl e => getEnv env readFile varName = CvPromise (inl e)
        | inr contents =>
            getEnv env readFile varName = CvPromise (inr (jsTrim contents))
            /\ noSpaceAtEnds (chars (jsTrim contents))
            /\ jsTrim (jsTrim contents) = jsTrim contents
            /\ (noSpaceAtEnds (chars contents) -> jsTrim contents = contents)
        end).
Proof.
  unfold getEnv. split; [by intros v ->|]. split; [by intros -> ->|].
  intros file -> ->. destruct (readFile file) as [e|contents]; [done|].
  split; [done|]. unfold jsTrim. rewrite !chars_text.
  pose proof (trim_noSpaceAtEnds (chars contents)) as Ht.
  split; [done|]. split.
  - by rewrite (trim_fixed _ Ht).
  - intros Hc. by rewrite (trim_fixed _ Hc), text_chars.
Qed.

(** X9. [whitelistConfig]: the result holds under a name what the
    configuration holds when the name is one of the picked names, and
    nothing otherwise; picking twice is picking once; setting a picked
    option commutes with picking, and setting any other option is not
    seen. *)
Theorem whitelistConfig_picks {A : Type} (config : gmap string A) (key : string) :
  whitelistConfig config !! key
  = (if bool_decide (key ∈ whitelistedOptions) then config !! key else None)
  /\ whitelistConfig (whitelistConfig config) = whitelistConfig config
  /\ (forall (k : string) (v : A),
        k ∈ whitelistedOptions ->
        whitelistConfig (<[k := v]> config) = <[k := v]> (whitelistConfig config))
  /\ (forall (k : string) (v : A),
        k ∉ whitelistedOptions ->
        whitelistConfig (<[k := v]> config) = whitelistConfig config).
Proof.
  unfold whitelistConfig. split; [|split; [|split]].
  - case_bool_decide as Hk.
    + destruct (config !! key) as [v|] eqn:Hc.
      * by apply map_lookup_filter_Some.
      * apply map_lookup_filter_None. left. done.
    + apply map_lookup_filter_None. right. intros v _. exact Hk.
  - apply map_eq. intros k. apply option_eq. intros v.
    rewrite !map_lookup_filter_Some. split; [by intros [[? ?] ?]|by intros [? ?]].
  - intros k v Hk. by apply map_filter_insert_True.
  - intros k v Hk. apply map_eq. intros k'. apply option_eq. intros v'.
    rewrite !map_lookup_filter_Some. cbn [fst].
    destruct (decide (k = k')) as [<-|Hne].
    + split; intros [_ ?]; done.
    + by rewrite lookup_insert_ne.
Qed.

End UtilsFacts.

(** ** compareMetrics *)

Lemma codeUnitLe_spec (a b : string) :
  codeUnitLe a b <-> String_as_OT.lt a b \/ a = b.
Proof.
  unfold codeUnitLe, String.leb. split.
  - destruct (String.compare a b) eqn:Hc; [|left|discriminate].
    + right. by apply String.compare_eq_iff.
    + by apply String_as_OT.cmp_lt.
  - intros [Hlt| ->].
    + apply String_as_OT.cmp_lt in Hlt. unfold String_as_OT.cmp in Hlt. by rewrite Hlt.
    + assert (String.compare b b = Eq) as ->; [|done].
      apply String_as_OT.cmp_eq. done.
Qed.

#[export] Instance codeUnitLe_trans : Transitive codeUnitLe.
Proof.
  intros a b c Hab Hbc. apply codeUnitLe_spec in Hab, Hbc. apply codeUnitLe_spec.
  destruct Hab as [Hab| ->]; [|done]. destruct Hbc as [Hbc| <-]; [|by left].
  left. by eapply String_as_OT.lt_trans.
Qed.

#[export] Instance codeUnitLe_total : Total codeUnitLe.
Proof. intros a b. apply String.leb_total. Qed.

#[export] Instance codeUnitLe_antisym : AntiSymm eq codeUnitLe.
Proof. intros a b. apply String.leb_antisym. Qed.





Section CompareMetricsFacts.
Variable localeCompare : string -> string -> Z.
Hypothesis localeCompare_refl : forall x, localeCompare x x = 0.
Hypothesis localeCompare_antisym :
  forall x y, Z.sgn (localeCompare y x) = - Z.sgn (localeCompare x y).




End CompareMetricsFacts.


(** ** Phases *)

Lemma sumZ_app (a b : list Z) : sumZ (a ++ b) = sumZ a + sumZ b.
Proof. unfold sumZ. induction a as [|x a IH]; cbn; [done|]. rewrite IH. lia. Qed.

Lemma summed_increase (c : gmap string num) (key : string) (ivs : list Z) (d : Z) :
  summed (c !! key) ivs ->
  summed (increase c key (Fin d) !! key) (ivs ++ [d]).
Proof.
  unfold summed. intros Hc. rewrite increase_lookup, Hc.
  destruct ivs as [|x ivs]; cbn [or_zero num_add app].
  - f_equal. f_equal. unfold sumZ. cbn. lia.
  - f_equal. f_equal. change (x :: ivs ++ [d]) with ((x :: ivs) ++ [d]).
    rewrite sumZ_app. unfold sumZ at 3. cbn. lia.
Qed.

Lemma phase_metric (req : ClientRequest) (res : option IncomingMessage)
    (state : ProbeState) (phase : string) :
  isPhase phase ->
  phaseValues phase (httpMetrics req res state)
  = match counters state !! phase with
    | Some value_ => [OQuot value_ 1000]
    | None => []
    end.
Proof.
  unfold phaseValues, httpMetrics, pickPhases.
  intros [->|[->|[->|[->| ->]]]]; cbn [omap list_omap];
    destruct (counters state !! "contentTransfer"),
             (counters state !! "dnsLookup"),
             (counters state !! "firstByte"),
             (counters state !! "tcpConnection"),
             (counters state !! "tlsHandshake"); reflexivity.
Qed.

Lemma secure_metric (req : ClientRequest) (res : option IncomingMessage)
    (state : ProbeState) :
  metricValues "httpSecure" (httpMetrics req res state)
  = [OVal (JBool (negb (prop_undefined (counters state !! "tlsHandshake"))))].
Proof.
  unfold httpMetrics. rewrite !metricValues_app.
  rewrite metricValues_durations by done. reflexivity.
Qed.

Lemma runEvents_tls (evs : list (Z * Event)) :
  forall (l : LegState) (state : ProbeState),
    prop_undefined (counters (runEvents evs l state).2 !! "tlsHandshake")
    = prop_undefined (counters state !! "tlsHandshake")
      && negb (existsb isSecureConnect
                 (handledEvents ((match legRes l with Some _ => true | None => false end)) evs)).
Proof.
  induction evs as [|[now ev] rest IH]; intros l state;
    [cbn; by rewrite andb_true_r|].
  destruct ev; cbn [runEvents handledEvents existsb isSecureConnect snd negb orb].
  - unfold onLookup. rewrite IH. cbn. by rewrite increase_lookup_ne.
  - unfold onConnect. rewrite IH. cbn. by rewrite increase_lookup_ne.
  - unfold onSecureConnect. rewrite IH. cbn. rewrite increase_lookup. cbn.
    by rewrite andb_false_r.
  - rewrite IH. cbn. done.
  - destruct (legRes l) eqn:Hres; [|by rewrite IH, Hres].
    unfold onReadable. destruct (prop_undefined (counters state !! "firstByte")).
    + rewrite IH. cbn. rewrite increase_lookup_ne by done. by rewrite Hres.
    + by rewrite IH, Hres.
  - destruct (legRes l) eqn:Hres; rewrite IH; cbn; by rewrite Hres.
  - destruct (legRes l) eqn:Hres; cbn.
    + unfold onEnd. rewrite andb_true_r.
      destruct (firstByteAt _); [|done]. cbn. by rewrite increase_lookup_ne.
    + rewrite IH. by rewrite Hres.
  - cbn. by rewrite andb_true_r.
Qed.

Lemma runEvents_dns_gen (evs : list (Z * Event)) :
  forall (l : LegState) (state : ProbeState) (ivs : list Z) (s : Z) (reg : bool),
    start (legTimes l) = s ->
    (match legRes l with Some _ => true | None => false end) = reg ->
    summed (counters state !! "dnsLookup") ivs ->
    summed (counters (runEvents evs l state).2 !! "dnsLookup")
           (ivs ++ omap (lookupInterval s) (handledEvents reg evs)).
Proof.
  induction evs as [|[now ev] rest IH]; intros l state ivs s reg Hstart Hreg Hs;
    [cbn; by rewrite app_nil_r|].
  destruct ev; cbn [runEvents handledEvents omap list_omap lookupInterval fst snd].
  - unfold onLookup. cbn [time_num num_sub].
    change (ivs ++ (now - s) :: ?r) with (ivs ++ [now - s] ++ r).
    rewrite app_assoc. apply IH; [done|done|].
    cbn. rewrite Hstart. by apply summed_increase.
  - unfold onConnect. apply IH; [done|done|]. cbn. by rewrite increase_lookup_ne.
  - unfold onSecureConnect. apply IH; [done|done|]. cbn. by rewrite increase_lookup_ne.
  - apply (IH {| legTimes := legTimes l; legRes := Some res; legBody := EmptyString |}
              state ivs s true); [exact Hstart|reflexivity|exact Hs].
  - destruct (legRes l) eqn:Hres.
    + unfold onReadable.
      destruct (prop_undefined (counters state !! "firstByte")); cbn beta iota.
      * apply IH; [done|cbn; by rewrite Hres|]. cbn. by rewrite increase_lookup_ne.
      * apply IH; [done|by rewrite Hres|done].
    + apply IH; [done|by rewrite Hres|done].
  - destruct (legRes l) eqn:Hres.
    + apply IH; [done|cbn; by rewrite Hres|done].
    + apply IH; [done|by rewrite Hres|done].
  - destruct (legRes l) eqn:Hres; cbn in Hreg; subst reg; cbn.
    + rewrite app_nil_r. unfold onEnd. destruct (firstByteAt _); [|done].
      cbn. by rewrite increase_lookup_ne.
    + apply IH; [done|by rewrite Hres|done].
  - cbn. by rewrite app_nil_r.
Qed.

Lemma omap_length_le {A B : Type} (f : A -> option B) (l : list A) :
  (length (omap f l) <= length l)%nat.
Proof.
  induction l as [|x l IH]; cbn [omap list_omap length]; [lia|].
  destruct (f x); cbn [length]; lia.
Qed.

Lemma pickPhases_phase (state : ProbeState) (entry : string * num) :
  entry ∈ pickPhases state -> isPhase entry.1.
Proof.
  unfold pickPhases. intros Hin.
  apply list_elem_of_omap in Hin as (phase & Hin & Heq).
  destruct (counters state !! phase) as [v|]; [|discriminate].
  injection Heq as <-. cbn [fst]. unfold isPhase.
  repeat (apply elem_of_cons in Hin as [->|Hin]); try tauto.
  by apply elem_of_nil in Hin.
Qed.

Lemma other_metrics_filter (f : Metric -> bool) (req : ClientRequest)
    (res : option IncomingMessage) (state : ProbeState) :
  (forall m, metricName m <> "httpDuration" -> f m = false) ->
  List.filter f (httpMetrics req res state)
  = List.filter f (List.map durationMetric (pickPhases state)).
Proof.
  intros Hf. unfold httpMetrics. rewrite !List.filter_app.
  cbn [List.filter]. rewrite !Hf by (cbn; discriminate).
  cbn [app]. by rewrite app_nil_r.
Qed.

(** X10. [getHttpMetrics] pushes one [httpDuration] metric for each of
    the five phases that has a counter in the state, valued counter / 1000,
    none for a phase without counter and none for any other counter (the
    redirect counter is no duration): at most five. *)
Theorem duration_metrics_follow_counters (req : ClientRequest)
    (res : option IncomingMessage) (state : ProbeState) :
  (forall phase, isPhase phase ->
     phaseValues phase (httpMetrics req res state)
     = match counters state !! phase with
       | Some value_ => [OQuot value_ 1000]
       | None => []
       end)
  /\ (forall key, ~ isPhase key -> phaseValues key (httpMetrics req res state) = [])
  /\ length (metricValues "httpDuration" (httpMetrics req res state))
     = length (pickPhases state)
  /\ (length (pickPhases state) <= 5)%nat.
Proof.
  split; [intros phase Hp; by apply phase_metric|]. split; [|split].
  - intros key Hk. unfold phaseValues. rewrite other_metrics_filter.
    + pose proof (pickPhases_phase state) as Hall.
      induction (pickPhases state) as [|entry l IH]; [done|].
      cbn [List.map List.filter durationMetric buildMetric metricName metricTags].
      rewrite bool_decide_eq_false_2, andb_false_r.
      * apply IH. intros e He. apply Hall. apply elem_of_cons. by right.
      * intros [= Heq]. apply Hk. rewrite <- Heq. apply Hall. apply elem_of_cons. by left.
    + intros m Hm. destruct (String.eqb_spec (metricName m) "httpDuration"); done.
  - unfold metricValues. rewrite other_metrics_filter.
    + induction (pickPhases state) as [|entry l IH]; [done|].
      cbn [List.map List.filter durationMetric buildMetric metricName].
      change (String.eqb "httpDuration" "httpDuration") with true.
      cbn [List.map length]. by rewrite <- IH.
    + intros m Hm. destruct (String.eqb_spec (metricName m) "httpDuration"); done.
  - apply (omap_length_le _ ["contentTransfer"; "dnsLookup"; "firstByte"; "tcpConnection";
                             "tlsHandshake"]).
Qed.

Section ChainFacts.
Context `{Platform}.

(** An invariant of the state that every leg and every followed redirect
    keep holds at the end of a chain that resolves, for the legs the chain
    ran; the metrics are those of the final state. *)
Lemma probeHttp_invariant (query : Query) (J : ProbeState -> list Leg -> Prop) :
  (forall state reqOptions leg done_,
     J state done_ ->
     J (runEvents (events leg) (initialLeg leg) (pushRequest state reqOptions)).2
       (done_ ++ [leg])) ->
  (forall state done_, J state done_ -> J (increaseState state "redirects" (Fin 1)) done_) ->
  forall (legs : list Leg) (target : JsVal) (state : ProbeState) (done_ : list Leg)
         (result : ProbeResult) (state' : ProbeState),
    J state done_ ->
    probeHttp legs target query state = (Resolved result, state') ->
    J state' (done_ ++ executedLegs (truthy (followRedirects query)) legs)
    /\ exists req res, metrics result = httpMetrics req res state'.
Proof.
  intros Hleg Hred.
  induction legs as [|leg rest IH]; intros target state done_ result state' HJ Hrun.
  - cbn [probeHttp] in Hrun. destruct (requestOptions target query); discriminate.
  - destruct (requestOptions target query) as [e|reqOptions] eqn:Hreq;
      [cbn [probeHttp] in Hrun; rewrite Hreq in Hrun; discriminate|].
    pose proof (Hleg state reqOptions leg done_ HJ) as HJ1.
    pose proof (runEvents_status (events leg) (initialLeg leg)
                  (pushRequest state reqOptions)) as Hst.
    cbn [initialLeg legRes fmap option_fmap option_map] in Hst.
    destruct (runEvents (events leg) (initialLeg leg) (pushRequest state reqOptions))
      as [[[res| |] l] state1] eqn:Hev; cbn [fst snd] in *.
    + rewrite (probeHttp_step _ _ _ _ _ _ _ _ _ Hreq Hev) in Hrun.
      cbn [executedLegs]. rewrite Hst.
      destruct (truthy (followRedirects query) && bool_decide _).
      * apply (IH _ _ (done_ ++ [leg])) in Hrun; [|by apply Hred].
        rewrite <- app_assoc in Hrun. exact Hrun.
      * destruct (getHttpMetrics _ _ _ _) as [e|r] eqn:Hg; [discriminate|].
        injection Hrun as <- <-. split; [exact HJ1|].
        eexists _, _. by eapply getHttpMetrics_metrics.
    + cbn [probeHttp] in Hrun. rewrite Hreq, Hev in Hrun.
      cbn [executedLegs]. rewrite Hst.
      destruct (getHttpMetrics _ _ _ _) as [e|r] eqn:Hg; [discriminate|].
      injection Hrun as <- <-. split; [exact HJ1|].
      eexists _, _. by eapply getHttpMetrics_metrics.
    + cbn [probeHttp] in Hrun. rewrite Hreq, Hev in Hrun. discriminate.
Qed.

(** X11. For a chain that starts from the empty state and resolves, the
    [httpSecure] metric is true exactly when a TLS handshake completed on
    some leg the chain ran, not only on the last one: [state.tlsHandshake]
    is kept across redirects. *)
Theorem httpSecure_of_any_leg (query : Query) (legs : list Leg) (target : JsVal)
    (result : ProbeResult) (state' : ProbeState) :
  probeHttp legs target query emptyState = (Resolved result, state') ->
  metricValues "httpSecure" (metrics result)
  = [OVal (JBool (existsb handshakeHandled
                    (executedLegs (truthy (followRedirects query)) legs)))].
Proof.
  intros Hrun.
  destruct (probeHttp_invariant query
              (fun state done_ =>
                 prop_undefined (counters state !! "tlsHandshake")
                 = negb (existsb handshakeHandled done_))) with
      (legs := legs) (target := target) (state := emptyState) (done_ := @nil Leg)
      (result := result) (state' := state') as [HJ (req & res & Hm)].
  - intros state reqOptions leg done_ HJ. rewrite runEvents_tls.
    cbn [pushRequest counters initialLeg legRes]. rewrite HJ.
    rewrite existsb_app. cbn [existsb]. rewrite orb_false_r, negb_orb. reflexivity.
  - intros state done_ HJ. cbn. by rewrite increase_lookup_ne.
  - reflexivity.
  - exact Hrun.
  - rewrite Hm, secure_metric. cbn [app] in HJ. rewrite HJ, negb_involutive. reflexivity.
Qed.

(** X12. For a chain that starts from the empty state and resolves, the
    [dnsLookup] duration is the sum, over all legs the chain ran, of the
    times from the start of the leg to each of its ['lookup'] events,
    divided by 1000; there is no such metric when no lookup happened. *)
Theorem dnsLookup_sums_over_legs (query : Query) (legs : list Leg) (target : JsVal)
    (result : ProbeResult) (state' : ProbeState) :
  probeHttp legs target query emptyState = (Resolved result, state') ->
  let intervals :=
    concat (List.map lookupIntervals
              (executedLegs (truthy (followRedirects query)) legs)) in
  phaseValues "dnsLookup" (metrics result)
  = match intervals with
    | [] => []
    | _ :: _ => [OQuot (Fin (sumZ intervals)) 1000]
    end.
Proof.
  intros Hrun.
  destruct (probeHttp_invariant query
              (fun state done_ =>
                 summed (counters state !! "dnsLookup")
                        (concat (List.map lookupIntervals done_)))) with
      (legs := legs) (target := target) (state := emptyState) (done_ := @nil Leg)
      (result := result) (state' := state') as [HJ (req & res & Hm)].
  - intros state reqOptions leg done_ HJ.
    rewrite List.map_app, concat_app. cbn [List.map concat]. rewrite app_nil_r.
    by apply runEvents_dns_gen.
  - intros state done_ HJ. cbn. by rewrite increase_lookup_ne.
  - reflexivity.
  - exact Hrun.
  - cbn [app] in HJ. cbv zeta. rewrite Hm, phase_metric by (unfold isPhase; tauto).
    rewrite HJ. by destruct (concat _).
Qed.

(** X13. A result either has the status code [null], and then it has no
    failure and no success (the transport failed), or it has the status
    code of a response; when redirects are followed that code is never 301
    or 302. *)
Theorem followed_status_is_not_reported (query : Query) (legs : list Leg) :
  forall (target : JsVal) (state state' : ProbeState) (result : ProbeResult),
    probeHttp legs target query state = (Resolved result, state') ->
    (metricValues "httpStatusCode" (metrics result) = [OVal JNull]
     /\ success result = false /\ failures result = [])
    \/ exists s,
         metricValues "httpStatusCode" (metrics result) = [OVal (JNum (Fin s))]
         /\ (truthy (followRedirects query) = true -> s <> 301 /\ s <> 302).
Proof.
  induction legs as [|leg rest IH]; intros target state state' result Hrun.
  - cbn [probeHttp] in Hrun. destruct (requestOptions target query); discriminate.
  - destruct (requestOptions target query) as [e|reqOptions] eqn:Hreq;
      [cbn [probeHttp] in Hrun; rewrite Hreq in Hrun; discriminate|].
    destruct (runEvents (events leg) (initialLeg leg) (pushRequest state reqOptions))
      as [[[res| |] l] state1] eqn:Hev.
    + rewrite (probeHttp_step _ _ _ _ _ _ _ _ _ Hreq Hev) in Hrun.
      destruct (truthy (followRedirects query)) eqn:Hf; cbn [andb] in Hrun.
      * case_bool_decide as Hs; [by eapply IH|].
        destruct (getHttpMetrics _ _ _ _) as [e|r] eqn:Hg; [discriminate|].
        injection Hrun as <- <-. right. exists (statusCode res).
        rewrite (getHttpMetrics_metrics _ _ _ _ _ Hg), statusCode_metric.
        split; [done|]. intros _. cbn in Hs. lia.
      * destruct (getHttpMetrics _ _ _ _) as [e|r] eqn:Hg; [discriminate|].
        injection Hrun as <- <-. right. exists (statusCode res).
        rewrite (getHttpMetrics_metrics _ _ _ _ _ Hg), statusCode_metric.
        split; [done|]. discriminate.
    + cbn [probeHttp] in Hrun. rewrite Hreq, Hev in Hrun.
      unfold getHttpMetrics in Hrun. cbn [settle] in Hrun. injection Hrun as <- <-. left.
      cbn [metrics success failures vfailures andb]. by rewrite statusCode_metric.
    + cbn [probeHttp] in Hrun. rewrite Hreq, Hev in Hrun. discriminate.
Qed.

(** X14. When a 301 or 302 response is followed and [url.parse] refuses
    its [location] header, the promise is rejected with the exception of
    [url.parse] (a [TypeError] when the header is missing); the redirect is
    already counted, and no request is recorded for it. *)
Theorem unusable_location_rejects (query : Query) (leg : Leg) (rest : list Leg)
    (target : JsVal) (state : ProbeState) (reqOptions : RequestOptions)
    (res : IncomingMessage) (l : LegState) (state1 : ProbeState) (e : JsError) :
  requestOptions target query = inr reqOptions ->
  runEvents (events leg) (initialLeg leg) (pushRequest state reqOptions)
  = (Ended res, l, state1) ->
  truthy (followRedirects query) = true ->
  statusCode res = 301 \/ statusCode res = 302 ->
  url_parse_val (header res "location") = inl e ->
  probeHttp (leg :: rest) target query state
  = (Rejected e, increaseState state1 "redirects" (Fin 1))
  /\ requests (increaseState state1 "redirects" (Fin 1)) = requests state ++ [reqOptions]
  /\ redirectCount (increaseState state1 "redirects" (Fin 1)) = redirectCount state + 1
  /\ (headers res !! "location" = None -> err_name e = "TypeError").
Proof.
  intros Hreq Hev Hf Hs Hloc.
  rewrite (probeHttp_step _ _ _ _ _ _ _ _ _ Hreq Hev), Hf.
  rewrite bool_decide_eq_true_2 by done. cbn [andb].
  pose proof (runEvents_frame "redirects" redirects_not_phase (events leg)
                (initialLeg leg) (pushRequest state reqOptions)) as [Hc Hr].
  rewrite Hev in Hc, Hr. cbn [snd] in Hc, Hr.
  split; [|split; [|split]].
  - assert (requestOptions (header res "location") query = inl e) as Hno.
    { unfold requestOptions. by rewrite Hloc. }
    destruct rest; cbn [probeHttp]; by rewrite Hno.
  - cbn [increaseState requests]. by rewrite Hr.
  - rewrite redirectCount_increase. unfold redirectCount. by rewrite Hc.
  - intros Hnone. unfold header in Hloc. rewrite Hnone in Hloc.
    cbn [url_parse_val] in Hloc. by injection Hloc as <-.
Qed.

Lemma requestOptions_fields (target : JsVal) (query : Query) (reqOptions : RequestOptions) :
  requestOptions target query = inr reqOptions ->
  agent reqOptions = false
  /\ method reqOptions
     = (if truthy (qget query "method") then qget query "method" else JStr "GET")
  /\ url_parse_val target = inr (parsed reqOptions).
Proof.
  unfold requestOptions. intros Hreq.
  destruct (url_parse_val target) as [e|u]; [discriminate|].
  destruct (parseHttpParamsQueryParam _) as [e|h]; [discriminate|].
  by injection Hreq as <-.
Qed.

(** X15. [probeHttp] only appends to [state.requests]: the requests
    already there stay, at most one is added per leg plus one, each with
    [agent: false] and the method of the query ([GET] by default); unless
    the promise is rejected the first one added is the parsed target. *)
Theorem requests_are_appended (query : Query) (legs : list Leg) :
  forall (target : JsVal) (state : ProbeState),
    exists added : list RequestOptions,
      requests (probeHttp legs target query state).2 = requests state ++ added
      /\ (length added <= S (length legs))%nat
      /\ Forall (fun r => agent r = false
                          /\ method r = (if truthy (qget query "method")
                                         then qget query "method" else JStr "GET"))
                added
      /\ ((forall e, (probeHttp legs target query state).1 <> Rejected e) ->
          exists first later,
            added = first :: later /\ url_parse_val target = inr (parsed first)).
Proof.
  induction legs as [|leg rest IH]; intros target state.
  - cbn [probeHttp]. destruct (requestOptions target query) as [e|r] eqn:Hreq; cbn.
    + exists []. rewrite app_nil_r. split; [done|]. split; [cbn [length]; lia|].
      split; [constructor|]. intros Hne. by destruct (Hne e).
    + destruct (requestOptions_fields _ _ _ Hreq) as (Ha & Hm & Hp).
      exists [r]. split; [done|]. split; [cbn [length]; lia|].
        split; [by repeat constructor|]. eauto.
  - cbn [probeHttp]. destruct (requestOptions target query) as [e|r] eqn:Hreq; cbn [snd fst].
    + exists []. rewrite app_nil_r. split; [done|]. split; [cbn [length]; lia|].
      split; [constructor|]. intros Hne. by destruct (Hne e).
    + destruct (requestOptions_fields _ _ _ Hreq) as (Ha & Hm & Hp).
      pose proof (runEvents_frame "redirects" redirects_not_phase (events leg)
                    (initialLeg leg) (pushRequest state r)) as [_ Hr].
      destruct (runEvents (events leg) (initialLeg leg) (pushRequest state r))
        as [[[res| |] l] state1]; cbn [snd fst] in *.
      * destruct (truthy _ && _ && _).
        -- destruct (IH (header res "location") (increaseState state1 "redirects" (Fin 1)))
             as (added & Hadd & Hlen & Hall & _).
           exists (r :: added). rewrite Hadd. cbn [increaseState requests]. rewrite Hr.
           cbn [pushRequest requests]. rewrite <- app_assoc.
           split; [done|]. split; [cbn [length]; lia|]. split; [by constructor|]. eauto.
        -- exists [r]. cbn [snd]. rewrite Hr.
           split; [done|]. split; [cbn [length]; lia|].
        split; [by repeat constructor|]. eauto.
      * exists [r]. rewrite Hr. split; [done|]. split; [cbn [length]; lia|].
        split; [by repeat constructor|]. eauto.
      * exists [r]. rewrite Hr. split; [done|]. split; [cbn [length]; lia|].
        split; [by repeat constructor|]. eauto.
Qed.

End ChainFacts.

Section ResultFacts.
Context `{Platform}.

(** A result is what [getHttpMetrics] returns on the final state. *)
Lemma probeHttp_resolved (query : Query) (legs : list Leg) :
  forall (target : JsVal) (state state' : ProbeState) (result : ProbeResult),
    probeHttp legs target query state = (Resolved result, state') ->
    exists req res, getHttpMetrics query req res state' = inr result.
Proof.
  induction legs as [|leg rest IH]; intros target state state' result Hrun.
  - cbn [probeHttp] in Hrun. destruct (requestOptions target query); discriminate.
  - cbn [probeHttp] in Hrun.
    destruct (requestOptions target query) as [e|reqOptions]; [discriminate|].
    destruct (runEvents _ _ _) as [[[res| |] l] state1]; [| |discriminate].
    + destruct (truthy _ && _ && _); [by eapply IH|].
      destruct (getHttpMetrics _ _ _ _) as [e|r] eqn:Hg; [discriminate|].
      injection Hrun as <- <-. eauto.
    + destruct (getHttpMetrics _ _ _ _) as [e|r] eqn:Hg; [discriminate|].
      injection Hrun as <- <-. eauto.
Qed.

Lemma duration_names (l : list (string * num)) :
  List.map metricName (List.map durationMetric l) = replicate (length l) "httpDuration".
Proof. induction l as [|e l IH]; [done|]. cbn. by rewrite <- IH. Qed.

(** X21. Every result of [probeHttp] lists its metrics in one order:
    the certificate expiry, the content length, at most five durations,
    then the redirects, the security flag, the status code and the
    version; and it is a success exactly when it has no failure and its
    status code is not [null]. *)
Theorem result_shape (query : Query) (legs : list Leg) (target : JsVal)
    (state state' : ProbeState) (result : ProbeResult) :
  probeHttp legs target query state = (Resolved result, state') ->
  (exists k : nat,
     (k <= 5)%nat
     /\ List.map metricName (metrics result)
        = ["httpCertificateExpiry"; "httpContentLength"]
          ++ replicate k "httpDuration"
          ++ ["httpRedirects"; "httpSecure"; "httpStatusCode"; "httpVersion"])
  /\ (success result = true
      <-> failures result = []
          /\ metricValues "httpStatusCode" (metrics result) <> [OVal JNull]).
Proof.
  intros Hrun. destruct (probeHttp_resolved _ _ _ _ _ _ Hrun) as (req & res & Hg).
  rewrite (getHttpMetrics_metrics _ _ _ _ _ Hg). split.
  - exists (length (pickPhases state')). split.
    + apply (omap_length_le _ ["contentTransfer"; "dnsLookup"; "firstByte"; "tcpConnection";
                               "tlsHandshake"]).
    + unfold httpMetrics. rewrite !List.map_app, duration_names. reflexivity.
  - rewrite statusCode_metric. unfold getHttpMetrics in Hg.
    destruct res as [r|].
    + destruct (validators r state' _) as [e|[[] s]]; [discriminate|].
      injection Hg as <-. cbn [success failures andb].
      destruct (vfailures s); split; try done. by intros [? _].
    + injection Hg as <-. cbn [success failures andb vfailures].
      split; [discriminate|]. by intros [_ ?].
Qed.

End ResultFacts.

(** ** The body of the response *)

Lemma text_append_assoc (a b c : string) : (a +:+ b) +:+ c = a +:+ (b +:+ c).
Proof.
  induction a as [|x a IH]; [done|].
  change (String x ((a +:+ b) +:+ c) = String x (a +:+ (b +:+ c))). by rewrite IH.
Qed.

Lemma text_append_empty_r (a : string) : a +:+ EmptyString = a.
Proof.
  induction a as [|x a IH]; [done|].
  change (String x (a +:+ EmptyString) = String x a). by rewrite IH.
Qed.

Lemma runEvents_bodyEvents (evs rest : list (Z * Event)) (res : IncomingMessage) :
  Forall (fun entry => isBodyEvent entry.2) evs ->
  forall (l : LegState) (state : ProbeState),
    legRes l = Some res ->
    exists l1 state1,
      runEvents (evs ++ rest) l state = runEvents rest l1 state1
      /\ legRes l1 = Some res /\ legBody l1 = legBody l +:+ chunksOf evs.
Proof.
  induction 1 as [|[now ev] evs Hev _ IH]; intros l state Hres.
  - exists l, state. cbn. by rewrite text_append_empty_r.
  - destruct (socket_handlers_leg now l state) as (_ & _ & _ & [R4 B4]).
    cbn [app]. destruct Hev as [Hev|[chunk Hev]]; cbn [snd] in Hev; subst ev;
      cbn [runEvents chunksOf]; rewrite Hres.
    + destruct (onReadable now l state) as [l' st']. cbn [fst] in *.
      destruct (IH l' st') as (l1 & state1 & Hrun & Hres1 & Hbody); [congruence|].
      exists l1, state1. by rewrite Hrun, Hres1, Hbody, B4.
    + destruct (IH (onData chunk l) state Hres) as (l1 & state1 & Hrun & Hres1 & Hbody).
      exists l1, state1. split; [done|]. split; [done|].
      rewrite Hbody. cbn [onData legBody]. by rewrite text_append_assoc.
Qed.

Section BodyFacts.
Context `{Platform}.

(** X16. The body given to the validators is the chunks of the ['data']
    events delivered between the callback of the response and its ['end']
    event, in order; what comes after the ['end'] event is not seen. *)
Theorem body_is_the_chunks_in_order (query : Query) (leg : Leg) (rest : list Leg)
    (target : JsVal) (state : ProbeState) (reqOptions : RequestOptions)
    (pre bodyEvents later : list (Z * Event)) (responseAt endAt : Z)
    (res : IncomingMessage) :
  requestOptions target query = inr reqOptions ->
  events leg = pre ++ (responseAt, EvResponse res) :: bodyEvents
                   ++ (endAt, EvEnd) :: later ->
  Forall (fun entry => isSocketEvent entry.2) pre ->
  Forall (fun entry => isBodyEvent entry.2) bodyEvents ->
  exists state1 : ProbeState,
    probeHttp (leg :: rest) target query state
    = if truthy (followRedirects query)
         && bool_decide (statusCode res = 301 \/ statusCode res = 302)
      then probeHttp rest (header res "location") query
                     (increaseState state1 "redirects" (Fin 1))
      else (settle (getHttpMetrics query (request leg)
                      (Some (withBody res (chunksOf bodyEvents))) state1), state1).
Proof.
  intros Hreq Hevs Hpre Hbody.
  destruct (runEvents_socket pre ((responseAt, EvResponse res) :: bodyEvents
                                  ++ (endAt, EvEnd) :: later) Hpre
              (initialLeg leg) (pushRequest state reqOptions))
    as (l1 & st1 & Hrun1 & _ & _).
  cbn [runEvents] in Hrun1.
  destruct (runEvents_bodyEvents bodyEvents ((endAt, EvEnd) :: later) res Hbody
              {| legTimes := legTimes l1; legRes := Some res; legBody := EmptyString |}
              st1 eq_refl)
    as (l2 & st2 & Hrun2 & Hres2 & Hbody2).
  cbn [runEvents legBody] in Hrun2, Hbody2. rewrite Hres2 in Hrun2.
  exists (onEnd endAt l2 st2).
  rewrite (probeHttp_step leg rest target query state reqOptions res l2
             (onEnd endAt l2 st2) Hreq); [by rewrite Hbody2|].
  by rewrite Hevs, Hrun1, Hrun2.
Qed.

End BodyFacts.

(** ** Validators only append *)

Lemma appendOnly_ret : appendOnly (vret tt).
Proof. intros q fs. cbn. by rewrite app_nil_r. Qed.

Lemma appendOnly_push (f : Failure) : appendOnly (vpush f).
Proof. intros q fs. reflexivity. Qed.

Lemma appendOnly_throw (e : JsError) : appendOnly (vthrow e).
Proof. intros q fs. reflexivity. Qed.

Lemma appendOnly_get (k : string) (cont : JsVal -> V unit) :
  (forall v, appendOnly (cont v)) -> appendOnly (let* v := vget k in cont v).
Proof. intros Hc q fs. apply (Hc (qget q k) q fs). Qed.

Lemma appendOnly_set (k : string) (v : JsVal) : appendOnly (vset k v).
Proof. intros q fs. cbn. by rewrite app_nil_r. Qed.

Lemma appendOnly_seq (m k : V unit) :
  appendOnly m -> appendOnly k -> appendOnly (m ;; k).
Proof.
  intros Hm Hk q fs. specialize (Hm q fs). unfold vbind.
  destruct (m {| vquery := q; vfailures := [] |}) as [e|[[] [q1 fs1]]];
    rewrite Hm; [done|]. cbn [vquery vfailures].
  pose proof (Hk q1 fs1) as Hk1. pose proof (Hk q1 (fs ++ fs1)) as Hk2.
  destruct (k {| vquery := q1; vfailures := [] |}) as [e|[[] [q2 fs2]]].
  - by rewrite Hk1, Hk2.
  - rewrite Hk1, Hk2. cbn [vquery vfailures]. by rewrite app_assoc.
Qed.

Lemma appendOnly_for {A : Type} (items : list A) (body_ : A -> V unit) :
  (forall x, appendOnly (body_ x)) -> appendOnly (vfor items body_).
Proof.
  intros Hb. induction items as [|x items IH]; cbn [vfor].
  - apply appendOnly_ret.
  - by apply appendOnly_seq.
Qed.

Lemma appendOnly_if (b : bool) (m k : V unit) :
  appendOnly m -> appendOnly k -> appendOnly (if b then m else k).
Proof. by destruct b. Qed.

Section ValidatorExtras.
Context `{Platform}.

Lemma validateHttpRedirects_appendOnly (state : ProbeState) :
  appendOnly (validateHttpRedirects state).
Proof.
  unfold validateHttpRedirects.
  apply appendOnly_get; intros v1. apply appendOnly_get; intros v2. cbv zeta.
  repeat (apply appendOnly_if);
    first [apply appendOnly_push | apply appendOnly_ret].
Qed.

Lemma validateHttpRedirectTarget_appendOnly (state : ProbeState) :
  appendOnly (validateHttpRedirectTarget state).
Proof.
  unfold validateHttpRedirectTarget. apply appendOnly_get; intros v.
  apply appendOnly_if; [apply appendOnly_ret|].
  destruct (url_parse_val v); [apply appendOnly_throw|].
  destruct (last (requests state)); [|apply appendOnly_throw].
  apply appendOnly_if; [apply appendOnly_push|apply appendOnly_ret].
Qed.

Lemma validateHttpResponseBody_appendOnly (res : IncomingMessage) :
  appendOnly (validateHttpResponseBody res).
Proof.
  unfold validateHttpResponseBody. cbv zeta. apply appendOnly_get; intros v1.
  apply appendOnly_seq.
  - apply appendOnly_for. intros p.
    destruct (regexp_exec _ _);
      [apply appendOnly_throw|apply appendOnly_push|apply appendOnly_ret].
  - apply appendOnly_get; intros v2. apply appendOnly_for. intros p.
    destruct (regexp_exec _ _);
      [apply appendOnly_throw|apply appendOnly_ret|apply appendOnly_push].
Qed.

Lemma validateHttpSecurity_appendOnly (state : ProbeState) :
  appendOnly (validateHttpSecurity state).
Proof.
  unfold validateHttpSecurity. apply appendOnly_get; intros v. cbv zeta.
  repeat (apply appendOnly_if);
    first [apply appendOnly_push | apply appendOnly_ret].
Qed.

Lemma validateHttpVersion_appendOnly (res : IncomingMessage) :
  appendOnly (validateHttpVersion res).
Proof.
  unfold validateHttpVersion. cbv zeta. apply appendOnly_get; intros v.
  apply appendOnly_if; [apply appendOnly_push|apply appendOnly_ret].
Qed.

Lemma validateHttpStatusCode_appendOnly (res : IncomingMessage) :
  appendOnly (validateHttpStatusCode res).
Proof.
  intros q fs. unfold validateHttpStatusCode, vbind, vget, vset, vret, vpush.
  cbn [vquery vfailures].
  destruct (qget q "expectHttpStatusCode") as [| |b|n|s|items] eqn:Hq;
    cbn [truthy]; rewrite ?Hq;
    repeat match goal with
           | |- context [match ?l with [] => _ | _ :: _ => _ end] =>
               is_var l; destruct l
           | |- context [if ?b then _ else _] => destruct b eqn:?
           | |- context [match ?n with NaN => _ | Fin _ => _ end] =>
               is_var n; destruct n
           end;
    cbn [vquery vfailures]; rewrite ?Hq, ?qget_insert, ?app_nil_r; try reflexivity.
Qed.

(** X17. Each validator, and the six in a row, only append to the
    failures: from any list of failures they throw what they throw from
    the empty list, or leave that list followed by what they push from the
    empty list. *)
Theorem validators_only_append (res : IncomingMessage) (state : ProbeState) :
  appendOnly (validateHttpRedirects state)
  /\ appendOnly (validateHttpRedirectTarget state)
  /\ appendOnly (validateHttpResponseBody res)
  /\ appendOnly (validateHttpSecurity state)
  /\ appendOnly (validateHttpStatusCode res)
  /\ appendOnly (validateHttpVersion res)
  /\ appendOnly (validators res state).
Proof.
  pose proof (validateHttpRedirects_appendOnly state).
  pose proof (validateHttpRedirectTarget_appendOnly state).
  pose proof (validateHttpResponseBody_appendOnly res).
  pose proof (validateHttpSecurity_appendOnly state).
  pose proof (validateHttpStatusCode_appendOnly res).
  pose proof (validateHttpVersion_appendOnly res).
  repeat split; try done.
  unfold validators. repeat (apply appendOnly_seq; [done|]). done.
Qed.

End ValidatorExtras.

Section ValidatorExtras2.
Context `{Platform}.

Lemma vfor_must (body_ : string) (patterns : list JsVal) :
  forall (q : Query) (fs : list Failure),
    compilable body_ patterns ->
    vfor patterns (fun expectedMatch =>
      match regexp_exec (regexp_source expectedMatch) body_ with
      | RegexSyntaxError e => vthrow e
      | NoMatch =>
          vpush {| actual := None;
                   cause := "httpResponseBodyMismatch";
                   description :=
                     "Expected the HTTP response body to match the following regular expression: "
                     +:+ to_string expectedMatch;
                   expected := Some (OVal expectedMatch) |}
      | Match _ => vret tt
      end) {| vquery := q; vfailures := fs |}
    = inr (tt, {| vquery := q; vfailures := fs ++ bodyFailures body_ patterns [] |}).
Proof.
  unfold bodyFailures. cbn [omap list_omap].
  induction patterns as [|p patterns IH]; intros q fs Hc.
  - cbn. by rewrite !app_nil_r.
  - inversion Hc as [|? ? Hp Hrest]; subst. cbn [vfor omap list_omap]. unfold vbind.
    destruct (regexp_exec (regexp_source p) body_) as [e| |matched] eqn:Hre.
    + by destruct (Hp e).
    + cbn [vpush vquery vfailures]. rewrite IH by done.
      rewrite !app_nil_r. cbn [app]. fold (bodyMismatch p).
      by rewrite <- app_assoc.
    + cbn [vret]. by rewrite IH.
Qed.

Lemma vfor_mustNot (body_ : string) (patterns : list JsVal) :
  forall (q : Query) (fs : list Failure),
    compilable body_ patterns ->
    vfor patterns (fun expectedMismatch =>
      match regexp_exec (regexp_source expectedMismatch) body_ with
      | RegexSyntaxError e => vthrow e
      | NoMatch => vret tt
      | Match matched =>
          vpush {| actual := Some (OVal (JStr matched));
                   cause := "unexpectedHttpResponseBodyMatch";
                   description :=
                     "Did not expect the HTTP response body to match the following regular expression: "
                     +:+ to_string expectedMismatch;
                   expected := Some (OVal expectedMismatch) |}
      end) {| vquery := q; vfailures := fs |}
    = inr (tt, {| vquery := q; vfailures := fs ++ bodyFailures body_ [] patterns |}).
Proof.
  unfold bodyFailures. cbn [omap list_omap app].
  induction patterns as [|p patterns IH]; intros q fs Hc.
  - cbn. by rewrite !app_nil_r.
  - inversion Hc as [|? ? Hp Hrest]; subst. cbn [vfor omap list_omap]. unfold vbind.
    destruct (regexp_exec (regexp_source p) body_) as [e| |matched] eqn:Hre.
    + by destruct (Hp e).
    + cbn [vret]. by rewrite IH.
    + cbn [vpush vquery vfailures]. rewrite IH by done.
      fold (unexpectedBodyMatch p matched). by rewrite <- app_assoc.
Qed.

(** X18. [validateHttpResponseBody], when every pattern is a regular
    expression: the failures pushed are one [httpResponseBodyMismatch] for
    each expected pattern the body does not match, in order, then one
    [unexpectedHttpResponseBodyMatch] for each forbidden pattern it
    matches, in order; the query is left as it is. *)
Theorem response_body_failures (res : IncomingMessage) (query : Query)
    (fs : list Failure) :
  let body_ := to_string (body res) in
  let must := toArray (qget query "expectHttpResponseBodyMatch") in
  let mustNot := toArray (qget query "expectHttpResponseBodyMismatch") in
  compilable body_ must -> compilable body_ mustNot ->
  validateHttpResponseBody res {| vquery := query; vfailures := fs |}
  = inr (tt, {| vquery := query;
                vfailures := fs ++ bodyFailures body_ must mustNot |})
  /\ Forall (fun f => cause f = "httpResponseBodyMismatch"
                      \/ cause f = "unexpectedHttpResponseBodyMatch")
            (bodyFailures body_ must mustNot)
  /\ (length (bodyFailures body_ must mustNot) <= length must + length mustNot)%nat.
Proof.
  intros body_ must mustNot Hmust HmustNot. split; [|split].
  - unfold validateHttpResponseBody. fold body_. unfold vbind at 1. unfold vget at 1.
    cbn [vquery]. fold must. unfold vbind at 1.
    rewrite (vfor_must body_ must query fs Hmust).
    unfold vbind, vget. cbn [vquery]. fold mustNot.
    rewrite (vfor_mustNot body_ mustNot query _ HmustNot).
    unfold bodyFailures. cbn [omap list_omap app]. by rewrite app_nil_r, <- app_assoc.
  - unfold bodyFailures. apply Forall_app. split.
    + clear. induction must as [|p must IH]; cbn [omap list_omap]; [constructor|].
      destruct (regexp_exec _ _); cbn; try done. constructor; [by left|done].
    + clear. induction mustNot as [|p mustNot IH]; cbn [omap list_omap]; [constructor|].
      destruct (regexp_exec _ _); cbn; try done. constructor; [by right|done].
  - unfold bodyFailures. rewrite length_app.
    pose proof (omap_length_le (fun p => match regexp_exec (regexp_source p) body_ with
                                       | NoMatch => Some (bodyMismatch p)
                                       | _ => None
                                       end) must).
    pose proof (omap_length_le (fun p => match regexp_exec (regexp_source p) body_ with
                                       | Match matched => Some (unexpectedBodyMatch p matched)
                                       | _ => None
                                       end) mustNot).
    lia.
Qed.

(** X19. [validateHttpRedirectTarget] looks at the last request only, and
    at its protocol, host and path only: it pushes nothing when these three
    equal those of the expected target, and one
    [invalidHttpRedirectLocation] failure otherwise. *)
Theorem redirect_target_is_last_request (query : Query) (state : ProbeState)
    (fs : list Failure) (earlier : list RequestOptions) (lastRequest : RequestOptions)
    (expectedRedirect : Url) :
  is_undefined (qget query "expectHttpRedirectTo") = false ->
  url_parse_val (qget query "expectHttpRedirectTo") = inr expectedRedirect ->
  requests state = earlier ++ [lastRequest] ->
  let same :=
    protocol expectedRedirect = protocol (parsed lastRequest)
    /\ host expectedRedirect = host (parsed lastRequest)
    /\ pathname expectedRedirect = pathname (parsed lastRequest) in
  (same ->
   validateHttpRedirectTarget state {| vquery := query; vfailures := fs |}
   = inr (tt, {| vquery := query; vfailures := fs |}))
  /\ (~ same ->
      exists f,
        validateHttpRedirectTarget state {| vquery := query; vfailures := fs |}
        = inr (tt, {| vquery := query; vfailures := fs ++ [f] |})
        /\ cause f = "invalidHttpRedirectLocation"
        /\ actual f = Some (OUrlFormat (parsed lastRequest))
        /\ expected f = Some (OUrlFormat expectedRedirect)).
Proof.
  intros Hdef Hparse Hreq same.
  unfold validateHttpRedirectTarget, vbind, vget. cbn [vquery].
  rewrite Hdef, Hparse, Hreq, last_snoc. split.
  - intros (Hp & Hh & Hn). by rewrite !bool_decide_eq_true_2.
  - intros Hne.
    destruct (negb (bool_decide (protocol expectedRedirect = protocol (parsed lastRequest)))
              || negb (bool_decide (host expectedRedirect = host (parsed lastRequest)))
              || negb (bool_decide (pathname expectedRedirect = pathname (parsed lastRequest))))
      eqn:Hb.
    + eexists. split; [reflexivity|done].
    + destruct Hne. apply orb_false_elim in Hb as [Hb Hn].
      apply orb_false_elim in Hb as [Hp Hh].
      apply negb_false_iff, bool_decide_eq_true in Hp, Hh, Hn. done.
Qed.

(** X20. [validateHttpRedirects] never throws, leaves the query as it is
    and pushes at most one failure, of one of three causes.  When only
    [expectHttpRedirectTo] is given (on a platform that reads the text
    [yes] as no number and as [true]), a chain without redirect fails with
    [missingHttpRedirect] and a chain with redirects passes. *)
Theorem redirects_validator_pushes_at_most_one (query : Query) (state : ProbeState)
    (fs : list Failure) :
  exists added : list Failure,
    validateHttpRedirects state {| vquery := query; vfailures := fs |}
    = inr (tt, {| vquery := query; vfailures := fs ++ added |})
    /\ (added = []
        \/ exists f, added = [f]
                     /\ (cause f = "invalidHttpRedirectCount"
                         \/ cause f = "missingHttpRedirect"
                         \/ cause f = "unexpectedHttpRedirect"))
    /\ (string_to_number "yes" = NaN ->
        parseBooleanQueryParam (JStr "yes") JNull = JBool true ->
        qget query "expectHttpRedirects" = JUndefined ->
        truthy (qget query "expectHttpRedirectTo") = true ->
        (prop_falsy (counters state !! "redirects") = true ->
         exists f, added = [f] /\ cause f = "missingHttpRedirect")
        /\ (prop_falsy (counters state !! "redirects") = false -> added = [])).
Proof.
  unfold validateHttpRedirects, vbind, vget. cbn [vquery]. cbv zeta.
  destruct (negb (isNaN _) && prop_strict_ne _ _) eqn:Hcount.
  - eexists [_]. split; [reflexivity|]. split; [right; eexists; split; [done|by left]|].
    intros Hyes _ Hundef Hto. rewrite Hundef, Hto in Hcount. cbn in Hcount.
    rewrite Hyes in Hcount. discriminate.
  - destruct (is_true _ && prop_falsy _) eqn:Hmissing.
    + eexists [_]. split; [reflexivity|].
      split; [right; eexists; split; [done|right; by left]|].
      intros _ _ _ _. apply andb_prop in Hmissing as [_ Hfalsy]. split.
      * intros _. eexists. split; done.
      * intros Hf. congruence.
    + destruct (is_false _ && negb (prop_falsy _)) eqn:Hunexpected.
      * eexists [_]. split; [reflexivity|].
        split; [right; eexists; split; [done|right; by right]|].
        intros _ Hbool Hundef Hto. rewrite Hundef, Hto in Hunexpected.
        cbn in Hunexpected. rewrite Hbool in Hunexpected. discriminate.
      * exists []. split; [cbn; by rewrite app_nil_r|]. split; [by left|].
        intros _ Hbool Hundef Hto. rewrite Hundef, Hto in Hmissing.
        cbn in Hmissing. rewrite Hbool in Hmissing. cbn in Hmissing.
        split; [congruence|done].
Qed.

End ValidatorExtras2.

(** * The claims on concrete scripts *)

Existing Instance TestPlatform.platform.

(** C1. A chain of two legs, a 301 then a 200, each with a first byte and
    an end: the content transfer from first byte to end lasts 5 ms on the
    first leg and 7 ms on the second, 12 ms over the chain.  The probe
    resolves, and its [httpDuration] metric for [contentTransfer] holds
    the 5 ms of the first leg only: on the second leg the guard on
    [state.firstByte] leaves [times.firstByteAt] unset, so the ['end']
    handler adds nothing. *)
Theorem content_transfer_of_later_leg_dropped :
  exists (result : ProbeResult) (state' : ProbeState),
    probeHttp [redirectLeg; okLeg] (JStr "http://a.test/") ∅ emptyState
    = (Resolved result, state')
    /\ phaseValues "contentTransfer" (metrics result) = [OQuot (Fin 5) 1000]
    /\ legContentTransfer redirectLeg = 5
    /\ legContentTransfer okLeg = 7
    /\ chainContentTransfer [redirectLeg; okLeg] = 12.
Proof.
  eexists _, _. split; [vm_compute; reflexivity|].
  repeat split; vm_compute; reflexivity.
Qed.

(** C5. With [expectHttpRedirects=0] and a target that answers 200 at
    once, no redirect is followed and the [httpRedirects] metric is 0, the
    expected count; yet the validator pushes [invalidHttpRedirectCount]
    (expected 0, actual [undefined]) and the probe fails: the counter of a
    chain without redirect is [undefined], which [!==] tells from 0. *)
Theorem zero_redirects_expected_and_none_followed :
  exists (result : ProbeResult) (state' : ProbeState),
    probeHttp [okLeg] (JStr "http://a.test/") {[ "expectHttpRedirects" := JStr "0" ]}
              emptyState
    = (Resolved result, state')
    /\ metricValues "httpRedirects" (metrics result) = [OVal (JNum (Fin 0))]
    /\ List.map cause (failures result) = ["invalidHttpRedirectCount"]
    /\ List.map expected (failures result) = [Some (OVal (JNum (Fin 0)))]
    /\ List.map actual (failures result) = [Some (OVal JUndefined)]
    /\ success result = false.
Proof.
  eexists _, _. split; [vm_compute; reflexivity|].
  repeat split; vm_compute; reflexivity.
Qed.

(** C9. The validators write their input.  Given an empty array as
    [expectHttpStatusCode], [validateHttpStatusCode] pushes the two default
    classes on that very array: after the run on a 404 response the query
    holds [2xx] and [3xx], and the failure reports them as the expectation
    given.  Without the parameter, and with a blank one (where the code
    builds a new array), the query is left as it was, and the failure
    reports what was given. *)
Theorem empty_expected_codes_are_written_in_place :
  (exists s1 : VState,
     validate404 {[ "expectHttpStatusCode" := JArr [] ]} = inr (tt, s1)
     /\ vquery s1 <> {[ "expectHttpStatusCode" := JArr [] ]}
     /\ qget (vquery s1) "expectHttpStatusCode" = JArr [JStr "2xx"; JStr "3xx"]
     /\ List.map cause (vfailures s1) = ["invalidHttpStatusCode"]
     /\ List.map expected (vfailures s1) = [Some (OVal (JArr [JStr "2xx"; JStr "3xx"]))])
  /\ (exists s2 : VState,
        validate404 ∅ = inr (tt, s2)
        /\ vquery s2 = ∅
        /\ List.map cause (vfailures s2) = ["invalidHttpStatusCode"]
        /\ List.map expected (vfailures s2) = [Some (OVal (JArr []))])
  /\ (exists s3 : VState,
        validate404 {[ "expectHttpStatusCode" := JStr EmptyString ]} = inr (tt, s3)
        /\ vquery s3 = {[ "expectHttpStatusCode" := JStr EmptyString ]}
        /\ List.map cause (vfailures s3) = ["invalidHttpStatusCode"]
        /\ List.map expected (vfailures s3) = [Some (OVal (JArr [JStr EmptyString]))])
  /\ (exists (result : ProbeResult) (state' : ProbeState),
        probeHttp [statusLeg 404] (JStr "http://a.test/")
                  {[ "expectHttpStatusCode" := JArr [] ]} emptyState
        = (Resolved result, state')
        /\ List.map expected (failures result)
           = [Some (OVal (JArr [JStr "2xx"; JStr "3xx"]))]).
Proof.
  split; [|split; [|split]].
  - eexists. split; [vm_compute; reflexivity|].
    split; [|split; [vm_compute; reflexivity|split; vm_compute; reflexivity]].
    intros E. apply (f_equal (fun q => qget q "expectHttpStatusCode")) in E.
    vm_compute in E. discriminate.
  - eexists. split; [vm_compute; reflexivity|].
    split; [vm_compute; reflexivity|split; vm_compute; reflexivity].
  - eexists. split; [vm_compute; reflexivity|].
    split; [vm_compute; reflexivity|split; vm_compute; reflexivity].
  - eexists _, _. split; vm_compute; reflexivity.
Qed.

(** Against C4 as stated: the class [6xx] is no class for the validator,
    which knows the hundreds 1 to 5 only; a status code 600 fails the
    expectation [6xx]. *)
Lemma class_of_hundreds_above_five_is_refused :
  exists (result : ProbeResult) (state' : ProbeState),
    probeHttp [statusLeg 600] (JStr "http://a.test/")
              {[ "expectHttpStatusCode" := JStr "6xx" ]} emptyState
    = (Resolved result, state')
    /\ metricValues "httpStatusCode" (metrics result) = [OVal (JNum (Fin 600))]
    /\ 100 * 6 <= 600 <= 100 * 6 + 99
    /\ List.map cause (failures result) = ["invalidHttpStatusCode"]
    /\ success result = false.
Proof.
  eexists _, _. split; [vm_compute; reflexivity|].
  split; [vm_compute; reflexivity|]. split; [lia|].
  split; vm_compute; reflexivity.
Qed.


(** ** The general statements at work *)

Lemma redirects_followed_and_counted_witness :
  (exists (result : ProbeResult) (state' : ProbeState),
     probeHttp [redirectLeg; okLeg] (JStr "http://a.test/") ∅ emptyState
     = (Resolved result, state')
     /\ metricValues "httpRedirects" (metrics result) = [OVal (JNum (Fin 1))]
     /\ Z.of_nat (length (requests state')) = 2)
  /\ (exists (result : ProbeResult) (state' : ProbeState),
        probeHttp [redirectLeg; okLeg] (JStr "http://a.test/")
                  {[ "followRedirects" := JStr "false" ]} emptyState
        = (Resolved result, state')
        /\ metricValues "httpRedirects" (metrics result) = [OVal (JNum (Fin 0))]
        /\ length (requests state') = 1%nat
        /\ metricValues "httpStatusCode" (metrics result) = [OVal (JNum (Fin 301))]).
Proof.
  split.
  - assert (exists (result : ProbeResult) (state' : ProbeState),
              probeHttp [redirectLeg; okLeg] (JStr "http://a.test/") ∅ emptyState
              = (Resolved result, state')) as (result & state' & E)
      by (eexists _, _; vm_compute; reflexivity).
    exists result, state'. split; [exact E|].
    destruct (redirects_followed_and_counted ∅) as (_ & _ & _ & Hchain).
    destruct (Hchain _ _ _ _ E) as (H1 & H2 & _).
    split; [exact H1|exact H2].
  - assert (exists (result : ProbeResult) (state' : ProbeState),
              probeHttp [redirectLeg; okLeg] (JStr "http://a.test/")
                        {[ "followRedirects" := JStr "false" ]} emptyState
              = (Resolved result, state')) as (result & state' & E)
      by (eexists _, _; vm_compute; reflexivity).
    exists result, state'. split; [exact E|].
    destruct (redirects_followed_and_counted {[ "followRedirects" := JStr "false" ]})
      as (_ & _ & _ & Hchain).
    destruct (Hchain _ _ _ _ E) as (_ & _ & Hoff).
    destruct (Hoff eq_refl) as (H1 & H2 & H3).
    split; [exact H1|]. split; [exact H2|].
    apply (H3 redirectLeg [okLeg] 301); reflexivity.
Defined.

Lemma transport_failure_outcome_witness :
  exists (result : ProbeResult) (state' : ProbeState),
    probeHttp [refusedLeg] (JStr "http://a.test/") ∅ emptyState = (Resolved result, state')
    /\ success result = false
    /\ failures result = []
    /\ metricValues "httpStatusCode" (metrics result) = [OVal JNull]
    /\ metricValues "httpVersion" (metrics result) = [OVal JNull]
    /\ phaseValues "dnsLookup" (metrics result) = [OQuot (Fin 2) 1000].
Proof.
  edestruct (transport_failure_outcome [] refusedLeg (JStr "http://a.test/") ∅ emptyState)
    as (result & E & Hs & Hf & Hm & H1 & H2);
    [vm_compute; reflexivity|vm_compute; reflexivity|].
  eexists result, _. split; [exact E|].
  repeat split; try assumption.
  rewrite Hm. vm_compute. reflexivity.
Defined.

Lemma status_code_validator_witness :
  exists s' : VState,
    validateHttpStatusCode (okWith ∅) {| vquery := ∅; vfailures := [] |} = inr (tt, s')
    /\ vfailures s' = [].
Proof.
  destruct (status_code_validator (okWith ∅) ∅ []) as (_ & s' & E & Hcases).
  exists s'. split; [exact E|].
  destruct Hcases as [[_ Hfs]|[Hno _]]; [exact Hfs|].
  exfalso. apply Hno. exists "2xx". split.
  - apply elem_of_cons. by left.
  - left. exists 2. split; [lia|]. split; [|cbn; lia].
    exists "x"%char, "x"%char. auto.
Defined.

Lemma first_byte_recorded_once_witness :
  counters (probeHttp [redirectLeg; okLeg] (JStr "http://a.test/") ∅ emptyState).2
    !! "firstByte" = Some (Fin 6).
Proof.
  refine (first_byte_recorded_once ∅ (JStr "http://a.test/") emptyState _ redirectLeg [okLeg]
            1000 (Some 1002) 1005 None 1010 1011 (movedTo "http://b.test/next")
            [(1016, EvEnd)] _ _ _ _ _ _).
  - vm_compute. reflexivity.
  - reflexivity.
  - reflexivity.
  - cbn. lia.
  - cbn. lia.
  - intros t Ht. discriminate.
Defined.

Lemma content_length_metric_witness :
  contentLength (Some (okWith {[ "content-length" := "5" ]})) = OVal (JNum (Fin 5))
  /\ contentLength (Some (okWith ∅)) = OVal JNull
  /\ exists (result : ProbeResult) (state' : ProbeState),
       probeHttp [garbledLeg] (JStr "http://a.test/") ∅ emptyState
       = (Resolved result, state')
       /\ metricValues "httpContentLength" (metrics result) = [OVal JNull]
       /\ success result = false
       /\ failures result = [].
Proof.
  split; [|split].
  - destruct (content_length_metric ∅ plainRequest
                (Some (okWith {[ "content-length" := "5" ]})) emptyState)
      as (_ & _ & _ & Hpresent & _).
    + intros r [= <-] s Hs. vm_compute in Hs. injection Hs as <-.
      apply Forall_cons_2; [by exists 5|apply Forall_nil_2].
    + destruct (Hpresent (okWith {[ "content-length" := "5" ]}) "5")
        as (_ & _ & Hvalue); [reflexivity|reflexivity|discriminate|].
      apply Hvalue. unfold exact. vm_compute. reflexivity.
  - destruct (content_length_metric ∅ plainRequest (Some (okWith ∅)) emptyState)
      as (_ & _ & Hmissing & _).
    + intros r [= <-] s Hs. vm_compute in Hs. discriminate.
    + apply (Hmissing (okWith ∅)); [reflexivity|by left].
  - destruct (content_length_metric ∅ plainRequest None emptyState)
      as (_ & _ & _ & _ & _ & _ & Hrefused); [discriminate|].
    assert (exists r, requestOptions (JStr "http://a.test/") ∅ = inr r) as [r Hr]
      by (eexists; vm_compute; reflexivity).
    apply (Hrefused garbledLeg [] (JStr "http://a.test/") emptyState r
             [(1021, EvLookup); (1023, EvConnect)]
             [(1031, EvReadable); (1038, EvEnd)] 1030
             (okWith {[ "content-length" := "abc" ]}) "abc" Hr eq_refl).
    + repeat (apply Forall_cons_2;
              [first [left; reflexivity|right; left; reflexivity|right; right; reflexivity]|]).
      apply Forall_nil_2.
    + reflexivity.
    + reflexivity.
Defined.


Lemma validators_rerun_witness :
  let query : Query := {[ "expectHttpStatusCode" := JStr "404" ]} in
  exists s1 : VState,
    validators (withBody (okWith ∅) "hello") emptyState
               {| vquery := query; vfailures := [] |} = inr (tt, s1)
    /\ validators (withBody (okWith ∅) "hello") emptyState
                  {| vquery := vquery s1; vfailures := [] |} = inr (tt, s1)
    /\ vquery s1 = query
    /\ List.map cause (vfailures s1) = ["invalidHttpStatusCode"].
Proof.
  intros query.
  assert (exists s1 : VState,
            validators (withBody (okWith ∅) "hello") emptyState
                       {| vquery := query; vfailures := [] |} = inr (tt, s1)
            /\ List.map cause (vfailures s1) = ["invalidHttpStatusCode"])
    as (s1 & E & Hc)
    by (eexists; split; vm_compute; reflexivity).
  exists s1. split; [exact E|].
  destruct (validators_rerun query _ _ s1 E) as [Hagain Hsame].
  split; [exact Hagain|]. split; [|exact Hc].
  apply Hsame. vm_compute. discriminate.
Defined.

Lemma security_expectation_is_last_item_witness :
  exists f : Failure,
    failuresOf (validateHttpSecurity emptyState
                  {| vquery := {[ "expectHttpSecure" := JArr [JStr "false"; JStr "true"] ]};
                     vfailures := [] |})
    = Some [f]
    /\ cause f = "insecureHttp".
Proof.
  destruct (security_expectation_is_last_item ∅ emptyState [] [JStr "false"] (JStr "true"))
    as (_ & Hinsecure & _).
  destruct Hinsecure as (f & E & Hc); [reflexivity|reflexivity|].
  exists f. split; [exact E|exact Hc].
Defined.

(** ** Examples for the further properties *)

Lemma increase_composes_witness :
  increase (increase ∅ "dnsLookup" (Fin 2)) "dnsLookup" (Fin 1)
  = increase ∅ "dnsLookup" (Fin 3)
  /\ increase (increase ∅ "dnsLookup" (Fin 2)) "redirects" (Fin 1)
     = increase (increase ∅ "redirects" (Fin 1)) "dnsLookup" (Fin 2).
Proof.
  assert (forall z, Z.abs z < 10 -> exact z) as Hsmall
    by (intros z Hz; unfold exact; lia).
  destruct (increase_composes ∅ "dnsLookup" "redirects" 2 1 (Fin 2) (Fin 1)
              exactCounters_empty) as (H1 & H2 & _).
  split.
  - apply H1; try (apply Hsmall; lia);
      apply exactCounters_insert; try apply exactCounters_empty; apply Hsmall; cbn; lia.
  - apply H2; [discriminate|apply Hsmall; lia|apply Hsmall; lia|].
    repeat (apply exactCounters_insert; [apply Hsmall; cbn; lia|]).
    apply exactCounters_empty.
Defined.

Lemma parseBooleanParam_reads_witness :
  TestPlatform.parseBooleanParam (JStr "Yes") JNull = JBool true
  /\ TestPlatform.parseBooleanParam (JStr "no") JNull = JBool false.
Proof.
  split.
  - destruct (parseBooleanParam_reads (JStr "Yes") JNull) as (_ & _ & _ & Ht & _).
    apply Ht. reflexivity.
  - destruct (parseBooleanParam_reads (JStr "no") JNull) as (_ & _ & _ & _ & Hf).
    apply Hf. reflexivity.
Defined.

Lemma validateBooleanOption_reads_witness :
  validateBooleanOption {[ "pretty" := JStr "true" ]} "pretty" = inr (JBool true).
Proof.
  pose proof (validateBooleanOption_reads {[ "pretty" := JStr "true" ]} "pretty") as Hv.
  cbv zeta in Hv. destruct Hv as (_ & _ & Hb & _).
  apply (Hb true). right. reflexivity.
Defined.

Lemma parseIntegerParam_reads_decimal_witness :
  parseIntegerParam (JStr "3000px") JUndefined = inr (JNum (Fin 3000)).
Proof.
  destruct (parseIntegerParam_reads_decimal 3000 "px" JUndefined) as (Hp & _).
  - reflexivity.
  - intros c rest [= <- <-]. reflexivity.
  - exact Hp.
Defined.

Lemma parseHttpParams_of_text_witness :
  TestPlatform.parseHttpParams (JStr "Accept=text/html")
  = inr {[ "Accept" := [JStr "text/html"] ]}.
Proof.
  destruct (parseHttpParams_of_text "Accept" "text/html" "x") as (_ & Hp & _).
  - unfold noEquals. cbn.
    repeat (apply Forall_cons_2; [discriminate|]). apply Forall_nil_2.
  - unfold noEquals. cbn.
    repeat (apply Forall_cons_2; [discriminate|]). apply Forall_nil_2.
  - exact Hp.
Defined.

Lemma firstResolved_heads_compactResolved_witness :
  compactResolved [Fulfilled JUndefined; Fulfilled (JStr "a")] = Some [JStr "a"]
  /\ firstResolved [Fulfilled JUndefined; Fulfilled (JStr "a")] <> Some JUndefined.
Proof.
  destruct (firstResolved_heads_compactResolved
              [Fulfilled JUndefined; Fulfilled (JStr "a")]) as (_ & _ & _ & Hall).
  destruct (Hall [JUndefined; JStr "a"] eq_refl) as [Hc Hu].
  split; [exact Hc|]. intros Hf. apply Hu in Hf.
  inversion Hf as [|? ? _ Hrest]. inversion Hrest. discriminate.
Defined.

Lemma option_validators_accept_witness :
  validateStringArrayOption {[ "commands" := JArr [JStr "a"] ]} "commands"
  = inr (JArr [JStr "a"]).
Proof.
  destruct (option_validators_accept {[ "commands" := JArr [JStr "a"] ]} "commands"
              "strings" (fun _ => true) (JArr [JStr "a"])) as (_ & [_ Hs] & _).
  apply Hs. split; [reflexivity|]. right. by exists ["a"].
Defined.

Lemma getEnv_prefers_variable_witness :
  getEnv {[ "PROBE_PORT_FILE" := "/run/port" ]} (fun _ => inr "  3000 ") "PROBE_PORT"
  = CvPromise (inr "3000").
Proof.
  destruct (getEnv_prefers_variable {[ "PROBE_PORT_FILE" := "/run/port" ]}
              (fun _ => inr "  3000 ") "PROBE_PORT") as (_ & _ & Hfile).
  specialize (Hfile "/run/port" eq_refl eq_refl). cbv beta iota in Hfile.
  destruct Hfile as (Hg & _). exact Hg.
Defined.

Lemma whitelistConfig_picks_witness :
  whitelistConfig (<["secret" := 2]> {[ "port" := 1 ]})
  = whitelistConfig ({[ "port" := 1 ]} : gmap string Z).
Proof.
  destruct (whitelistConfig_picks ({[ "port" := 1 ]} : gmap string Z) "port")
    as (_ & _ & _ & Hout).
  apply Hout. intros Hin.
  repeat (apply elem_of_cons in Hin as [Heq|Hin]; [discriminate|]).
  by apply elem_of_nil in Hin.
Defined.

Lemma duration_metrics_follow_counters_witness :
  phaseValues "dnsLookup"
    (httpMetrics plainRequest None
       {| requests := []; counters := {[ "dnsLookup" := Fin 2 ]} |})
  = [OQuot (Fin 2) 1000].
Proof.
  destruct (duration_metrics_follow_counters plainRequest None
              {| requests := []; counters := {[ "dnsLookup" := Fin 2 ]} |}) as (Hp & _).
  apply (Hp "dnsLookup"). unfold isPhase. by left.
Defined.

Lemma httpSecure_of_any_leg_witness :
  exists (result : ProbeResult) (state' : ProbeState),
    probeHttp [secureRedirectLeg; okLeg] (JStr "https://s.test/") ∅ emptyState
    = (Resolved result, state')
    /\ metricValues "httpSecure" (metrics result) = [OVal (JBool true)]
    /\ handshakeHandled okLeg = false.
Proof.
  assert (exists (result : ProbeResult) (state' : ProbeState),
            probeHttp [secureRedirectLeg; okLeg] (JStr "https://s.test/") ∅ emptyState
            = (Resolved result, state')) as (result & state' & E)
    by (eexists _, _; vm_compute; reflexivity).
  exists result, state'. split; [exact E|]. split; [|reflexivity].
  rewrite (httpSecure_of_any_leg ∅ _ _ _ _ E). reflexivity.
Defined.

Lemma dnsLookup_sums_over_legs_witness :
  exists (result : ProbeResult) (state' : ProbeState),
    probeHttp [redirectLeg; okLeg] (JStr "http://a.test/") ∅ emptyState
    = (Resolved result, state')
    /\ phaseValues "dnsLookup" (metrics result) = [OQuot (Fin 3) 1000]
    /\ lookupIntervals redirectLeg = [2] /\ lookupIntervals okLeg = [1].
Proof.
  assert (exists (result : ProbeResult) (state' : ProbeState),
            probeHttp [redirectLeg; okLeg] (JStr "http://a.test/") ∅ emptyState
            = (Resolved result, state')) as (result & state' & E)
    by (eexists _, _; vm_compute; reflexivity).
  exists result, state'. split; [exact E|]. split; [|split; reflexivity].
  pose proof (dnsLookup_sums_over_legs ∅ _ _ _ _ E) as Hd. cbv zeta in Hd.
  rewrite Hd. reflexivity.
Defined.

Lemma followed_status_is_not_reported_witness :
  exists (result : ProbeResult) (state' : ProbeState),
    probeHttp [redirectLeg; okLeg] (JStr "http://a.test/") ∅ emptyState
    = (Resolved result, state')
    /\ metricValues "httpStatusCode" (metrics result) <> [OVal (JNum (Fin 301))].
Proof.
  assert (exists (result : ProbeResult) (state' : ProbeState),
            probeHttp [redirectLeg; okLeg] (JStr "http://a.test/") ∅ emptyState
            = (Resolved result, state')) as (result & state' & E)
    by (eexists _, _; vm_compute; reflexivity).
  exists result, state'. split; [exact E|].
  destruct (followed_status_is_not_reported ∅ _ _ _ _ _ E)
    as [(Hnull & _)|(s & Hs & Hne)].
  - rewrite Hnull. discriminate.
  - rewrite Hs. intros [= ->]. destruct (Hne eq_refl) as [Hne1 _]. by apply Hne1.
Defined.

Lemma unusable_location_rejects_witness :
  exists (e : JsError) (state' : ProbeState),
    probeHttp [lostLeg] (JStr "http://a.test/") ∅ emptyState = (Rejected e, state')
    /\ err_name e = "TypeError"
    /\ redirectCount state' = 1
    /\ length (requests state') = 1%nat.
Proof.
  edestruct (unusable_location_rejects ∅ lostLeg [] (JStr "http://a.test/") emptyState)
    as (Hrun & Hreq & Hcount & Hname).
  - vm_compute. reflexivity.
  - vm_compute. reflexivity.
  - reflexivity.
  - left. reflexivity.
  - reflexivity.
  - eexists _, _. split; [exact Hrun|]. split; [by apply Hname|].
    split; [exact Hcount|]. by rewrite Hreq.
Defined.

Lemma requests_are_appended_witness :
  exists added : list RequestOptions,
    requests (probeHttp [okLeg] (JStr "http://a.test/") ∅ emptyState).2 = [] ++ added
    /\ exists first later,
         added = first :: later
         /\ url_parse_val (JStr "http://a.test/") = inr (parsed first).
Proof.
  destruct (requests_are_appended ∅ [okLeg] (JStr "http://a.test/") emptyState)
    as (added & Hadd & _ & _ & Hfirst).
  exists added. split; [exact Hadd|]. apply Hfirst.
  intros e. vm_compute. discriminate.
Defined.

Lemma body_is_the_chunks_in_order_witness :
  exists state1 : ProbeState,
    probeHttp [okLeg] (JStr "http://a.test/") ∅ emptyState
    = (settle (getHttpMetrics ∅ plainRequest (Some (withBody (okWith ∅) "hello")) state1),
       state1).
Proof.
  assert (exists r, requestOptions (JStr "http://a.test/") ∅ = inr r) as [r Hr]
    by (eexists; vm_compute; reflexivity).
  destruct (body_is_the_chunks_in_order ∅ okLeg [] (JStr "http://a.test/") emptyState r
              [(1021, EvLookup); (1023, EvConnect)]
              [(1031, EvReadable); (1031, EvData "hello"); (1038, EvReadable)]
              [] 1030 1038 (okWith ∅) Hr eq_refl) as [state1 Hrun].
  - repeat (apply Forall_cons_2;
            [first [left; reflexivity|right; left; reflexivity|right; right; reflexivity]|]).
    apply Forall_nil_2.
  - repeat (apply Forall_cons_2;
            [first [left; reflexivity|right; eexists; reflexivity]|]).
    apply Forall_nil_2.
  - exists state1. exact Hrun.
Defined.

Lemma response_body_failures_witness :
  let query : Query :=
    <["expectHttpResponseBodyMatch" := JStr "bye"]>
      {[ "expectHttpResponseBodyMismatch" := JStr "ell" ]} in
  failuresOf (validateHttpResponseBody (withBody (okWith ∅) "hello")
                {| vquery := query; vfailures := [] |})
  = Some [bodyMismatch (JStr "bye"); unexpectedBodyMatch (JStr "ell") "ell"].
Proof.
  intros query.
  pose proof (response_body_failures (withBody (okWith ∅) "hello") query []) as Hb.
  cbv zeta in Hb. destruct Hb as (Hrun & _).
  - apply Forall_cons_2; [|apply Forall_nil_2]. intros e. vm_compute. discriminate.
  - apply Forall_cons_2; [|apply Forall_nil_2]. intros e. vm_compute. discriminate.
  - rewrite Hrun. reflexivity.
Defined.

Lemma redirect_target_is_last_request_witness :
  let request_ := fun u : Url =>
    {| method := JStr "GET"; parsed := u; agent := false; reqHeaders := ∅;
       rejectUnauthorized := true |} in
  let first := {| protocol := Some "http:"; host := Some "a.test";
                  pathname := Some "/"; href := "http://a.test/" |} in
  let second := {| protocol := Some "http:"; host := Some "b.test";
                   pathname := Some "/next"; href := "http://b.test/next?page=2" |} in
  let query : Query := {[ "expectHttpRedirectTo" := JStr "http://b.test/next" ]} in
  validateHttpRedirectTarget
    {| requests := [request_ first; request_ second]; counters := ∅ |}
    {| vquery := query; vfailures := [] |}
  = inr (tt, {| vquery := query; vfailures := [] |}).
Proof.
  intros request_ first second query.
  edestruct (redirect_target_is_last_request query
               {| requests := [request_ first; request_ second]; counters := ∅ |}
               [] [request_ first] (request_ second)) as [Hsame _].
  - reflexivity.
  - vm_compute. reflexivity.
  - reflexivity.
  - apply Hsame. repeat split.
Defined.

Lemma redirects_validator_pushes_at_most_one_witness :
  let query : Query := {[ "expectHttpRedirectTo" := JStr "http://b.test/" ]} in
  List.map cause
    <$> failuresOf (validateHttpRedirects emptyState {| vquery := query; vfailures := [] |})
  = Some ["missingHttpRedirect"].
Proof.
  intros query.
  destruct (redirects_validator_pushes_at_most_one query emptyState [])
    as (added & Hrun & _ & Hto).
  destruct Hto as [Hmiss _]; [reflexivity|reflexivity|reflexivity|reflexivity|].
  destruct (Hmiss eq_refl) as (f & -> & Hc).
  rewrite Hrun. cbn. by rewrite Hc.
Defined.

Lemma result_shape_witness :
  exists (result : ProbeResult) (state' : ProbeState),
    probeHttp [redirectLeg; okLeg] (JStr "http://a.test/") ∅ emptyState
    = (Resolved result, state')
    /\ List.map metricName (metrics result)
       = ["httpCertificateExpiry"; "httpContentLength"; "httpDuration"; "httpDuration";
          "httpDuration"; "httpDuration"; "httpRedirects"; "httpSecure"; "httpStatusCode";
          "httpVersion"]
    /\ success result = true.
Proof.
  assert (exists (result : ProbeResult) (state' : ProbeState),
            probeHttp [redirectLeg; okLeg] (JStr "http://a.test/") ∅ emptyState
            = (Resolved result, state')) as (result & state' & E)
    by (eexists _, _; vm_compute; reflexivity).
  exists result, state'. split; [exact E|].
  destruct (result_shape ∅ _ _ _ _ _ E) as [_ Hs].
  injection E as <- <-. split; [reflexivity|]. apply Hs. split; [reflexivity|discriminate].
Defined.

